(** * MarketHub order engine: checkout, status transitions, cancellation

    A shallow embedding of the order router ([createOrder],
    [updateOrderStatus], [cancelOrder]) and of the product router's
    writes ([updateProduct], [deleteProduct]) over an explicit model of the
    storage layer, followed by the properties of the checkout and of the
    order status machine.

    Conventions of the embedding.
    - A table with one unique key read by that key is a [gmap] (products by
      id); a table read in row order or by several keys is a list of rows
      (cart lines, vendors).
    - Order ids are generated by the storage layer.  An order is identified
      here with its row number in the orders table, so that the id of a new
      row is the length of the table.
    - [price] and [total] are JavaScript numbers, hence binary64 floats;
      [stock] and [quantity] are integer columns, hence [Z].
    - A handler is a function from the state of the store to a result and
      the state it leaves.  A thrown [ORPCError] is [Err code]; a failure of
      the storage layer itself (a row that is not there) surfaces as
      [INTERNAL_SERVER_ERROR].  [transaction] restores the state it started
      from when its body throws.
    - Handlers are modelled after input validation: the fields of an input
      have the types of its schema. *)

From Stdlib Require Import ZArith Floats.PrimFloat.
From stdpp Require Import base option list gmap strings.

(** ** Data model *)

Inductive OrderStatus := PENDING | CONFIRMED | SHIPPED | DELIVERED | CANCELLED.

#[global] Instance OrderStatus_eq_dec : EqDecision OrderStatus.
Proof. solve_decision. Defined.

(** The [status] field of [updateOrderStatus]'s input:
    [z.enum(["CONFIRMED", "SHIPPED", "DELIVERED", "CANCELLED"])]. *)
Inductive StatusInput := ToCONFIRMED | ToSHIPPED | ToDELIVERED | ToCANCELLED.

#[global] Instance StatusInput_eq_dec : EqDecision StatusInput.
Proof. solve_decision. Defined.

Definition status_of_input (s : StatusInput) : OrderStatus :=
  match s with
  | ToCONFIRMED => CONFIRMED
  | ToSHIPPED => SHIPPED
  | ToDELIVERED => DELIVERED
  | ToCANCELLED => CANCELLED
  end.

Inductive ErrorCode := BAD_REQUEST | FORBIDDEN | NOT_FOUND | INTERNAL_SERVER_ERROR.

Module Vendor.
Record t := mk { id : string; userId : string; isApproved : bool }.
End Vendor.

Module Product.
Record t := mk {
  vendorId : string;
  categoryId : string;
  name : string;
  description : string;
  price : float;
  stock : Z;
  isActive : bool
}.

Definition set_stock (s : Z) (p : t) : t :=
  mk (vendorId p) (categoryId p) (name p) (description p) (price p) s (isActive p).
End Product.

Module CartItem.
Record t := mk { userId : string; productId : string; quantity : Z }.
End CartItem.

(** A cart line as [cartItem.findMany] returns it with
    [include: { product: { include: { vendor: true } } }]. *)
Module CartItemWithProduct.
Record t := mk {
  productId : string;
  quantity : Z;
  product : Product.t;
  vendor : Vendor.t
}.
End CartItemWithProduct.

Module OrderItem.
Record t := mk { productId : string; quantity : Z; price : float }.
End OrderItem.

Module Order.
Record t := mk {
  userId : string;
  vendorId : string;
  shippingAddress : string;
  total : float;
  status : OrderStatus;
  items : list OrderItem.t
}.

Definition set_status (s : OrderStatus) (o : t) : t :=
  mk (userId o) (vendorId o) (shippingAddress o) (total o) s (items o).
End Order.

(** The store. *)
Record State := mkState {
  products : gmap string Product.t;
  vendors : list Vendor.t;
  categories : list string;
  cartItems : list CartItem.t;
  orders : list Order.t
}.

Definition with_products (ps : gmap string Product.t) (st : State) : State :=
  mkState ps (vendors st) (categories st) (cartItems st) (orders st).
Definition with_cartItems (cs : list CartItem.t) (st : State) : State :=
  mkState (products st) (vendors st) (categories st) cs (orders st).
Definition with_orders (os : list Order.t) (st : State) : State :=
  mkState (products st) (vendors st) (categories st) (cartItems st) os.

(** ** Handlers as state transformers with errors *)

Inductive Result (A : Type) := Ok (a : A) | Err (e : ErrorCode).
Arguments Ok {A} a.
Arguments Err {A} e.

Definition Db (A : Type) : Type := State → Result A * State.

Definition ret {A} (a : A) : Db A := λ st, (Ok a, st).
Definition throw {A} (e : ErrorCode) : Db A := λ st, (Err e, st).
Definition bind {A B} (m : Db A) (k : A → Db B) : Db B :=
  λ st, match m st with
        | (Ok a, st') => k a st'
        | (Err e, st') => (Err e, st')
        end.
Definition lift {A} (r : Result A) : Db A := λ st, (r, st).

Notation "'let*' x := m 'in' k" := (bind m (λ x, k))
  (at level 20, x name, m at level 100, k at level 200, only parsing).
Notation "m >> k" := (bind m (λ _, k)) (at level 100, k at level 200, right associativity).

(** [prisma.$transaction]: all or nothing. *)
Definition transaction {A} (body : Db A) : Db A :=
  λ st, match body st with
        | (Ok a, st') => (Ok a, st')
        | (Err e, _) => (Err e, st)
        end.

(** [for (const x of xs) { await f(x) }] *)
Fixpoint for_each {A} (xs : list A) (f : A → Db unit) : Db unit :=
  match xs with
  | [] => ret ()
  | x :: xs' => f x >> for_each xs' f
  end.

(** ** The storage layer *)

(** Integer to JavaScript number; exact below 2^53. *)
Fixpoint float_of_pos (p : positive) : float :=
  match p with
  | xH => 1%float
  | xO q => (2 * float_of_pos q)%float
  | xI q => (2 * float_of_pos q + 1)%float
  end.

Definition float_of_Z (z : Z) : float :=
  match z with
  | Z0 => 0%float
  | Zpos p => float_of_pos p
  | Zneg p => (- float_of_pos p)%float
  end.

Definition vendor_by_userId (vs : list Vendor.t) (uid : string) : option Vendor.t :=
  find (λ v, bool_decide (Vendor.userId v = uid)) vs.

Definition vendor_by_id (vs : list Vendor.t) (vid : string) : option Vendor.t :=
  find (λ v, bool_decide (Vendor.id v = vid)) vs.

(** [prisma.vendor.findUnique({ where: { userId } })] *)
Definition vendor_findUnique (uid : string) : Db (option Vendor.t) :=
  λ st, (Ok (vendor_by_userId (vendors st) uid), st).

(** [prisma.product.findUnique({ where: { id } })] *)
Definition product_findUnique (pid : string) : Db (option Product.t) :=
  λ st, (Ok (products st !! pid), st).

(** [prisma.order.findUnique({ where: { id }, include: { items } })] *)
Definition order_findUnique (oid : nat) : Db (option Order.t) :=
  λ st, (Ok (orders st !! oid), st).

(** The join of one cart line with its product and the product's vendor. *)
Definition include_product (st : State) (ci : CartItem.t) : option CartItemWithProduct.t :=
  match products st !! CartItem.productId ci with
  | Some p =>
      match vendor_by_id (vendors st) (Product.vendorId p) with
      | Some v => Some (CartItemWithProduct.mk (CartItem.productId ci) (CartItem.quantity ci) p v)
      | None => None
      end
  | None => None
  end.

Definition cart_of (uid : string) (cs : list CartItem.t) : list CartItem.t :=
  filter (λ ci, CartItem.userId ci = uid) cs.

(** The rows of [uid]'s cart, joined; [None] when a row's product or vendor
    is not in the store. *)
Definition cart_lines (st : State) (uid : string) : option (list CartItemWithProduct.t) :=
  mapM (include_product st) (cart_of uid (cartItems st)).

(** [tx.cartItem.findMany({ where: { userId }, include: ... })] *)
Definition cartItem_findMany (uid : string) : Db (list CartItemWithProduct.t) :=
  λ st, match cart_lines st uid with
        | Some items => (Ok items, st)
        | None => (Err INTERNAL_SERVER_ERROR, st)
        end.

(** [tx.cartItem.deleteMany({ where: { userId } })] *)
Definition cartItem_deleteMany (uid : string) : Db unit :=
  λ st, (Ok (), with_cartItems (filter (λ ci, CartItem.userId ci ≠ uid) (cartItems st)) st).

(** [tx.order.create({ data })]: the new row and its id. *)
Definition order_create (o : Order.t) : Db (nat * Order.t) :=
  λ st, (Ok (length (orders st), o), with_orders (orders st ++ [o]) st).

(** [order.update({ where: { id }, data: { status } })] *)
Definition order_update_status (oid : nat) (s : OrderStatus) : Db Order.t :=
  λ st, match orders st !! oid with
        | Some o => (Ok (Order.set_status s o),
                     with_orders (<[oid := Order.set_status s o]> (orders st)) st)
        | None => (Err INTERNAL_SERVER_ERROR, st)
        end.

(** [product.update({ where: { id }, data })] with the change [f] of the row. *)
Definition product_update (pid : string) (f : Product.t → Product.t) : Db unit :=
  λ st, match products st !! pid with
        | Some p => (Ok (), with_products (<[pid := f p]> (products st)) st)
        | None => (Err INTERNAL_SERVER_ERROR, st)
        end.

(** [data: { stock: { decrement: n } }] and [data: { stock: { increment: n } }] *)
Definition decrement (n : Z) (p : Product.t) : Product.t :=
  Product.set_stock (Product.stock p - n) p.
Definition increment (n : Z) (p : Product.t) : Product.t :=
  Product.set_stock (Product.stock p + n) p.

(** ** The order router *)

Definition getVendorProfile (userId : string) : Db Vendor.t :=
  let* vendor := vendor_findUnique userId in
  match vendor with
  | None => throw FORBIDDEN
  | Some v => ret v
  end.

Fixpoint validateCartItems (cartItems : list CartItemWithProduct.t) : Result unit :=
  match cartItems with
  | [] => Ok ()
  | item :: rest =>
      if negb (Product.isActive (CartItemWithProduct.product item)) then Err BAD_REQUEST
      else if negb (Vendor.isApproved (CartItemWithProduct.vendor item)) then Err BAD_REQUEST
      else if (CartItemWithProduct.quantity item >?
               Product.stock (CartItemWithProduct.product item))%Z then Err BAD_REQUEST
      else validateCartItems rest
  end.

(** A JavaScript [Map] keeps its keys in insertion order: a list of entries.
    [group_push vendorId item groups] is
    [if (!groups.has(vendorId)) groups.set(vendorId, []);
     groups.get(vendorId).push(item)]. *)
Definition VendorGroups := list (string * list CartItemWithProduct.t).

Fixpoint group_push (vendorId : string) (item : CartItemWithProduct.t)
    (groups : VendorGroups) : VendorGroups :=
  match groups with
  | [] => [(vendorId, [item])]
  | (v, its) :: rest =>
      if bool_decide (v = vendorId) then (v, its ++ [item]) :: rest
      else (v, its) :: group_push vendorId item rest
  end.

Definition groupCartItemsByVendor (cartItems : list CartItemWithProduct.t) : VendorGroups :=
  fold_left
    (λ vendorGroups item,
       group_push (Product.vendorId (CartItemWithProduct.product item)) item vendorGroups)
    cartItems [].

(** [items.reduce((sum, item) => sum + item.product.price * item.quantity, 0)] *)
Definition order_total (items : list CartItemWithProduct.t) : float :=
  fold_left
    (λ sum item,
       (sum + Product.price (CartItemWithProduct.product item)
              * float_of_Z (CartItemWithProduct.quantity item))%float)
    items 0%float.

Definition order_item_of (item : CartItemWithProduct.t) : OrderItem.t :=
  OrderItem.mk (CartItemWithProduct.productId item)
               (CartItemWithProduct.quantity item)
               (Product.price (CartItemWithProduct.product item)).

(** One round of the loop over [vendorGroups.entries()]. *)
Definition create_vendor_order (userId shippingAddress : string)
    (entry : string * list CartItemWithProduct.t) : Db (nat * Order.t) :=
  let '(vendorId, items) := entry in
  let total := order_total items in
  let* order := order_create
      (Order.mk userId vendorId shippingAddress total PENDING (order_item_of <$> items)) in
  for_each items (λ item,
    product_update (CartItemWithProduct.productId item)
                   (decrement (CartItemWithProduct.quantity item))) >>
  ret order.

Fixpoint create_vendor_orders (userId shippingAddress : string)
    (vendorGroups : VendorGroups) (createdOrders : list (nat * Order.t))
    : Db (list (nat * Order.t)) :=
  match vendorGroups with
  | [] => ret createdOrders
  | entry :: rest =>
      let* order := create_vendor_order userId shippingAddress entry in
      create_vendor_orders userId shippingAddress rest (createdOrders ++ [order])
  end.

(** The body handed to [prisma.$transaction]. *)
Definition createOrder_body (userId shippingAddress : string) : Db (list (nat * Order.t)) :=
  let* cartItems := cartItem_findMany userId in
  if (length cartItems =? 0)%nat then throw BAD_REQUEST
  else
    lift (validateCartItems cartItems) >>
    let vendorGroups := groupCartItemsByVendor cartItems in
    let* createdOrders := create_vendor_orders userId shippingAddress vendorGroups [] in
    cartItem_deleteMany userId >>
    ret createdOrders.

Definition createOrder (userId shippingAddress : string) : Db (list (nat * Order.t)) :=
  transaction (createOrder_body userId shippingAddress).

(** [for (const item of order.items) tx.product.update(... increment ...)] *)
Definition restore_stock (items : list OrderItem.t) : Db unit :=
  for_each items (λ item,
    product_update (OrderItem.productId item) (increment (OrderItem.quantity item))).

Definition updateOrderStatus (userId : string) (orderId : nat) (status : StatusInput)
    : Db Order.t :=
  let* vendor := getVendorProfile userId in
  let* order := order_findUnique orderId in
  match order with
  | None => throw NOT_FOUND
  | Some order =>
      if bool_decide (Order.vendorId order ≠ Vendor.id vendor) then throw FORBIDDEN
      else if bool_decide (Order.status order = CANCELLED) then throw BAD_REQUEST
      else if bool_decide (Order.status order = DELIVERED) then throw BAD_REQUEST
      else if bool_decide (status = ToCANCELLED) then
        transaction
          (restore_stock (Order.items order) >>
           order_update_status orderId (status_of_input status))
      else order_update_status orderId (status_of_input status)
  end.

(** [reason] is accepted and not used. *)
Definition cancelOrder (userId : string) (orderId : nat) (reason : option string)
    : Db Order.t :=
  let* order := order_findUnique orderId in
  match order with
  | None => throw NOT_FOUND
  | Some order =>
      if bool_decide (Order.userId order ≠ userId) then throw FORBIDDEN
      else if bool_decide (Order.status order ≠ PENDING)
              && bool_decide (Order.status order ≠ CONFIRMED) then throw BAD_REQUEST
      else
        transaction
          (restore_stock (Order.items order) >>
           order_update_status orderId CANCELLED)
  end.

(** ** The product router's writes *)

Module UpdateProductInput.
Record t := mk {
  productId : string;
  name : option string;
  description : option string;
  price : option float;
  stock : option Z;
  categoryId : option string;
  isActive : option bool
}.
End UpdateProductInput.

(** [createProduct]'s input; the image URLs are left out, the model has
    no table of images. *)
Module CreateProductInput.
Record t := mk {
  name : string;
  description : string;
  price : float;
  stock : Z;
  categoryId : string
}.
End CreateProductInput.

(** [prisma.category.findUnique({ where: { id } })] *)
Definition category_findUnique (categoryId : string) : Db (option string) :=
  λ st, (Ok (if bool_decide (categoryId ∈ categories st) then Some categoryId else None), st).

(** [prisma.product.create({ data })]; [id] is the id that the storage
    layer draws for the row, and a row with that id must not exist. *)
Definition product_create (id : string) (p : Product.t) : Db Product.t :=
  λ st, match products st !! id with
        | None => (Ok p, with_products (<[id := p]> (products st)) st)
        | Some _ => (Err INTERNAL_SERVER_ERROR, st)
        end.

Module ProductRouter.

(** The product router's own helper: the vendor must also be approved. *)
Definition getVendorProfile (userId : string) : Db Vendor.t :=
  let* vendor := vendor_findUnique userId in
  match vendor with
  | None => throw FORBIDDEN
  | Some v => if negb (Vendor.isApproved v) then throw FORBIDDEN else ret v
  end.

Definition createProduct (userId : string) (input : CreateProductInput.t) (id : string)
    : Db Product.t :=
  let* vendor := getVendorProfile userId in
  let* category := category_findUnique (CreateProductInput.categoryId input) in
  match category with
  | None => throw NOT_FOUND
  | Some _ =>
      product_create id
        (Product.mk (Vendor.id vendor)
                    (CreateProductInput.categoryId input)
                    (CreateProductInput.name input)
                    (CreateProductInput.description input)
                    (CreateProductInput.price input)
                    (CreateProductInput.stock input)
                    true)
  end.

(** [data: updateData]: every field that is given replaces the row's. *)
Definition apply_update (input : UpdateProductInput.t) (p : Product.t) : Product.t :=
  Product.mk (Product.vendorId p)
             (default (Product.categoryId p) (UpdateProductInput.categoryId input))
             (default (Product.name p) (UpdateProductInput.name input))
             (default (Product.description p) (UpdateProductInput.description input))
             (default (Product.price p) (UpdateProductInput.price input))
             (default (Product.stock p) (UpdateProductInput.stock input))
             (default (Product.isActive p) (UpdateProductInput.isActive input)).

(** [if (input.categoryId) { ... findUnique ... if (!category) throw }] *)
Definition check_category (categoryId : option string) : Db unit :=
  match categoryId with
  | Some c =>
      let* category := category_findUnique c in
      match category with
      | None => throw NOT_FOUND
      | Some _ => ret ()
      end
  | None => ret ()
  end.

Definition updateProduct (userId : string) (input : UpdateProductInput.t) : Db unit :=
  let* vendor := getVendorProfile userId in
  let* existingProduct := product_findUnique (UpdateProductInput.productId input) in
  match existingProduct with
  | None => throw NOT_FOUND
  | Some existingProduct =>
      if bool_decide (Product.vendorId existingProduct ≠ Vendor.id vendor)
      then throw FORBIDDEN
      else
        check_category (UpdateProductInput.categoryId input) >>
        product_update (UpdateProductInput.productId input) (apply_update input)
  end.

Definition soft_delete (p : Product.t) : Product.t :=
  Product.mk (Product.vendorId p) (Product.categoryId p) (Product.name p)
             (Product.description p) (Product.price p) (Product.stock p) false.

Definition deleteProduct (userId productId : string) : Db unit :=
  let* vendor := getVendorProfile userId in
  let* product := product_findUnique productId in
  match product with
  | None => throw NOT_FOUND
  | Some product =>
      if bool_decide (Product.vendorId product ≠ Vendor.id vendor) then throw FORBIDDEN
      else product_update productId soft_delete
  end.

End ProductRouter.

(** ** Sequences of operations

    The writes of the public interface.  The order router and the product
    router are the handlers above.  The handlers of the cart, vendor,
    category, review and admin routers write neither a product nor an order;
    [OtherRouters] covers all of them at once by letting the vendors,
    categories and cart tables change at will. *)
Inductive Op :=
| CreateOrder (userId shippingAddress : string)
| UpdateOrderStatus (userId : string) (orderId : nat) (status : StatusInput)
| CancelOrder (userId : string) (orderId : nat) (reason : option string)
| CreateProduct (userId : string) (input : CreateProductInput.t) (id : string)
| UpdateProduct (userId : string) (input : UpdateProductInput.t)
| DeleteProduct (userId productId : string)
| OtherRouters (vs : list Vendor.t) (cats : list string) (cart : list CartItem.t).

Definition step (op : Op) (st : State) : State :=
  match op with
  | CreateOrder u a => (createOrder u a st).2
  | UpdateOrderStatus u o s => (updateOrderStatus u o s st).2
  | CancelOrder u o r => (cancelOrder u o r st).2
  | CreateProduct u i id => (ProductRouter.createProduct u i id st).2
  | UpdateProduct u i => (ProductRouter.updateProduct u i st).2
  | DeleteProduct u p => (ProductRouter.deleteProduct u p st).2
  | OtherRouters vs cats cart => mkState (products st) vs cats cart (orders st)
  end.

Definition run (ops : list Op) (st : State) : State :=
  fold_left (λ s op, step op s) ops st.

(** ** Vocabulary of the properties *)

(** What [validateCartItems] rejects in a line. *)
Definition invalid_line (item : CartItemWithProduct.t) : Prop :=
  Product.isActive (CartItemWithProduct.product item) = false
  ∨ Vendor.isApproved (CartItemWithProduct.vendor item) = false
  ∨ (CartItemWithProduct.quantity item > Product.stock (CartItemWithProduct.product item))%Z.

Definition valid_line (item : CartItemWithProduct.t) : Prop :=
  Product.isActive (CartItemWithProduct.product item) = true
  ∧ Vendor.isApproved (CartItemWithProduct.vendor item) = true
  ∧ (CartItemWithProduct.quantity item ≤ Product.stock (CartItemWithProduct.product item))%Z.


(** The quantity that the pairs [(productId, quantity)] of [ds] hold for
    product [pid]. *)
Definition quantity_of (pid : string) (ds : list (string * Z)) : Z :=
  foldr (λ d acc, if bool_decide (d.1 = pid) then (d.2 + acc)%Z else acc) 0%Z ds.

Definition line_quantity (item : CartItemWithProduct.t) : string * Z :=
  (CartItemWithProduct.productId item, CartItemWithProduct.quantity item).

Definition item_quantity (item : OrderItem.t) : string * Z :=
  (OrderItem.productId item, OrderItem.quantity item).

(** Quantity of [pid] bought by the lines of a cart. *)
Definition purchased (pid : string) (lines : list CartItemWithProduct.t) : Z :=
  quantity_of pid (line_quantity <$> lines).

(** Quantity of [pid] held by the items of an order. *)
Definition ordered (pid : string) (items : list OrderItem.t) : Z :=
  quantity_of pid (item_quantity <$> items).

(** The products table after the row changes [f quantity] at the ids of
    [ds], one after the other. *)
Definition update_all (f : Z → Product.t → Product.t) (ds : list (string * Z))
    (ps : gmap string Product.t) : gmap string Product.t :=
  fold_left (λ acc d, alter (f d.2) d.1 acc) ds ps.

(** The order that [createOrder] writes for one vendor group. *)
Definition new_order (userId shippingAddress : string)
    (entry : string * list CartItemWithProduct.t) : Order.t :=
  Order.mk userId entry.1 shippingAddress (order_total entry.2) PENDING
           (order_item_of <$> entry.2).

(** Rows appended to a table of length [n], with their ids. *)
Fixpoint numbered {A} (n : nat) (rows : list A) : list (nat * A) :=
  match rows with
  | [] => []
  | r :: rest => (n, r) :: numbered (S n) rest
  end.

(** The sum of price times quantity over the items of an order, added up
    from the left as [reduce] does. *)
Definition items_total (items : list OrderItem.t) : float :=
  fold_left
    (λ sum item, (sum + OrderItem.price item * float_of_Z (OrderItem.quantity item))%float)
    items 0%float.

Definition line_vendorId (item : CartItemWithProduct.t) : string :=
  Product.vendorId (CartItemWithProduct.product item).

(** The lines of a cart that belong to vendor [v], in cart order. *)
Definition lines_of_vendor (v : string) (lines : list CartItemWithProduct.t)
    : list CartItemWithProduct.t :=
  filter (λ item, line_vendorId item = v) lines.

(** The store after a successful checkout of [lines] by [userId]. *)
Definition checkout_state (userId shippingAddress : string)
    (lines : list CartItemWithProduct.t) (st : State) : State :=
  let groups := groupCartItemsByVendor lines in
  mkState (update_all decrement (line_quantity <$> mjoin (groups.*2)) (products st))
          (vendors st) (categories st)
          (filter (λ ci, CartItem.userId ci ≠ userId) (cartItems st))
          (orders st ++ (new_order userId shippingAddress <$> groups)).

(** [groups] is the partition of [lines] by vendor: one entry per vendor of
    a line, holding that vendor's lines in cart order. *)
Definition groups_of (lines : list CartItemWithProduct.t) (groups : VendorGroups) : Prop :=
  NoDup (groups.*1)
  ∧ (∀ v, v ∈ groups.*1 ↔ ∃ item, item ∈ lines ∧ line_vendorId item = v)
  ∧ (∀ v its, (v, its) ∈ groups → its = lines_of_vendor v lines).

(** The unique index [userId_productId] of the cart table: a user has at
    most one line per product. *)
Definition cart_unique (st : State) : Prop :=
  NoDup ((λ ci, (CartItem.userId ci, CartItem.productId ci)) <$> cartItems st).

(** An order item is the snapshot of a cart line: same product and
    quantity, and the price its product has in the store [st]. *)
Definition snapshot_of (st : State) (oi : OrderItem.t) (line : CartItemWithProduct.t) : Prop :=
  OrderItem.productId oi = CartItemWithProduct.productId line
  ∧ OrderItem.quantity oi = CartItemWithProduct.quantity line
  ∧ Product.price <$> products st !! CartItemWithProduct.productId line
    = Some (OrderItem.price oi).

(** Every item of the order refers to a row of the products table (the
    foreign key of order items). *)
Definition products_exist (st : State) (items : list OrderItem.t) : Prop :=
  Forall (λ item, is_Some (products st !! OrderItem.productId item)) items.

(** The store after order [oid], read as [o], got status [s] with its
    stock given back. *)
Definition restocked_state (oid : nat) (s : OrderStatus) (o : Order.t) (st : State) : State :=
  mkState (update_all increment (item_quantity <$> Order.items o) (products st))
          (vendors st) (categories st) (cartItems st)
          (<[oid := Order.set_status s o]> (orders st)).

Definition terminal (s : OrderStatus) : Prop := s = DELIVERED ∨ s = CANCELLED.

(** How an order row may differ after an operation: only in its status,
    and a status changes only from a state that is not terminal, never to
    [PENDING]. *)
Definition order_evolves (o o' : Order.t) : Prop :=
  Order.userId o' = Order.userId o
  ∧ Order.vendorId o' = Order.vendorId o
  ∧ Order.shippingAddress o' = Order.shippingAddress o
  ∧ Order.total o' = Order.total o
  ∧ Order.items o' = Order.items o
  ∧ (Order.status o' = Order.status o
     ∨ (¬ terminal (Order.status o) ∧ Order.status o' ≠ PENDING)).

(** The caller is the vendor that owns the order. *)
Definition owning_vendor (st : State) (caller : string) (o : Order.t) : Prop :=
  ∃ vendor, vendor_by_userId (vendors st) caller = Some vendor
            ∧ Order.vendorId o = Vendor.id vendor.

#[global] Instance products_exist_dec st items : Decision (products_exist st items).
Proof. unfold products_exist. apply _. Defined.

(** What a write of the product router does to the rest of the store: the
    orders table is as before and no product row is gone. *)
Definition product_write (st st' : State) : Prop :=
  orders st' = orders st
  ∧ ∀ pid, is_Some (products st !! pid) → is_Some (products st' !! pid).

(** The foreign key of order items, over the whole orders table. *)
Definition order_items_fk (st : State) : Prop :=
  ∀ i o, orders st !! i = Some o → products_exist st (Order.items o).

(** ** A store to run the handlers on

    Two vendors with one product each, and the cart of one customer with a
    line for each product. *)
Module Scenario.

Definition P1 : Product.t := Product.mk "V1" "C1" "P1" "first product" 10 5 true.
Definition P2 : Product.t := Product.mk "V2" "C1" "P2" "second product" 5 1 true.
Definition V1 : Vendor.t := Vendor.mk "V1" "seller1" true.
Definition V2 : Vendor.t := Vendor.mk "V2" "seller2" true.

Definition cart : list CartItem.t :=
  [CartItem.mk "alice" "P1" 2; CartItem.mk "alice" "P2" 1].

Definition store : State :=
  mkState (<["P1" := P1]> (<["P2" := P2]> ∅)) [V1; V2] ["C1"] cart [].

(** The same store when [P2] is sold out. *)
Definition sold_out : State :=
  mkState (<["P1" := P1]> (<["P2" := Product.set_stock 0 P2]> ∅)) [V1; V2] ["C1"] cart [].

Definition address : string := "1 Main Street".

Definition lines : list CartItemWithProduct.t :=
  [CartItemWithProduct.mk "P1" 2 P1 V1; CartItemWithProduct.mk "P2" 1 P2 V2].

Definition sold_out_lines : list CartItemWithProduct.t :=
  [CartItemWithProduct.mk "P1" 2 P1 V1;
   CartItemWithProduct.mk "P2" 1 (Product.set_stock 0 P2) V2].

Definition order1 : Order.t :=
  Order.mk "alice" "V1" address 20 PENDING [OrderItem.mk "P1" 2 10].
Definition order2 : Order.t :=
  Order.mk "alice" "V2" address 5 PENDING [OrderItem.mk "P2" 1 5].

(** The store after alice's checkout. *)
Definition checked_out : State :=
  mkState (<["P1" := Product.set_stock 3 P1]> (<["P2" := Product.set_stock 0 P2]> ∅))
          [V1; V2] ["C1"] [] [order1; order2].

(** Then the first vendor ships, or delivers, its order. *)
Definition shipped : State :=
  with_orders [Order.set_status SHIPPED order1; order2] checked_out.
Definition delivered : State :=
  with_orders [Order.set_status DELIVERED order1; order2] checked_out.

(** Or alice cancels it. *)
Definition cancelled : State :=
  mkState (<["P1" := P1]> (<["P2" := Product.set_stock 0 P2]> ∅))
          [V1; V2] ["C1"] [] [Order.set_status CANCELLED order1; order2].

(** The first vendor changes the price of its product. *)
Definition reprice : UpdateProductInput.t :=
  UpdateProductInput.mk "P1" None None (Some 99%float) None None None.

End Scenario.

(** * The rest of the routers

    The handlers below are the cart router ([addToCart],
    [updateCartItemQuantity], [removeFromCart], [clearCart], [getCart],
    [validateCart]), the reads of the order router ([getMyOrders],
    [getOrderById], [getVendorOrders]) and of the product router
    ([getMyProducts], [getProduct]), and [createReview] and
    [canReviewProduct] of the review router.  The id of a cart row is
    generated by the storage layer; [updateCartItemQuantity] and
    [removeFromCart] address a row by its id, and the model identifies that
    id with the position the row has in the cart table when the call is
    made.  The [cartItemId] of a validation issue is left out. *)

(** ** The cart router *)

(** [prisma.product.findUnique({ where: { id }, include: { vendor: true } })] *)
Definition product_findUnique_vendor (pid : string) : Db (option (Product.t * Vendor.t)) :=
  λ st, match products st !! pid with
        | None => (Ok None, st)
        | Some p =>
            match vendor_by_id (vendors st) (Product.vendorId p) with
            | Some v => (Ok (Some (p, v)), st)
            | None => (Err INTERNAL_SERVER_ERROR, st)
            end
        end.

(** The key [userId_productId] of a cart row. *)
Definition is_line (uid pid : string) (ci : CartItem.t) : Prop :=
  CartItem.userId ci = uid ∧ CartItem.productId ci = pid.

#[global] Instance is_line_dec uid pid ci : Decision (is_line uid pid ci).
Proof. unfold is_line. apply _. Defined.

(** The row of the cart table with that key, and where it is. *)
Definition cart_row (cs : list CartItem.t) (uid pid : string) : option (nat * CartItem.t) :=
  list_find (is_line uid pid) cs.

(** [prisma.cartItem.findUnique({ where: { userId_productId } })] *)
Definition cartItem_findUnique (uid pid : string) : Db (option CartItem.t) :=
  λ st, (Ok (snd <$> cart_row (cartItems st) uid pid), st).

(** [prisma.cartItem.upsert({ where: { userId_productId }, update, create })] *)
Definition cartItem_upsert (uid pid : string) (update create : Z) : Db CartItem.t :=
  λ st, match cart_row (cartItems st) uid pid with
        | Some (i, _) =>
            (Ok (CartItem.mk uid pid update),
             with_cartItems (<[i := CartItem.mk uid pid update]> (cartItems st)) st)
        | None =>
            (Ok (CartItem.mk uid pid create),
             with_cartItems (cartItems st ++ [CartItem.mk uid pid create]) st)
        end.

(** [deleteMany] with the [count] of its result. *)
Definition cartItem_deleteMany_count (uid : string) : Db nat :=
  λ st, (Ok (length (cart_of uid (cartItems st))),
         with_cartItems (filter (λ ci, CartItem.userId ci ≠ uid) (cartItems st)) st).

(** [prisma.cartItem.findUnique({ where: { id }, include: { product: true } })] *)
Definition cartItem_findUnique_product (cartItemId : nat)
    : Db (option (CartItem.t * Product.t)) :=
  λ st, match cartItems st !! cartItemId with
        | None => (Ok None, st)
        | Some ci =>
            match products st !! CartItem.productId ci with
            | Some p => (Ok (Some (ci, p)), st)
            | None => (Err INTERNAL_SERVER_ERROR, st)
            end
        end.

(** [prisma.cartItem.findUnique({ where: { id } })] *)
Definition cartItem_findUnique_id (cartItemId : nat) : Db (option CartItem.t) :=
  λ st, (Ok (cartItems st !! cartItemId), st).

(** [prisma.cartItem.update({ where: { id }, data: { quantity } })] *)
Definition cartItem_update (cartItemId : nat) (quantity : Z) : Db CartItem.t :=
  λ st, match cartItems st !! cartItemId with
        | Some ci =>
            let row := CartItem.mk (CartItem.userId ci) (CartItem.productId ci) quantity in
            (Ok row, with_cartItems (<[cartItemId := row]> (cartItems st)) st)
        | None => (Err INTERNAL_SERVER_ERROR, st)
        end.

(** [prisma.cartItem.delete({ where: { id } })] *)
Definition cartItem_delete (cartItemId : nat) : Db unit :=
  λ st, match cartItems st !! cartItemId with
        | Some _ => (Ok (), with_cartItems (delete cartItemId (cartItems st)) st)
        | None => (Err INTERNAL_SERVER_ERROR, st)
        end.

(** What [validateCart] reports about a line; [OnlyAvailable stock quantity]
    is the message "Only [stock] items available (you have [quantity] in
    cart)". *)
Inductive IssueKind :=
| NoLongerAvailable
| VendorNotApproved
| OnlyAvailable (stock quantity : Z).

Module CartIssue.
Record t := mk { productName : string; issue : IssueKind }.
End CartIssue.

(** An entry of [getCart]'s [vendors]; the display names of the vendor are
    left out. *)
Module CartVendor.
Record t := mk {
  vendorId : string;
  items : list CartItemWithProduct.t;
  subtotal : float;
  itemCount : Z
}.
End CartVendor.

Module CartSummary.
Record t := mk { grandTotal : float; totalItems : Z; vendorCount : nat }.
End CartSummary.

Module CartRouter.

Definition addToCart (userId productId : string) (quantity : Z) : Db CartItem.t :=
  let* product := product_findUnique_vendor productId in
  match product with
  | None => throw NOT_FOUND
  | Some (product, vendor) =>
      if negb (Product.isActive product) then throw BAD_REQUEST
      else if negb (Vendor.isApproved vendor) then throw BAD_REQUEST
      else
        let* existingCartItem := cartItem_findUnique userId productId in
        let newQuantity :=
          match existingCartItem with
          | Some existing => (CartItem.quantity existing + quantity)%Z
          | None => quantity
          end in
        if (newQuantity >? Product.stock product)%Z then throw BAD_REQUEST
        else cartItem_upsert userId productId newQuantity quantity
  end.

Definition updateCartItemQuantity (userId : string) (cartItemId : nat) (quantity : Z)
    : Db CartItem.t :=
  let* cartItem := cartItem_findUnique_product cartItemId in
  match cartItem with
  | None => throw NOT_FOUND
  | Some (cartItem, product) =>
      if bool_decide (CartItem.userId cartItem ≠ userId) then throw FORBIDDEN
      else if (quantity >? Product.stock product)%Z then throw BAD_REQUEST
      else cartItem_update cartItemId quantity
  end.

Definition removeFromCart (userId : string) (cartItemId : nat) : Db unit :=
  let* cartItem := cartItem_findUnique_id cartItemId in
  match cartItem with
  | None => throw NOT_FOUND
  | Some cartItem =>
      if bool_decide (CartItem.userId cartItem ≠ userId) then throw FORBIDDEN
      else cartItem_delete cartItemId
  end.

(** Returns [itemsRemoved]. *)
Definition clearCart (userId : string) : Db nat :=
  cartItem_deleteMany_count userId.

(** The loop of [validateCart] over the cart: at most one issue per line,
    the first check that fails. *)
Fixpoint collect_issues (cartItems : list CartItemWithProduct.t) : list CartIssue.t :=
  match cartItems with
  | [] => []
  | item :: rest =>
      let product := CartItemWithProduct.product item in
      if negb (Product.isActive product)
      then CartIssue.mk (Product.name product) NoLongerAvailable :: collect_issues rest
      else if negb (Vendor.isApproved (CartItemWithProduct.vendor item))
      then CartIssue.mk (Product.name product) VendorNotApproved :: collect_issues rest
      else if (CartItemWithProduct.quantity item >? Product.stock product)%Z
      then CartIssue.mk (Product.name product)
             (OnlyAvailable (Product.stock product) (CartItemWithProduct.quantity item))
           :: collect_issues rest
      else collect_issues rest
  end.

(** Returns [(isValid, issues)]. *)
Definition validateCart (userId : string) : Db (bool * list CartIssue.t) :=
  let* cartItems := cartItem_findMany userId in
  let issues := collect_issues cartItems in
  ret ((length issues =? 0)%nat, issues).

(** [items.reduce((sum, item) => sum + item.quantity, 0)] *)
Definition item_count (items : list CartItemWithProduct.t) : Z :=
  fold_left (λ sum item, (sum + CartItemWithProduct.quantity item)%Z) items 0%Z.

Definition cart_vendor (entry : string * list CartItemWithProduct.t) : CartVendor.t :=
  let '(vendorId, items) := entry in
  CartVendor.mk vendorId items (order_total items) (item_count items).

(** The rows come [orderBy: { createdAt: "desc" }]; the cart table is kept
    in the order its rows were created, so that is the table reversed.  The
    grouping loop is the one of [groupCartItemsByVendor]. *)
Definition getCart (userId : string) : Db (list CartVendor.t * CartSummary.t) :=
  let* rows := cartItem_findMany userId in
  let cartItems := reverse rows in
  let vendorGroups := groupCartItemsByVendor cartItems in
  let vendors := cart_vendor <$> vendorGroups in
  let grandTotal :=
    fold_left (λ sum vendor, (sum + CartVendor.subtotal vendor)%float) vendors 0%float in
  let totalItems :=
    fold_left (λ sum vendor, (sum + CartVendor.itemCount vendor)%Z) vendors 0%Z in
  ret (vendors, CartSummary.mk grandTotal totalItems (length vendors)).

End CartRouter.

(** ** Vocabulary of the cart properties *)

(** The quantity [addToCart] asks the stock for: what the line holds
    already plus what is requested. *)
Definition requested_quantity (cs : list CartItem.t) (uid pid : string) (quantity : Z) : Z :=
  match cart_row cs uid pid with
  | Some (_, existing) => (CartItem.quantity existing + quantity)%Z
  | None => quantity
  end.

(** The sum of the quantities of cart lines. *)
Definition total_quantity (items : list CartItemWithProduct.t) : Z :=
  foldr (λ item acc, (CartItemWithProduct.quantity item + acc)%Z) 0%Z items.

#[global] Instance invalid_line_dec item : Decision (invalid_line item).
Proof. unfold invalid_line. apply _. Defined.

(** The issue [validateCart] reports for a line that [validateCartItems]
    rejects: the first of the three checks that fails. *)
Definition issue_of (item : CartItemWithProduct.t) : CartIssue.t :=
  let product := CartItemWithProduct.product item in
  CartIssue.mk (Product.name product)
    (if negb (Product.isActive product) then NoLongerAvailable
     else if negb (Vendor.isApproved (CartItemWithProduct.vendor item)) then VendorNotApproved
     else OnlyAvailable (Product.stock product) (CartItemWithProduct.quantity item)).

(** ** The reads of the order router *)

(** The input of [getMyOrders] and [getVendorOrders], after the defaults of
    its schema; [page] and [limit] are positive integers. *)
Module ListOrdersInput.
Record t := mk { status : option OrderStatus; page : positive; limit : positive }.
End ListOrdersInput.

Module Pagination.
Record t := mk { page : positive; limit : positive; totalCount : nat; totalPages : nat }.
End Pagination.

(** [Math.ceil(totalCount / limit)] for a count and a positive limit: the
    quotient of two integers of this size is rounded correctly, so this is
    the least integer that is not below it. *)
Definition ceil_div (totalCount : nat) (limit : positive) : nat :=
  if (totalCount mod Pos.to_nat limit =? 0)%nat
  then totalCount / Pos.to_nat limit
  else S (totalCount / Pos.to_nat limit).

(** [where: { <owner>: id, status? }] *)
Definition order_where (owner : Order.t → string) (id : string) (status : option OrderStatus)
    (o : Order.t) : Prop :=
  owner o = id ∧ match status with Some s => Order.status o = s | None => True end.

#[global] Instance order_where_dec owner id status o : Decision (order_where owner id status o).
Proof. unfold order_where. destruct status; apply _. Defined.

(** [prisma.order.findMany({ where, orderBy: { createdAt: "desc" }, skip,
    take })]: the orders table is in the order its rows were created, so
    newest first is the table reversed.  Rows come with their ids. *)
Definition order_findMany (P : Order.t → Prop) `{!∀ o, Decision (P o)} (skip count : nat)
    : Db (list (nat * Order.t)) :=
  λ st, (Ok (take count (drop skip (reverse (filter (λ r, P r.2) (numbered 0 (orders st)))))),
         st).

(** [prisma.order.count({ where })] *)
Definition order_count (P : Order.t → Prop) `{!∀ o, Decision (P o)} : Db nat :=
  λ st, (Ok (length (filter P (orders st))), st).

(** [const { status, page = 1, limit = 20 } = input || {}] *)
Definition list_orders_input (input : option ListOrdersInput.t) : ListOrdersInput.t :=
  default (ListOrdersInput.mk None 1 20) input.

Definition list_orders (owner : Order.t → string) (id : string) (input : ListOrdersInput.t)
    : Db (list (nat * Order.t) * Pagination.t) :=
  let page := ListOrdersInput.page input in
  let limit := ListOrdersInput.limit input in
  let where_ := order_where owner id (ListOrdersInput.status input) in
  let* orders := order_findMany where_ ((Pos.to_nat page - 1) * Pos.to_nat limit)
                                (Pos.to_nat limit) in
  let* totalCount := order_count where_ in
  ret (orders, Pagination.mk page limit totalCount (ceil_div totalCount limit)).

Definition getMyOrders (userId : string) (input : option ListOrdersInput.t)
    : Db (list (nat * Order.t) * Pagination.t) :=
  list_orders Order.userId userId (list_orders_input input).

Definition getVendorOrders (userId : string) (input : option ListOrdersInput.t)
    : Db (list (nat * Order.t) * Pagination.t) :=
  let* vendor := getVendorProfile userId in
  list_orders Order.vendorId (Vendor.id vendor) (list_orders_input input).

Definition getOrderById (userId : string) (orderId : nat) : Db Order.t :=
  let* order := order_findUnique orderId in
  match order with
  | None => throw NOT_FOUND
  | Some order =>
      let* vendor := vendor_findUnique userId in
      let isCustomer := bool_decide (Order.userId order = userId) in
      let isVendor :=
        match vendor with
        | Some vendor => bool_decide (Order.vendorId order = Vendor.id vendor)
        | None => false
        end in
      if negb (isCustomer || isVendor) then throw FORBIDDEN else ret order
  end.

(** ** Vocabulary of the listings *)

(** The orders of the store that a listing selects, newest first. *)
Definition selected_orders (st : State) (owner : Order.t → string) (id : string)
    (status : option OrderStatus) : list (nat * Order.t) :=
  reverse (filter (λ r, order_where owner id status r.2) (numbered 0 (orders st))).

(** The orders that a listing returned; none when it failed. *)
Definition listed (r : Result (list (nat * Order.t) * Pagination.t) * State)
    : list (nat * Order.t) :=
  match r.1 with
  | Ok (os, _) => os
  | Err _ => []
  end.

(** The pages [1 .. n] of a listing, one after the other. *)
Definition pages_upto (n : nat) (page : positive → list (nat * Order.t))
    : list (nat * Order.t) :=
  mjoin ((λ k, page (Pos.of_nat k)) <$> seq 1 n).

(** ** The order pages of the web client

    What the pages of an order compute from the order they have fetched
    with [getOrderById]: the vendor's page shows its status selector when
    [canUpdateStatus] holds, the customer's page its cancellation notice
    when [canCancel] holds. *)



(** ** The reads of the product router *)

(** [prisma.product.findMany({ where })], the rows with their ids.  The
    model keeps no creation time of a product, so the rows come in the order
    of the table's keys and not by [createdAt]. *)
Definition product_findMany (P : Product.t → Prop) `{!∀ p, Decision (P p)}
    : Db (list (string * Product.t)) :=
  λ st, (Ok (map_to_list (filter (λ row, P row.2) (products st))), st).

Definition getMyProducts (userId : string) : Db (list (string * Product.t)) :=
  let* vendor := ProductRouter.getVendorProfile userId in
  product_findMany (λ p, Product.vendorId p = Vendor.id vendor).

(** The reviews of the product and their average are left out. *)
Definition getProduct (productId : string) : Db Product.t :=
  let* product := product_findUnique productId in
  match product with
  | None => throw NOT_FOUND
  | Some product =>
      if negb (Product.isActive product) then throw NOT_FOUND else ret product
  end.

(** ** Vocabulary of the product properties *)

(** The vendor profile that the product router accepts for a caller: the
    caller's profile when it is approved. *)
Definition approved_vendor (st : State) (userId : string) : option Vendor.t :=
  match vendor_by_userId (vendors st) userId with
  | Some vendor => if Vendor.isApproved vendor then Some vendor else None
  | None => None
  end.

(** The category that an update names is not in the store. *)
Definition category_missing (st : State) (categoryId : option string) : Prop :=
  match categoryId with
  | Some c => c ∉ categories st
  | None => False
  end.

#[global] Instance category_missing_dec st c : Decision (category_missing st c).
Proof. unfold category_missing. destruct c; apply _. Defined.

(** The caller owns the product: it is a product of the caller's approved
    vendor profile. *)
Definition owns_product (st : State) (userId : string) (p : Product.t) : Prop :=
  ∃ vendor, approved_vendor st userId = Some vendor ∧ Product.vendorId p = Vendor.id vendor.

(** Two stores differ at most in their products table. *)
Definition same_but_products (st st' : State) : Prop :=
  vendors st' = vendors st ∧ categories st' = categories st
  ∧ cartItems st' = cartItems st ∧ orders st' = orders st.

(** The writes of the product router among the operations. *)
Definition product_router_op (op : Op) : Prop :=
  match op with
  | CreateProduct _ _ _ | UpdateProduct _ _ | DeleteProduct _ _ => True
  | _ => False
  end.

(** Two versions of a product row that differ at most in [stock]. *)
Definition only_stock (p p' : Product.t) : Prop :=
  p' = Product.set_stock (Product.stock p') p.

(** Every order is an order of one vendor: each of its items is a product
    of the vendor the order was placed with. *)
Definition orders_single_vendor (st : State) : Prop :=
  ∀ i o, orders st !! i = Some o →
    Forall (λ item, ∃ p, products st !! OrderItem.productId item = Some p
                         ∧ Product.vendorId p = Order.vendorId o)
           (Order.items o).

(** ** Vocabulary of the cart writes *)

(** The key [userId_productId] of a cart row. *)
Definition cart_key (ci : CartItem.t) : string * string :=
  (CartItem.userId ci, CartItem.productId ci).

(** A cart table as the cart router keeps it: at most one line per user
    and product, and every quantity at least one. *)
Definition cart_ok (cs : list CartItem.t) : Prop :=
  NoDup (cart_key <$> cs) ∧ Forall (λ ci, (0 < CartItem.quantity ci)%Z) cs.

(** What a write of the cart router by [userId] may change: nothing but the
    cart lines of [userId]. *)
Definition cart_write (userId : string) (st st' : State) : Prop :=
  products st' = products st ∧ vendors st' = vendors st
  ∧ categories st' = categories st ∧ orders st' = orders st
  ∧ ∀ other, other ≠ userId → cart_of other (cartItems st') = cart_of other (cartItems st).

(** ** Vocabulary of the stock invariant *)

(** A store as the routers keep it: no stock below zero, a well-formed
    cart table, and every order item with a quantity of at least one. *)
Definition store_ok (st : State) : Prop :=
  (∀ pid p, products st !! pid = Some p → (0 ≤ Product.stock p)%Z)
  ∧ cart_ok (cartItems st)
  ∧ ∀ i o, orders st !! i = Some o →
      Forall (λ item, (0 < OrderItem.quantity item)%Z) (Order.items o).

(** An operation whose input passes its schema: the [stock] of
    [createProduct] and [updateProduct] is [min(0)], and the other routers
    leave a well-formed cart table. *)
Definition valid_op (op : Op) : Prop :=
  match op with
  | CreateProduct _ input _ => (0 ≤ CreateProductInput.stock input)%Z
  | UpdateProduct _ input =>
      match UpdateProductInput.stock input with
      | Some stock => (0 ≤ stock)%Z
      | None => True
      end
  | OtherRouters _ _ cart => cart_ok cart
  | _ => True
  end.

(** ** The review router

    The reviews table is written by the review router only and no other
    router reads it, so it is kept beside the store: a handler of the
    review router takes the store and the reviews table and returns its
    result and the reviews table it leaves.  A thrown [ORPCError] is
    [inl code]. *)

Module Review.
Record t := mk { userId : string; productId : string; rating : Z; comment : option string }.
End Review.

(** [where: { productId, order: { userId, status: "DELIVERED" } }] on the
    items of an order. *)
Definition delivered_purchase (userId productId : string) (o : Order.t) : Prop :=
  Order.userId o = userId ∧ Order.status o = DELIVERED
  ∧ productId ∈ OrderItem.productId <$> Order.items o.

#[global] Instance delivered_purchase_dec userId productId o :
  Decision (delivered_purchase userId productId o).
Proof. unfold delivered_purchase. apply _. Defined.

(** [prisma.orderItem.findFirst({ where })]: the order of the item that is
    found, with its id. *)
Definition orderItem_findFirst (userId productId : string) (st : State)
    : option (nat * Order.t) :=
  list_find (delivered_purchase userId productId) (orders st).

(** The key [userId_productId] of a review. *)
Definition is_review (userId productId : string) (r : Review.t) : Prop :=
  Review.userId r = userId ∧ Review.productId r = productId.

#[global] Instance is_review_dec userId productId r : Decision (is_review userId productId r).
Proof. unfold is_review. apply _. Defined.

(** [prisma.review.findUnique({ where: { userId_productId } })] *)
Definition review_findUnique (userId productId : string) (reviews : list Review.t)
    : option Review.t :=
  snd <$> list_find (is_review userId productId) reviews.

Module ReviewRouter.

Inductive Code := NOT_FOUND | CONFLICT | FORBIDDEN.

Definition createReview (userId productId : string) (rating : Z) (comment : option string)
    (st : State) (reviews : list Review.t) : (Code + Review.t) * list Review.t :=
  match products st !! productId with
  | None => (inl NOT_FOUND, reviews)
  | Some _ =>
      match review_findUnique userId productId reviews with
      | Some _ => (inl CONFLICT, reviews)
      | None =>
          match orderItem_findFirst userId productId st with
          | None => (inl FORBIDDEN, reviews)
          | Some _ =>
              let review := Review.mk userId productId rating comment in
              (inr review, reviews ++ [review])
          end
      end
  end.

(** Returns [canReview]; the reason, the existing review and the purchase
    date are left out. *)
Definition canReviewProduct (userId productId : string)
    (st : State) (reviews : list Review.t) : bool :=
  match review_findUnique userId productId reviews with
  | Some _ => false
  | None =>
      match orderItem_findFirst userId productId st with
      | None => false
      | Some _ => true
      end
  end.

End ReviewRouter.

(** ** Vocabulary of the review properties *)

(** The user has received the product: an order of the user that holds it
    is [DELIVERED]. *)
Definition has_purchased (st : State) (userId productId : string) : Prop :=
  ∃ i o, orders st !! i = Some o ∧ delivered_purchase userId productId o.

(** The unique index [userId_productId] of the reviews table. *)
Definition reviews_unique (reviews : list Review.t) : Prop :=
  NoDup ((λ r, (Review.userId r, Review.productId r)) <$> reviews).

(** ** More of the scenario

    What the handlers of the other routers are run on: the cart as
    [getCart] shows it, a new product of the first vendor, and a day of
    operations on the store. *)
Module Tour.

Definition cart_view : list CartVendor.t * CartSummary.t :=
  ([CartVendor.mk "V2" [CartItemWithProduct.mk "P2" 1 Scenario.P2 Scenario.V2] 5 1;
    CartVendor.mk "V1" [CartItemWithProduct.mk "P1" 2 Scenario.P1 Scenario.V1] 20 2],
   CartSummary.mk 25 3 2).

Definition new_product : CreateProductInput.t :=
  CreateProductInput.mk "P3" "third product" 7 4 "C1".

Definition P3 : Product.t := Product.mk "V1" "C1" "P3" "third product" 7 4 true.

(** Alice checks out and cancels her first order; the first vendor changes
    a price. *)
Definition day : list Op :=
  [CreateOrder "alice" Scenario.address; CancelOrder "alice" 0 None;
   UpdateProduct "seller1" Scenario.reprice].

End Tour.
(** * Properties *)

(** ** Validation of the cart *)

Lemma validateCartItems_invalid items :
  Exists invalid_line items → validateCartItems items = Err BAD_REQUEST.
Proof.
  induction 1 as [item rest Hbad | item rest _ IH]; simpl.
  - destruct Hbad as [-> | [-> | Hq]]; simpl; [done | by destruct (Product.isActive _) |].
    destruct (Product.isActive _), (Vendor.isApproved _); simpl; try done.
    by rewrite (proj2 (Z.gtb_gt _ _)) by lia.
  - rewrite IH. by repeat case_match.
Qed.

Lemma validateCartItems_valid items :
  Forall valid_line items → validateCartItems items = Ok ().
Proof.
  induction 1 as [| item rest (Ha & Hv & Hq) _ IH]; simpl; [done |].
  rewrite Ha, Hv; simpl.
  destruct (Z.gtb_spec (CartItemWithProduct.quantity item)
              (Product.stock (CartItemWithProduct.product item))); [lia | done].
Qed.

Lemma validateCartItems_Ok_inv items :
  validateCartItems items = Ok () → Forall valid_line items.
Proof.
  induction items as [| item rest IH]; simpl; [constructor |].
  destruct (Product.isActive _) eqn:Ha; simpl; [| done].
  destruct (Vendor.isApproved _) eqn:Hv; simpl; [| done].
  destruct (Z.gtb_spec (CartItemWithProduct.quantity item)
              (Product.stock (CartItemWithProduct.product item))); [done |].
  intros Hrest. constructor; [repeat split; (done || lia) | auto].
Qed.

Lemma cartItem_findMany_lines st uid items :
  cart_lines st uid = Some items → cartItem_findMany uid st = (Ok items, st).
Proof. unfold cartItem_findMany. by intros ->. Qed.

(** C1. [createOrder] fails with [BAD_REQUEST] and leaves the whole store as
    it was (no order or order item created, no stock changed, no cart line
    deleted) whenever the caller's cart is empty or one of its lines refers to
    an inactive product, to a product of an unapproved vendor, or asks for
    more than the product's stock.  The body of the transaction itself already
    leaves the store untouched: every line is validated before the first
    write, so one invalid line aborts the whole checkout. *)
Theorem createOrder_rejects_invalid_cart st userId shippingAddress items :
  cart_lines st userId = Some items →
  items = [] ∨ Exists invalid_line items →
  createOrder_body userId shippingAddress st = (Err BAD_REQUEST, st)
  ∧ createOrder userId shippingAddress st = (Err BAD_REQUEST, st).
Proof.
  intros Hlines Hbad.
  assert (createOrder_body userId shippingAddress st = (Err BAD_REQUEST, st)) as Hbody.
  { unfold createOrder_body, bind. rewrite (cartItem_findMany_lines _ _ _ Hlines).
    destruct Hbad as [-> | Hbad]; [done |].
    destruct (length items =? 0)%nat; [done |].
    unfold lift. by rewrite (validateCartItems_invalid _ Hbad). }
  split; [done |]. unfold createOrder, transaction. by rewrite Hbody.
Qed.

(** ** Stock updates *)

Lemma set_stock_stock s p : Product.stock (Product.set_stock s p) = s.
Proof. done. Qed.

Lemma set_stock_set_stock s s' p :
  Product.set_stock s (Product.set_stock s' p) = Product.set_stock s p.
Proof. done. Qed.

Lemma set_stock_same s p : s = Product.stock p → Product.set_stock s p = p.
Proof. intros ->. by destruct p. Qed.

Lemma insert_alter_lookup (f : Product.t → Product.t) (ps : gmap string Product.t) k p :
  ps !! k = Some p → <[k := f p]> ps = alter f k ps.
Proof.
  intros Hk. apply map_eq. intros j. rewrite lookup_insert, lookup_alter.
  repeat case_decide; subst; try done. by rewrite Hk.
Qed.

#[global] Instance quantity_of_Permutation pid : Proper ((≡ₚ) ==> (=)) (quantity_of pid).
Proof.
  intros ds1 ds2 Hperm.
  induction Hperm as [| d ds1 ds2 _ IH | d d' ds | ds1 ds2 ds3 _ IH1 _ IH2]; simpl.
  - done.
  - by rewrite IH.
  - repeat case_bool_decide; lia.
  - congruence.
Qed.

Lemma quantity_of_absent pid ds : pid ∉ ds.*1 → quantity_of pid ds = 0%Z.
Proof.
  induction ds as [| d ds IH]; simpl; [done |].
  rewrite not_elem_of_cons. intros [Hne Hnot]. rewrite bool_decide_eq_false_2 by done. auto.
Qed.

Lemma update_all_app f ds1 ds2 ps :
  update_all f (ds1 ++ ds2) ps = update_all f ds2 (update_all f ds1 ps).
Proof. apply fold_left_app. Qed.

(** The row of [pid] after [update_all], for the two changes of the code. *)
Lemma update_all_lookup sgn f ds ps pid :
  (∀ n p, f n p = Product.set_stock (Product.stock p + sgn * n) p) →
  update_all f ds ps !! pid
  = (λ p, Product.set_stock (Product.stock p + sgn * quantity_of pid ds) p) <$> ps !! pid.
Proof.
  intros Hf. revert ps. induction ds as [| [k n] ds IH]; intros ps; simpl.
  - destruct (ps !! pid) as [p |]; simpl; [| done].
    f_equal. symmetry. apply set_stock_same; lia.
  - unfold update_all in *. simpl. rewrite IH, lookup_alter.
    case_decide as Hk; case_bool_decide; try done; subst.
    destruct (ps !! pid) as [p |]; simpl; [| done].
    rewrite Hf, set_stock_stock, set_stock_set_stock. do 2 f_equal; lia.
Qed.

Lemma update_all_decrement ds ps pid :
  update_all decrement ds ps !! pid
  = (λ p, Product.set_stock (Product.stock p - quantity_of pid ds) p) <$> ps !! pid.
Proof.
  rewrite (update_all_lookup (-1) decrement).
  - destruct (ps !! pid); simpl; [| done]. do 2 f_equal; lia.
  - intros n p. unfold decrement. f_equal; lia.
Qed.

Lemma update_all_increment ds ps pid :
  update_all increment ds ps !! pid
  = (λ p, Product.set_stock (Product.stock p + quantity_of pid ds) p) <$> ps !! pid.
Proof.
  rewrite (update_all_lookup 1 increment).
  - destruct (ps !! pid); simpl; [| done]. do 2 f_equal; lia.
  - intros n p. unfold increment. f_equal; lia.
Qed.

Lemma update_all_is_Some f ds ps pid :
  is_Some (update_all f ds ps !! pid) ↔ is_Some (ps !! pid).
Proof.
  revert ps. induction ds as [| d ds IH]; intros ps; [done |].
  unfold update_all in *. simpl. rewrite IH, lookup_alter.
  case_decide; [| done]. subst. by rewrite fmap_is_Some.
Qed.

(** The loop of updates writes exactly [update_all] when every row it names
    is in the table; it fails, and has written only rows of the products
    table, when one is not. *)
Lemma for_each_product_update {A} (key : A → string) (qty : A → Z) f (xs : list A) st :
  (∀ x, x ∈ xs → is_Some (products st !! key x)) →
  for_each xs (λ x, product_update (key x) (f (qty x))) st
  = (Ok (), with_products (update_all f ((λ x, (key x, qty x)) <$> xs) (products st)) st).
Proof.
  revert st. induction xs as [| x xs IH]; intros st Hin.
  - by destruct st.
  - simpl. unfold bind at 1. unfold product_update at 1.
    destruct (Hin x) as [p Hp]; [left |]. rewrite Hp.
    rewrite IH.
    + simpl. unfold with_products; simpl. do 2 f_equal.
      unfold update_all. simpl. by rewrite (insert_alter_lookup _ _ _ _ Hp).
    + intros y Hy. simpl. rewrite (insert_alter_lookup _ _ _ _ Hp), lookup_alter.
      case_decide; [rewrite Hp; by eexists | apply Hin; by right].
Qed.

(** ** Grouping by vendor *)

Lemma group_push_lines v x (g : VendorGroups) :
  mjoin ((group_push v x g).*2) ≡ₚ mjoin (g.*2) ++ [x].
Proof.
  induction g as [| [k its] rest IH]; simpl; [done |].
  case_bool_decide; simpl.
  - by rewrite <- !(assoc_L (++)), (comm (++) [x]).
  - by rewrite IH, (assoc_L (++)).
Qed.

Lemma fold_group_push_lines items (g : VendorGroups) :
  mjoin ((fold_left (λ acc item, group_push (line_vendorId item) item acc) items g).*2)
  ≡ₚ mjoin (g.*2) ++ items.
Proof.
  revert g. induction items as [| x items IH]; intros g; simpl.
  - by rewrite (right_id_L [] (++)).
  - by rewrite IH, group_push_lines, <- (assoc_L (++)).
Qed.

Lemma groupCartItemsByVendor_lines items :
  mjoin ((groupCartItemsByVendor items).*2) ≡ₚ items.
Proof. apply (fold_group_push_lines items []). Qed.

Lemma group_push_keys v x (g : VendorGroups) :
  (group_push v x g).*1 = if decide (v ∈ g.*1) then g.*1 else g.*1 ++ [v].
Proof.
  induction g as [| [k its] rest IH]; csimpl.
  - done.
  - case_bool_decide as Hk; csimpl.
    + subst. rewrite decide_True; [done | left].
    + rewrite IH. destruct (decide (v ∈ rest.*1)) as [Hin | Hnot].
      * rewrite decide_True; [done | by right].
      * rewrite decide_False; [done |]. intros [? | ?]%elem_of_cons; congruence.
Qed.

Lemma group_push_entry v x (g : VendorGroups) v' its' :
  NoDup (g.*1) →
  (v', its') ∈ group_push v x g →
  (v' ≠ v ∧ (v', its') ∈ g)
  ∨ (v' = v ∧ (∃ its, (v, its) ∈ g ∧ its' = its ++ [x]))
  ∨ (v' = v ∧ (v ∉ g.*1) ∧ its' = [x]).
Proof.
  induction g as [| [k its] rest IH]; csimpl.
  - intros _ Hin. apply list_elem_of_singleton in Hin. injection Hin as -> ->.
    right; right. split_and!; [done | apply not_elem_of_nil | done].
  - rewrite NoDup_cons. intros [Hk Hnd]. case_bool_decide as Hkv.
    + subst k. intros Hin. apply elem_of_cons in Hin as [[= -> ->] | Hin].
      * right; left. split; [done |]. exists its. split; [left | done].
      * left. split; [| by right]. intros ->. apply Hk.
        apply list_elem_of_fmap. by exists (v, its').
    + intros Hin. apply elem_of_cons in Hin as [[= -> ->] | Hin].
      * left. split; [done | left].
      * destruct (IH Hnd Hin) as [[? ?] | [(-> & l & ? & ->) | (-> & ? & ->)]].
        -- left. split; [done | by right].
        -- right; left. split; [done |]. exists l. split; [by right | done].
        -- right; right. split_and!; [done | | done].
           rewrite not_elem_of_cons. split; [congruence | done].
Qed.

Lemma lines_of_vendor_snoc_same x l :
  lines_of_vendor (line_vendorId x) (l ++ [x]) = lines_of_vendor (line_vendorId x) l ++ [x].
Proof.
  unfold lines_of_vendor. rewrite filter_app. f_equal.
  by rewrite filter_cons_True by done.
Qed.

Lemma lines_of_vendor_snoc_other v x l :
  line_vendorId x ≠ v → lines_of_vendor v (l ++ [x]) = lines_of_vendor v l.
Proof.
  intros Hne. unfold lines_of_vendor.
  by rewrite filter_app, filter_cons_False, filter_nil, (right_id_L [] (++)) by done.
Qed.

Lemma lines_of_vendor_none v l :
  (∀ item, item ∈ l → line_vendorId item ≠ v) → lines_of_vendor v l = [].
Proof.
  intros Hnone. induction l as [| y l IH]; [done |]. unfold lines_of_vendor in *.
  rewrite filter_cons_False by (apply Hnone; left).
  apply IH. intros item Hin. apply Hnone. by right.
Qed.

Lemma groups_of_push l g x :
  groups_of l g → groups_of (l ++ [x]) (group_push (line_vendorId x) x g).
Proof.
  intros (Hnd & Hkeys & Hlines). split_and!.
  - rewrite group_push_keys. case_decide as Hin; [done |].
    apply NoDup_app. split_and!; [done | | apply NoDup_singleton].
    intros v Hv ->%list_elem_of_singleton. done.
  - intros v. rewrite group_push_keys. setoid_rewrite elem_of_app.
    setoid_rewrite list_elem_of_singleton. split.
    + case_decide as Hin.
      * intros (item & ? & ?)%Hkeys. exists item. auto.
      * rewrite elem_of_app, list_elem_of_singleton.
        intros [(item & ? & ?)%Hkeys | ->]; [exists item; auto | exists x; auto].
    + intros (item & [Hitem | ->] & Hv).
      * assert (v ∈ g.*1) by (apply Hkeys; eauto).
        case_decide; [done | apply elem_of_app; by left].
      * subst v. case_decide; [done | apply elem_of_app; right; by left].
  - intros v its Hin.
    destruct (group_push_entry _ _ _ _ _ Hnd Hin)
      as [[Hne Hg] | [(-> & l0 & Hg & ->) | (-> & Hnot & ->)]].
    + rewrite lines_of_vendor_snoc_other by done. by apply Hlines.
    + rewrite lines_of_vendor_snoc_same. f_equal. by apply Hlines.
    + rewrite lines_of_vendor_snoc_same, lines_of_vendor_none; [done |].
      intros item Hitem Hv. apply Hnot, Hkeys. eauto.
Qed.

Lemma groups_of_fold l0 g l :
  groups_of l0 g →
  groups_of (l0 ++ l)
            (fold_left (λ acc item, group_push (line_vendorId item) item acc) l g).
Proof.
  revert l0 g. induction l as [| x l IH]; intros l0 g Hg; simpl.
  - by rewrite (right_id_L [] (++)).
  - rewrite (cons_middle x l0 l), (assoc_L (++)). by apply IH, groups_of_push.
Qed.

Lemma groupCartItemsByVendor_groups_of items :
  groups_of items (groupCartItemsByVendor items).
Proof.
  apply (groups_of_fold [] [] items). split_and!.
  - constructor.
  - intros v. split; [by intros ?%elem_of_nil | by intros (? & ?%elem_of_nil & _)].
  - by intros v its ?%elem_of_nil.
Qed.

(** ** The checkout, step by step *)

Lemma cart_lines_product st uid items item :
  cart_lines st uid = Some items → item ∈ items →
  products st !! CartItemWithProduct.productId item = Some (CartItemWithProduct.product item)
  ∧ vendor_by_id (vendors st) (line_vendorId item) = Some (CartItemWithProduct.vendor item).
Proof.
  intros Hlines%mapM_Some_1 [i Hi]%list_elem_of_lookup.
  destruct (Forall2_lookup_r _ _ _ _ _ Hlines Hi) as (ci & _ & Hjoin).
  unfold include_product in Hjoin.
  destruct (products st !! CartItem.productId ci) as [p |] eqn:Hp; [| done].
  destruct (vendor_by_id (vendors st) (Product.vendorId p)) as [v |] eqn:Hv; [| done].
  injection Hjoin as <-. done.
Qed.

Lemma cart_lines_quantities st uid items :
  cart_lines st uid = Some items →
  line_quantity <$> items
  = (λ ci, (CartItem.productId ci, CartItem.quantity ci)) <$> cart_of uid (cartItems st).
Proof.
  unfold cart_lines. generalize (cart_of uid (cartItems st)). intros cs. revert items.
  induction cs as [| ci cs IH]; intros items Hlines%mapM_Some_1.
  - by inversion Hlines.
  - inversion Hlines as [| ? item ? rest Hjoin Hrest]; subst. csimpl.
    rewrite (IH rest) by by apply mapM_Some_2. f_equal.
    unfold include_product in Hjoin. repeat case_match; try done. by injection Hjoin as <-.
Qed.

Lemma create_vendor_order_ok uid addr v its st :
  (∀ item, item ∈ its → is_Some (products st !! CartItemWithProduct.productId item)) →
  create_vendor_order uid addr (v, its) st
  = (Ok (length (orders st), new_order uid addr (v, its)),
     mkState (update_all decrement (line_quantity <$> its) (products st))
             (vendors st) (categories st) (cartItems st)
             (orders st ++ [new_order uid addr (v, its)])).
Proof.
  intros Hin. unfold create_vendor_order, bind at 1, order_create.
  unfold bind. rewrite for_each_product_update by done. done.
Qed.

Lemma create_vendor_orders_ok uid addr groups created st :
  (∀ item, item ∈ mjoin (groups.*2) →
           is_Some (products st !! CartItemWithProduct.productId item)) →
  create_vendor_orders uid addr groups created st
  = (Ok (created ++ numbered (length (orders st)) (new_order uid addr <$> groups)),
     mkState (update_all decrement (line_quantity <$> mjoin (groups.*2)) (products st))
             (vendors st) (categories st) (cartItems st)
             (orders st ++ (new_order uid addr <$> groups))).
Proof.
  revert created st. induction groups as [| [v its] rest IH]; intros created st Hin.
  - csimpl. rewrite !(right_id_L [] (++)). by destruct st.
  - csimpl in Hin.
    assert (create_vendor_orders uid addr ((v, its) :: rest) created st
            = match create_vendor_order uid addr (v, its) st with
              | (Ok o, st1) => create_vendor_orders uid addr rest (created ++ [o]) st1
              | (Err e, st1) => (Err e, st1)
              end) as -> by done.
    rewrite create_vendor_order_ok by (intros; apply Hin, elem_of_app; by left).
    rewrite IH; csimpl.
    + rewrite length_app, Nat.add_1_r, <- !(assoc_L (++)), fmap_app, update_all_app. done.
    + intros item Hitem. apply update_all_is_Some, Hin, elem_of_app. by right.
Qed.

(** A checkout of a non-empty cart of valid lines succeeds, and what it
    returns and writes is the following. *)
Lemma createOrder_body_ok st uid addr items :
  cart_lines st uid = Some items → items ≠ [] → Forall valid_line items →
  createOrder_body uid addr st
  = (Ok (numbered (length (orders st))
                  (new_order uid addr <$> groupCartItemsByVendor items)),
     checkout_state uid addr items st).
Proof.
  intros Hlines Hne Hvalid. unfold createOrder_body, bind at 1.
  rewrite (cartItem_findMany_lines _ _ _ Hlines).
  destruct items as [| item0 rest]; [done |].
  change (length (item0 :: rest) =? 0)%nat with false. cbv iota.
  unfold bind at 1, lift. rewrite (validateCartItems_valid _ Hvalid).
  unfold bind at 1. rewrite create_vendor_orders_ok.
  - done.
  - intros item Hitem. rewrite groupCartItemsByVendor_lines in Hitem.
    destruct (cart_lines_product _ _ _ _ Hlines Hitem) as [-> _]. by eexists.
Qed.

Lemma createOrder_ok st uid addr items :
  cart_lines st uid = Some items → items ≠ [] → Forall valid_line items →
  createOrder uid addr st
  = (Ok (numbered (length (orders st))
                  (new_order uid addr <$> groupCartItemsByVendor items)),
     checkout_state uid addr items st).
Proof.
  intros. unfold createOrder, transaction. by rewrite (createOrder_body_ok _ _ _ items).
Qed.

(** Conversely, a checkout that succeeds started from such a cart. *)
Lemma createOrder_Ok_inv st uid addr created st' :
  createOrder uid addr st = (Ok created, st') →
  ∃ items, cart_lines st uid = Some items ∧ items ≠ [] ∧ Forall valid_line items.
Proof.
  unfold createOrder, transaction.
  destruct (createOrder_body uid addr st) as [[os | e] st1] eqn:Hbody; [| done].
  intros _. unfold createOrder_body, bind at 1, cartItem_findMany in Hbody.
  destruct (cart_lines st uid) as [items |]; [| done].
  exists items. split; [done |].
  destruct items as [| item0 rest]; [done |]. split; [done |].
  change (length (item0 :: rest) =? 0)%nat with false in Hbody. cbv iota in Hbody.
  unfold bind at 1, lift in Hbody.
  destruct (validateCartItems (item0 :: rest)) as [[] | e] eqn:Hv; [| done].
  by apply validateCartItems_Ok_inv.
Qed.

(** ** Stock conservation *)

Lemma quantity_of_NoDup k n ds :
  NoDup (ds.*1) → (k, n) ∈ ds → quantity_of k ds = n.
Proof.
  induction ds as [| [k' n'] ds IH]; csimpl; [by intros _ ?%elem_of_nil |].
  rewrite NoDup_cons. intros [Hk Hnd] [[= -> ->] | Hin]%elem_of_cons.
  - rewrite bool_decide_eq_true_2 by done. rewrite quantity_of_absent by done. lia.
  - rewrite bool_decide_eq_false_2; [by apply IH |].
    intros ->. apply Hk, list_elem_of_fmap. by exists (k, n).
Qed.

Lemma cart_unique_lines st uid items :
  cart_unique st → cart_lines st uid = Some items →
  NoDup (CartItemWithProduct.productId <$> items).
Proof.
  intros Huniq Hlines.
  assert (CartItemWithProduct.productId <$> items
          = CartItem.productId <$> cart_of uid (cartItems st)) as ->.
  { apply cart_lines_quantities in Hlines.
    apply (f_equal (fmap fst)) in Hlines. by rewrite <- !list_fmap_compose in Hlines. }
  unfold cart_unique, cart_of in *. induction (cartItems st) as [| c cs IH]; [constructor |].
  rewrite fmap_cons, NoDup_cons in Huniq. destruct Huniq as [Hc Hnd].
  destruct (decide (CartItem.userId c = uid)) as [Hu | Hu].
  - rewrite filter_cons_True by done. rewrite fmap_cons. apply NoDup_cons. split; [| auto].
    intros (c' & Hpid & [Hu' Hc']%list_elem_of_filter)%list_elem_of_fmap.
    apply Hc, list_elem_of_fmap. exists c'. split; [| done]. congruence.
  - rewrite filter_cons_False by done. auto.
Qed.

Lemma checkout_state_products uid addr items st pid :
  products (checkout_state uid addr items st) !! pid
  = (λ p, Product.set_stock (Product.stock p - purchased pid items) p) <$> products st !! pid.
Proof.
  unfold checkout_state; simpl. rewrite update_all_decrement.
  assert (quantity_of pid (line_quantity <$> mjoin (groupCartItemsByVendor items).*2)
          = purchased pid items) as ->; [| done].
  unfold purchased. by rewrite groupCartItemsByVendor_lines.
Qed.

(** C2. After a successful [createOrder], every product of a cart line has
    the stock it had before minus the quantity bought of it, and no stock
    has become negative: each line asked for at most the stock of its
    product, and the cart holds one line per product (its unique index).
    Products outside the cart keep their row. *)
Theorem createOrder_stock_conservation st userId shippingAddress created st' items :
  createOrder userId shippingAddress st = (Ok created, st') →
  cart_lines st userId = Some items →
  (∀ item, item ∈ items →
     ∃ p p',
       products st !! CartItemWithProduct.productId item = Some p
       ∧ products st' !! CartItemWithProduct.productId item = Some p'
       ∧ Product.stock p'
         = (Product.stock p - purchased (CartItemWithProduct.productId item) items)%Z
       ∧ (cart_unique st →
          Product.stock p' = (Product.stock p - CartItemWithProduct.quantity item)%Z
          ∧ (0 ≤ Product.stock p')%Z))
  ∧ (∀ pid, pid ∉ CartItemWithProduct.productId <$> items →
            products st' !! pid = products st !! pid).
Proof.
  intros Hok Hlines.
  destruct (createOrder_Ok_inv _ _ _ _ _ Hok) as (items' & Hlines' & Hne & Hvalid).
  assert (items' = items) as -> by congruence.
  rewrite (createOrder_ok _ _ _ _ Hlines Hne Hvalid) in Hok. injection Hok as _ <-.
  split.
  - intros item Hitem.
    destruct (cart_lines_product _ _ _ _ Hlines Hitem) as [Hp _].
    exists (CartItemWithProduct.product item). eexists. split; [done |].
    rewrite checkout_state_products, Hp. split; [done |]. split; [done |].
    intros Huniq. simpl.
    assert (purchased (CartItemWithProduct.productId item) items
            = CartItemWithProduct.quantity item) as ->.
    { apply quantity_of_NoDup.
      - rewrite <- list_fmap_compose. by apply (cart_unique_lines st userId).
      - apply list_elem_of_fmap. by exists item. }
    split; [done |]. rewrite Forall_forall in Hvalid.
    destruct (Hvalid item Hitem) as (_ & _ & Hq). lia.
  - intros pid Hpid. rewrite checkout_state_products.
    unfold purchased. rewrite quantity_of_absent by by rewrite <- list_fmap_compose.
    destruct (products st !! pid) as [p |]; simpl; [| done].
    f_equal. apply set_stock_same. lia.
Qed.

(** ** One order per vendor *)

Lemma numbered_snd {A} n (rows : list A) : (numbered n rows).*2 = rows.
Proof. revert n. induction rows as [| r rows IH]; intros n; csimpl; [done |]. by rewrite IH. Qed.

Lemma numbered_elem {A} n (rows : list A) i r :
  (i, r) ∈ numbered n rows → ∃ j, i = n + j ∧ rows !! j = Some r.
Proof.
  revert n. induction rows as [| r0 rows IH]; intros n; simpl; [by intros ?%elem_of_nil |].
  intros [[= -> ->] | Hin]%elem_of_cons.
  - exists 0. split; [lia | done].
  - destruct (IH _ Hin) as (j & -> & Hj). exists (S j). split; [lia | done].
Qed.

Lemma order_total_items its : order_total its = items_total (order_item_of <$> its).
Proof.
  unfold order_total, items_total. generalize 0%float.
  induction its as [| item its IH]; intros acc; csimpl; [done |]. apply IH.
Qed.

Lemma new_order_vendorIds uid addr (groups : VendorGroups) :
  Order.vendorId <$> (new_order uid addr <$> groups) = groups.*1.
Proof. rewrite <- list_fmap_compose. by apply list_fmap_ext. Qed.

(** An order that a checkout returns: where it is in the table and which
    group of lines it was made from. *)
Lemma created_order_inv uid addr items (os : list Order.t) i o :
  (i, o) ∈ numbered (length os) (new_order uid addr <$> groupCartItemsByVendor items) →
  ∃ v its,
    o = new_order uid addr (v, its)
    ∧ its = lines_of_vendor v items
    ∧ os !! i = None
    ∧ (os ++ (new_order uid addr <$> groupCartItemsByVendor items)) !! i = Some o.
Proof.
  intros (j & -> & Hj)%numbered_elem.
  pose proof Hj as Hj'.
  apply list_lookup_fmap_Some in Hj as ([v its] & -> & Hj).
  destruct (groupCartItemsByVendor_groups_of items) as (_ & _ & Hgroups).
  exists v, its. split_and!.
  - done.
  - eapply Hgroups, list_elem_of_lookup_2, Hj.
  - apply lookup_ge_None. lia.
  - rewrite lookup_app_r by lia.
    by replace (length os + j - length os) with j by lia.
Qed.

(** C3. For a non-empty cart of valid lines, [createOrder] succeeds and
    appends exactly one order per distinct vendor of the cart.  Each order is
    [PENDING], belongs to the caller, holds one item per cart line of its
    vendor with that line's product and quantity and the price the product has
    in the store at that moment, and its total is the sum over its own items
    of price times quantity. *)
Theorem createOrder_one_order_per_vendor st userId shippingAddress items :
  cart_lines st userId = Some items → items ≠ [] → Forall valid_line items →
  ∃ created st',
    createOrder userId shippingAddress st = (Ok created, st')
    ∧ orders st' = orders st ++ created.*2
    ∧ Order.vendorId <$> created.*2 ≡ₚ remove_dups (line_vendorId <$> items)
    ∧ ∀ i o, (i, o) ∈ created →
        orders st !! i = None
        ∧ orders st' !! i = Some o
        ∧ Order.userId o = userId
        ∧ Order.status o = PENDING
        ∧ Forall2 (snapshot_of st) (Order.items o) (lines_of_vendor (Order.vendorId o) items)
        ∧ Order.total o = items_total (Order.items o).
Proof.
  intros Hlines Hne Hvalid. eexists _, _.
  split; [by apply createOrder_ok |].
  destruct (groupCartItemsByVendor_groups_of items) as (Hnd & Hkeys & _).
  rewrite numbered_snd. split; [done |]. split.
  - rewrite new_order_vendorIds. apply NoDup_Permutation; [done | apply NoDup_remove_dups |].
    intros v. rewrite elem_of_remove_dups, Hkeys, list_elem_of_fmap.
    split; intros (item & ? & ?); by exists item.
  - intros i o (v & its & -> & Hits & Hnew & Hi)%created_order_inv.
    split_and!; [done | done | done | done | | apply order_total_items].
    simpl. rewrite <- Hits. apply Forall2_fmap_l, Forall_Forall2_diag, Forall_forall.
    intros line Hline. repeat split.
    assert (line ∈ items) as Hin.
    { rewrite Hits in Hline. by apply list_elem_of_filter in Hline as [_ ?]. }
    destruct (cart_lines_product _ _ _ _ Hlines Hin) as [-> _]. done.
Qed.

(** ** Giving stock back *)

Lemma for_each_product_update_missing {A} (key : A → string) g (xs : list A) st :
  Exists (λ x, products st !! key x = None) xs →
  ∃ st', for_each xs (λ x, product_update (key x) (g x)) st = (Err INTERNAL_SERVER_ERROR, st').
Proof.
  revert st. induction xs as [| x xs IH]; intros st Hmiss; [by apply Exists_nil in Hmiss |].
  simpl. unfold bind at 1. unfold product_update at 1.
  destruct (products st !! key x) as [p |] eqn:Hp; [| by eexists].
  apply Exists_cons in Hmiss as [Hx | Hmiss]; [congruence |].
  apply IH. eapply Exists_impl; [exact Hmiss |]. simpl. intros y Hy.
  rewrite lookup_insert_ne; [done |]. intros Hk. rewrite Hk in Hp. congruence.
Qed.

(** The transaction of a cancellation, in full. *)
Lemma restock_transaction st oid s items :
  transaction (restore_stock items >> order_update_status oid s) st
  = match orders st !! oid with
    | Some o =>
        if decide (products_exist st items)
        then (Ok (Order.set_status s o),
              mkState (update_all increment (item_quantity <$> items) (products st))
                      (vendors st) (categories st) (cartItems st)
                      (<[oid := Order.set_status s o]> (orders st)))
        else (Err INTERNAL_SERVER_ERROR, st)
    | None => (Err INTERNAL_SERVER_ERROR, st)
    end.
Proof.
  unfold transaction, bind, restore_stock.
  destruct (decide (products_exist st items)) as [Hex | Hmiss].
  - rewrite (for_each_product_update OrderItem.productId OrderItem.quantity increment)
      by by apply Forall_forall.
    unfold order_update_status; simpl. by destruct (orders st !! oid).
  - apply not_Forall_Exists in Hmiss; [| apply _].
    destruct (for_each_product_update_missing OrderItem.productId
                (λ item, increment (OrderItem.quantity item)) items st) as [st' ->].
    + eapply Exists_impl; [exact Hmiss |]. simpl. intros item Hnone.
      by apply eq_None_not_Some.
    + by destruct (orders st !! oid).
Qed.

Lemma restocked_state_products oid s o st pid :
  products (restocked_state oid s o st) !! pid
  = (λ p, Product.set_stock (Product.stock p + ordered pid (Order.items o)) p)
      <$> products st !! pid.
Proof. unfold restocked_state; simpl. by rewrite update_all_increment. Qed.

(** [updateOrderStatus] and [cancelOrder], case by case. *)
Lemma updateOrderStatus_cases userId orderId status st :
  updateOrderStatus userId orderId status st
  = match vendor_by_userId (vendors st) userId with
    | None => (Err FORBIDDEN, st)
    | Some vendor =>
        match orders st !! orderId with
        | None => (Err NOT_FOUND, st)
        | Some o =>
            if decide (Order.vendorId o ≠ Vendor.id vendor) then (Err FORBIDDEN, st)
            else if decide (terminal (Order.status o)) then (Err BAD_REQUEST, st)
            else if decide (status = ToCANCELLED) then
              if decide (products_exist st (Order.items o))
              then (Ok (Order.set_status CANCELLED o), restocked_state orderId CANCELLED o st)
              else (Err INTERNAL_SERVER_ERROR, st)
            else (Ok (Order.set_status (status_of_input status) o),
                  with_orders (<[orderId := Order.set_status (status_of_input status) o]>
                                 (orders st)) st)
        end
    end.
Proof.
  unfold updateOrderStatus, bind at 1, getVendorProfile, bind at 1, vendor_findUnique.
  destruct (vendor_by_userId (vendors st) userId) as [vendor |]; [| done].
  unfold ret, bind at 1, order_findUnique.
  destruct (orders st !! orderId) as [o |] eqn:Ho; [| done].
  destruct (decide (Order.vendorId o ≠ Vendor.id vendor));
    [by rewrite bool_decide_eq_true_2 | rewrite bool_decide_eq_false_2 by done].
  destruct (decide (terminal (Order.status o))) as [[Ht | Ht] | Ht].
  - rewrite Ht. done.
  - rewrite Ht. done.
  - rewrite !(bool_decide_eq_false_2 (Order.status o = _)) by (intros ?; apply Ht; red; auto).
    destruct (decide (status = ToCANCELLED)) as [-> | Hs].
    + rewrite bool_decide_eq_true_2 by done. rewrite restock_transaction, Ho. done.
    + rewrite bool_decide_eq_false_2 by done. unfold order_update_status. by rewrite Ho.
Qed.

Lemma cancelOrder_cases userId orderId reason st :
  cancelOrder userId orderId reason st
  = match orders st !! orderId with
    | None => (Err NOT_FOUND, st)
    | Some o =>
        if decide (Order.userId o ≠ userId) then (Err FORBIDDEN, st)
        else if decide (Order.status o = PENDING ∨ Order.status o = CONFIRMED) then
          if decide (products_exist st (Order.items o))
          then (Ok (Order.set_status CANCELLED o), restocked_state orderId CANCELLED o st)
          else (Err INTERNAL_SERVER_ERROR, st)
        else (Err BAD_REQUEST, st)
    end.
Proof.
  unfold cancelOrder, bind at 1, order_findUnique.
  destruct (orders st !! orderId) as [o |] eqn:Ho; [| done].
  destruct (decide (Order.userId o ≠ userId));
    [by rewrite bool_decide_eq_true_2 | rewrite bool_decide_eq_false_2 by done].
  destruct (decide (Order.status o = PENDING ∨ Order.status o = CONFIRMED)) as [Hs | Hs].
  - assert (bool_decide (Order.status o ≠ PENDING) && bool_decide (Order.status o ≠ CONFIRMED)
            = false) as ->.
    { destruct Hs as [-> | ->]; by vm_compute. }
    rewrite restock_transaction, Ho. done.
  - rewrite !bool_decide_eq_true_2; [done | intros ?; apply Hs; auto ..].
Qed.

(** ** What an operation may do to an order *)

Lemma order_evolves_refl o : order_evolves o o.
Proof. unfold order_evolves. auto 10. Qed.

Lemma order_evolves_trans o1 o2 o3 :
  order_evolves o1 o2 → order_evolves o2 o3 → order_evolves o1 o3.
Proof.
  intros (Hu & Hv & Ha & Ht & Hi & Hs) (Hu' & Hv' & Ha' & Ht' & Hi' & Hs').
  unfold order_evolves. split_and!; try congruence.
  destruct Hs as [Hs | [Hs1 Hs2]], Hs' as [Hs' | [Hs1' Hs2']].
  - left. congruence.
  - right. by rewrite <- Hs.
  - right. by rewrite Hs'.
  - by right.
Qed.

Lemma order_evolves_set_status s o :
  ¬ terminal (Order.status o) → s ≠ PENDING → order_evolves o (Order.set_status s o).
Proof. intros. unfold order_evolves; simpl. split_and!; auto. Qed.

Lemma status_of_input_not_PENDING s : status_of_input s ≠ PENDING.
Proof. by destruct s. Qed.

(** A status written at row [oid] of the orders table. *)
Lemma orders_insert_evolves (os : list Order.t) oid s o i oi :
  os !! oid = Some o → ¬ terminal (Order.status o) → s ≠ PENDING →
  os !! i = Some oi →
  ∃ oi', <[oid := Order.set_status s o]> os !! i = Some oi' ∧ order_evolves oi oi'.
Proof.
  intros Ho Ht Hs Hi. destruct (decide (oid = i)) as [-> | Hne].
  - exists (Order.set_status s o). split.
    + apply list_lookup_insert_eq. by eapply lookup_lt_Some.
    + assert (oi = o) as -> by congruence. by apply order_evolves_set_status.
  - exists oi. split; [by rewrite list_lookup_insert_ne | apply order_evolves_refl].
Qed.

Lemma updateOrderStatus_evolves userId orderId status st i oi :
  orders st !! i = Some oi →
  ∃ oi', orders (updateOrderStatus userId orderId status st).2 !! i = Some oi'
         ∧ order_evolves oi oi'.
Proof.
  intros Hi. rewrite updateOrderStatus_cases.
  assert (∃ oi', orders st !! i = Some oi' ∧ order_evolves oi oi') as Hsame
    by (exists oi; split; [done | apply order_evolves_refl]).
  destruct (vendor_by_userId _ _); [| done].
  destruct (orders st !! orderId) as [o |] eqn:Ho; [| done].
  repeat case_decide; try done; simpl.
  - by apply orders_insert_evolves.
  - apply orders_insert_evolves; [done .. | apply status_of_input_not_PENDING | done].
Qed.

Lemma cancelOrder_evolves userId orderId reason st i oi :
  orders st !! i = Some oi →
  ∃ oi', orders (cancelOrder userId orderId reason st).2 !! i = Some oi'
         ∧ order_evolves oi oi'.
Proof.
  intros Hi. rewrite cancelOrder_cases.
  assert (∃ oi', orders st !! i = Some oi' ∧ order_evolves oi oi') as Hsame
    by (exists oi; split; [done | apply order_evolves_refl]).
  destruct (orders st !! orderId) as [o |] eqn:Ho; [| done].
  repeat case_decide; try done; simpl.
  apply orders_insert_evolves; [done | | done | done].
  intros [Ht | Ht]; intuition congruence.
Qed.

Lemma createOrder_state userId shippingAddress st :
  (createOrder userId shippingAddress st).2 = st
  ∨ ∃ items, cart_lines st userId = Some items
             ∧ (createOrder userId shippingAddress st).2
               = checkout_state userId shippingAddress items st.
Proof.
  destruct (createOrder userId shippingAddress st) as [[created | e] st'] eqn:Hco.
  - right. destruct (createOrder_Ok_inv _ _ _ _ _ Hco) as (items & Hl & Hne & Hv).
    exists items. split; [done |].
    rewrite (createOrder_ok _ _ _ _ Hl Hne Hv) in Hco. by injection Hco as _ <-.
  - left. unfold createOrder, transaction in Hco.
    destruct (createOrder_body userId shippingAddress st) as [[? | ?] ?]; [done |].
    by injection Hco as _ <-.
Qed.

Lemma createOrder_evolves userId shippingAddress st i oi :
  orders st !! i = Some oi →
  orders (createOrder userId shippingAddress st).2 !! i = Some oi.
Proof.
  intros Hi.
  destruct (createOrder_state userId shippingAddress st) as [-> | (items & _ & ->)];
    [done |]. simpl. by apply lookup_app_l_Some.
Qed.

Lemma product_write_refl st : product_write st st.
Proof. by split. Qed.

Lemma product_update_write pid f st : product_write st (product_update pid f st).2.
Proof.
  unfold product_update. destruct (products st !! pid) as [p |] eqn:Hp;
    [| apply product_write_refl].
  split; [done |]. simpl. intros k Hk. rewrite lookup_insert. by case_decide.
Qed.

Lemma product_create_write id p st : product_write st (product_create id p st).2.
Proof.
  unfold product_create. destruct (products st !! id) as [q |] eqn:Hq;
    [apply product_write_refl |].
  split; [done |]. simpl. intros k Hk. rewrite lookup_insert. by case_decide.
Qed.

Lemma createProduct_write userId input id st :
  product_write st (ProductRouter.createProduct userId input id st).2.
Proof.
  unfold ProductRouter.createProduct, bind at 1, ProductRouter.getVendorProfile, bind at 1,
    vendor_findUnique, throw, ret.
  destruct (vendor_by_userId _ _) as [v |]; [| apply product_write_refl].
  destruct (Vendor.isApproved v); simpl; [| apply product_write_refl].
  unfold bind, category_findUnique.
  case_bool_decide; [apply product_create_write | apply product_write_refl].
Qed.

Lemma updateProduct_write userId input st :
  product_write st (ProductRouter.updateProduct userId input st).2.
Proof.
  unfold ProductRouter.updateProduct, bind at 1, ProductRouter.getVendorProfile, bind at 1,
    vendor_findUnique, throw, ret.
  destruct (vendor_by_userId _ _) as [v |]; [| apply product_write_refl].
  destruct (Vendor.isApproved v); simpl; [| apply product_write_refl].
  unfold bind at 1, product_findUnique.
  destruct (products st !! _) as [p |]; [| apply product_write_refl].
  case_bool_decide; [apply product_write_refl |].
  unfold bind at 1, ProductRouter.check_category.
  destruct (UpdateProductInput.categoryId input) as [c |].
  - unfold bind, category_findUnique, throw, ret.
    case_bool_decide; [apply product_update_write | apply product_write_refl].
  - apply product_update_write.
Qed.

Lemma deleteProduct_write userId productId st :
  product_write st (ProductRouter.deleteProduct userId productId st).2.
Proof.
  unfold ProductRouter.deleteProduct, bind at 1, ProductRouter.getVendorProfile, bind at 1,
    vendor_findUnique, throw, ret.
  destruct (vendor_by_userId _ _) as [v |]; [| apply product_write_refl].
  destruct (Vendor.isApproved v); simpl; [| apply product_write_refl].
  unfold bind at 1, product_findUnique.
  destruct (products st !! _) as [p |]; [| apply product_write_refl].
  case_bool_decide; [apply product_write_refl | apply product_update_write].
Qed.

Lemma createProduct_orders userId input id st :
  orders (ProductRouter.createProduct userId input id st).2 = orders st.
Proof. apply createProduct_write. Qed.

Lemma updateProduct_orders userId input st :
  orders (ProductRouter.updateProduct userId input st).2 = orders st.
Proof. apply updateProduct_write. Qed.

Lemma deleteProduct_orders userId productId st :
  orders (ProductRouter.deleteProduct userId productId st).2 = orders st.
Proof. apply deleteProduct_write. Qed.

Lemma step_evolves op st i oi :
  orders st !! i = Some oi →
  ∃ oi', orders (step op st) !! i = Some oi' ∧ order_evolves oi oi'.
Proof.
  intros Hi. destruct op; simpl.
  - exists oi. split; [by apply createOrder_evolves | apply order_evolves_refl].
  - by apply updateOrderStatus_evolves.
  - by apply cancelOrder_evolves.
  - rewrite createProduct_orders. exists oi. split; [done | apply order_evolves_refl].
  - rewrite updateProduct_orders. exists oi. split; [done | apply order_evolves_refl].
  - rewrite deleteProduct_orders. exists oi. split; [done | apply order_evolves_refl].
  - exists oi. split; [done | apply order_evolves_refl].
Qed.

(** Over any sequence of operations an order keeps its row, its items and
    its total; only its status moves, under the rules of [order_evolves]. *)
Lemma run_evolves ops st i oi :
  orders st !! i = Some oi →
  ∃ oi', orders (run ops st) !! i = Some oi' ∧ order_evolves oi oi'.
Proof.
  revert st oi. induction ops as [| op ops IH]; intros st oi Hi; simpl.
  - exists oi. split; [done | apply order_evolves_refl].
  - destruct (step_evolves op st i oi Hi) as (o1 & H1 & He1).
    destruct (IH _ _ H1) as (o2 & H2 & He2).
    exists o2. split; [done | by eapply order_evolves_trans].
Qed.

(** ** Terminal states *)

Lemma terminal_updateOrderStatus st orderId o caller status :
  orders st !! orderId = Some o → terminal (Order.status o) →
  ∃ e, updateOrderStatus caller orderId status st = (Err e, st)
       ∧ (owning_vendor st caller o → e = BAD_REQUEST)
       ∧ (¬ owning_vendor st caller o → e = FORBIDDEN).
Proof.
  intros Ho Ht. rewrite updateOrderStatus_cases, Ho. unfold owning_vendor.
  destruct (vendor_by_userId (vendors st) caller) as [vendor |].
  - destruct (decide (Order.vendorId o ≠ Vendor.id vendor)) as [Hne | Heq].
    + exists FORBIDDEN. split_and!; [done | | done]. intros (v & [= <-] & ?). done.
    + rewrite decide_True by done. exists BAD_REQUEST. split_and!; [done | done |].
      intros Hnot. destruct Hnot. exists vendor. split; [done |].
      by destruct (decide (Order.vendorId o = Vendor.id vendor)).
  - exists FORBIDDEN. split_and!; [done | | done]. by intros (v & ? & _).
Qed.

Lemma terminal_cancelOrder st orderId o caller reason :
  orders st !! orderId = Some o → terminal (Order.status o) →
  ∃ e, cancelOrder caller orderId reason st = (Err e, st)
       ∧ (Order.userId o = caller → e = BAD_REQUEST)
       ∧ (Order.userId o ≠ caller → e = FORBIDDEN).
Proof.
  intros Ho Ht. rewrite cancelOrder_cases, Ho.
  destruct (decide (Order.userId o ≠ caller)) as [Hne | Heq].
  - exists FORBIDDEN. split_and!; [done | done | done].
  - rewrite decide_False; [exists BAD_REQUEST; split_and!; done |].
    destruct Ht as [Ht | Ht]; rewrite Ht; intros [? | ?]; done.
Qed.

(** ** Cancellation *)

Lemma cancellation_state st caller orderId reason o r st' :
  orders st !! orderId = Some o →
  updateOrderStatus caller orderId ToCANCELLED st = (Ok r, st')
  ∨ cancelOrder caller orderId reason st = (Ok r, st') →
  r = Order.set_status CANCELLED o ∧ st' = restocked_state orderId CANCELLED o st.
Proof.
  intros Ho [Hup | Hcancel].
  - rewrite updateOrderStatus_cases, Ho in Hup.
    destruct (vendor_by_userId _ _); [| done].
    repeat case_decide; try done. by injection Hup as <- <-.
  - rewrite cancelOrder_cases, Ho in Hcancel.
    repeat case_decide; try done. by injection Hcancel as <- <-.
Qed.

Lemma ordered_order_item_of pid its :
  ordered pid (order_item_of <$> its) = purchased pid its.
Proof. unfold ordered, purchased. by rewrite <- list_fmap_compose. Qed.

Lemma purchased_lines_of_vendor pid v items :
  (∀ line, line ∈ items → CartItemWithProduct.productId line = pid → line_vendorId line = v) →
  purchased pid (lines_of_vendor v items) = purchased pid items.
Proof.
  unfold purchased, lines_of_vendor. induction items as [| line items IH]; intros Hv; [done |].
  destruct (decide (line_vendorId line = v)) as [Hl | Hl].
  - rewrite filter_cons_True by done. csimpl. rewrite IH; [done |].
    intros. apply Hv; [by right | done].
  - rewrite filter_cons_False by done. csimpl. rewrite bool_decide_eq_false_2.
    + apply IH. intros. apply Hv; [by right | done].
    + intros Hpid. apply Hl, Hv; [by left | done].
Qed.

(** After a checkout the customer can cancel each of the orders it made. *)
Lemma cancelOrder_after_checkout st buyer shippingAddress created st1 i o reason :
  createOrder buyer shippingAddress st = (Ok created, st1) → (i, o) ∈ created →
  cancelOrder buyer i reason st1
  = (Ok (Order.set_status CANCELLED o), restocked_state i CANCELLED o st1).
Proof.
  intros Hco Hin.
  destruct (createOrder_Ok_inv _ _ _ _ _ Hco) as (items & Hl & Hne & Hv).
  rewrite (createOrder_ok _ _ _ _ Hl Hne Hv) in Hco. injection Hco as <- <-.
  apply created_order_inv in Hin as (v & its & -> & Hits & _ & Ho).
  rewrite cancelOrder_cases. simpl. rewrite Ho. simpl.
  rewrite decide_False by (intros ?; done).
  rewrite decide_True; [done |].
  unfold products_exist. rewrite Forall_fmap. apply Forall_forall.
  intros line Hline. simpl.
  apply update_all_is_Some.
  rewrite Hits in Hline. apply list_elem_of_filter in Hline as [_ Hline].
  destruct (cart_lines_product _ _ _ _ Hl Hline) as [-> _]. by eexists.
Qed.

(** C4. A transition to [CANCELLED], by the vendor's [updateOrderStatus] or
    by the customer's [cancelOrder], writes the status and gives back the
    quantity of every item of the order to its product, once, in one step of
    the store.  Afterwards the order is terminal, so no second call can give
    the stock back again.  When the order has just been created by a
    checkout, its customer can cancel it, and the products of the order are
    then back at the stock they had before that checkout. *)
Theorem cancellation_restores_stock st caller orderId reason o r st' :
  orders st !! orderId = Some o →
  updateOrderStatus caller orderId ToCANCELLED st = (Ok r, st')
  ∨ cancelOrder caller orderId reason st = (Ok r, st') →
  r = Order.set_status CANCELLED o
  ∧ orders st' = <[orderId := Order.set_status CANCELLED o]> (orders st)
  ∧ (∀ pid, products st' !! pid
            = (λ p, Product.set_stock (Product.stock p + ordered pid (Order.items o)) p)
                <$> products st !! pid)
  ∧ (∀ caller' status, ∃ e, updateOrderStatus caller' orderId status st' = (Err e, st'))
  ∧ (∀ caller' reason', ∃ e, cancelOrder caller' orderId reason' st' = (Err e, st'))
  ∧ (∀ st0 buyer shippingAddress created,
       createOrder buyer shippingAddress st0 = (Ok created, st) →
       (orderId, o) ∈ created →
       (∀ reason', cancelOrder buyer orderId reason' st = (Ok r, st'))
       ∧ (∀ pid, pid ∈ OrderItem.productId <$> Order.items o →
                 products st' !! pid = products st0 !! pid)).
Proof.
  intros Ho Hcancel.
  destruct (cancellation_state _ _ _ _ _ _ _ Ho Hcancel) as [-> ->].
  assert (orders (restocked_state orderId CANCELLED o st) !! orderId
          = Some (Order.set_status CANCELLED o)) as Ho'.
  { simpl. apply list_lookup_insert_eq. by eapply lookup_lt_Some. }
  split_and!; [done | done | apply restocked_state_products | | |].
  - intros caller' status.
    destruct (terminal_updateOrderStatus _ _ _ caller' status Ho') as (e & ? & _);
      [by right | by exists e].
  - intros caller' reason'.
    destruct (terminal_cancelOrder _ _ _ caller' reason' Ho') as (e & ? & _);
      [by right | by exists e].
  - intros st0 buyer addr created Hco Hin.
    split; [intros; by eapply cancelOrder_after_checkout |]. intros pid Hpid.
    destruct (createOrder_Ok_inv _ _ _ _ _ Hco) as (items & Hl & Hne & Hv).
    rewrite (createOrder_ok _ _ _ _ Hl Hne Hv) in Hco. injection Hco as <- <-.
    apply numbered_elem in Hin as (j & _ & Hj).
    apply list_lookup_fmap_Some in Hj as ([v its] & -> & Hj).
    destruct (groupCartItemsByVendor_groups_of items) as (_ & _ & Hgroups).
    assert (its = lines_of_vendor v items) as Hits
      by (eapply Hgroups, list_elem_of_lookup_2, Hj).
    simpl in Hpid. rewrite <- list_fmap_compose in Hpid.
    apply list_elem_of_fmap in Hpid as (line & -> & Hline).
    change ((OrderItem.productId ∘ order_item_of) line)
      with (CartItemWithProduct.productId line).
    rewrite Hits in Hline. apply list_elem_of_filter in Hline as [Hvendor Hline].
    destruct (cart_lines_product _ _ _ _ Hl Hline) as [Hp _].
    rewrite restocked_state_products, checkout_state_products, Hp. simpl.
    rewrite ordered_order_item_of, Hits, purchased_lines_of_vendor.
    + f_equal. rewrite set_stock_set_stock. apply set_stock_same. lia.
    + intros line' Hline' Hpid'.
      destruct (cart_lines_product _ _ _ _ Hl Hline') as [Hp' _].
      rewrite Hpid', Hp in Hp'. injection Hp' as Hp'.
      unfold line_vendorId in *. by rewrite <- Hp'.
Qed.

(** C5, as the code has it.  An order that is [DELIVERED] or [CANCELLED]
    rejects every [updateOrderStatus] call whatever the requested status, with
    [BAD_REQUEST] when the caller is the vendor that owns the order and with
    [FORBIDDEN] for any other caller (the caller is checked before the
    status); it rejects every [cancelOrder] call, with [BAD_REQUEST] for its
    customer and [FORBIDDEN] for anyone else; each rejected call leaves the
    store as it was, and no sequence of operations changes the status of such
    an order. *)
Theorem terminal_orders_stay_terminal st orderId o :
  orders st !! orderId = Some o → terminal (Order.status o) →
  (∀ caller status,
     ∃ e, updateOrderStatus caller orderId status st = (Err e, st)
          ∧ (owning_vendor st caller o → e = BAD_REQUEST)
          ∧ (¬ owning_vendor st caller o → e = FORBIDDEN))
  ∧ (∀ caller reason,
       ∃ e, cancelOrder caller orderId reason st = (Err e, st)
            ∧ (Order.userId o = caller → e = BAD_REQUEST)
            ∧ (Order.userId o ≠ caller → e = FORBIDDEN))
  ∧ (∀ ops, ∃ o', orders (run ops st) !! orderId = Some o'
                  ∧ Order.status o' = Order.status o).
Proof.
  intros Ho Ht. split_and!.
  - intros. by apply terminal_updateOrderStatus.
  - intros. by apply terminal_cancelOrder.
  - intros ops. destruct (run_evolves ops st orderId o Ho) as (o' & Ho' & He).
    exists o'. split; [done |]. destruct He as (_ & _ & _ & _ & _ & [Hs | [Hnt _]]); done.
Qed.

(** ** The status machine of [updateOrderStatus] *)

Lemma updateOrderStatus_owner st caller vendor orderId o status :
  vendor_by_userId (vendors st) caller = Some vendor →
  orders st !! orderId = Some o →
  Order.vendorId o = Vendor.id vendor →
  ¬ terminal (Order.status o) →
  products_exist st (Order.items o) →
  ∃ st', updateOrderStatus caller orderId status st
         = (Ok (Order.set_status (status_of_input status) o), st')
         ∧ orders st' !! orderId = Some (Order.set_status (status_of_input status) o).
Proof.
  intros Hv Ho Hown Ht Hex. rewrite updateOrderStatus_cases, Hv, Ho.
  rewrite decide_False by (intros ?; done). rewrite decide_False by done.
  assert (orderId < length (orders st)) by by eapply lookup_lt_Some.
  destruct (decide (status = ToCANCELLED)) as [-> | Hs].
  - rewrite decide_True by done. eexists. split; [done |]. simpl.
    by apply list_lookup_insert_eq.
  - eexists. split; [done |]. simpl. by apply list_lookup_insert_eq.
Qed.

(** C6, as the code has it.  [updateOrderStatus] holds no table of allowed
    transitions; it only refuses orders that are already [DELIVERED] or
    [CANCELLED].  For a [SHIPPED] order the owning vendor may therefore
    request any status of the input ([CONFIRMED], [SHIPPED], [DELIVERED],
    [CANCELLED]) and the order takes it: a move from [SHIPPED] back to
    [CONFIRMED] succeeds. *)
Theorem shipped_order_accepts_every_target st caller vendor orderId o status :
  vendor_by_userId (vendors st) caller = Some vendor →
  orders st !! orderId = Some o →
  Order.vendorId o = Vendor.id vendor →
  Order.status o = SHIPPED →
  products_exist st (Order.items o) →
  ∃ st', updateOrderStatus caller orderId status st
         = (Ok (Order.set_status (status_of_input status) o), st')
         ∧ orders st' !! orderId = Some (Order.set_status (status_of_input status) o).
Proof.
  intros Hv Ho Hown Hs Hex. eapply updateOrderStatus_owner; try done.
  rewrite Hs. intros [? | ?]; done.
Qed.

Lemma updateOrderStatus_Err_unchanged st caller orderId status e st' :
  updateOrderStatus caller orderId status st = (Err e, st') → st' = st.
Proof.
  rewrite updateOrderStatus_cases.
  destruct (vendor_by_userId _ _); [| by intros [= _ <-]].
  destruct (orders st !! orderId); [| by intros [= _ <-]].
  repeat case_decide; by intros [= _ <-].
Qed.

(** C7. [updateOrderStatus] is for the vendor that owns the order.  A
    caller with no vendor profile is refused with [FORBIDDEN], whatever the
    order id.  For a caller with a vendor profile, an order id that is not in
    the store gives [NOT_FOUND], and an order of another vendor gives
    [FORBIDDEN].  In each case, and whenever the call fails, the store, hence
    the order and every stock, is left as it was. *)
Theorem updateOrderStatus_authorization st caller orderId status :
  (vendor_by_userId (vendors st) caller = None →
   updateOrderStatus caller orderId status st = (Err FORBIDDEN, st))
  ∧ (∀ vendor, vendor_by_userId (vendors st) caller = Some vendor →
       (orders st !! orderId = None →
        updateOrderStatus caller orderId status st = (Err NOT_FOUND, st))
       ∧ (∀ o, orders st !! orderId = Some o →
               Order.vendorId o ≠ Vendor.id vendor →
               updateOrderStatus caller orderId status st = (Err FORBIDDEN, st)))
  ∧ (∀ e st', updateOrderStatus caller orderId status st = (Err e, st') → st' = st).
Proof.
  split_and!; [| | intros e st'; apply updateOrderStatus_Err_unchanged];
    rewrite updateOrderStatus_cases.
  - by intros ->.
  - intros vendor ->. split.
    + by intros ->.
    + intros o -> Hne. by rewrite decide_True.
Qed.

Lemma cancelOrder_Err_unchanged st caller orderId reason e st' :
  cancelOrder caller orderId reason st = (Err e, st') → st' = st.
Proof.
  rewrite cancelOrder_cases. destruct (orders st !! orderId); [| by intros [= _ <-]].
  repeat case_decide; by intros [= _ <-].
Qed.

(** C8. [cancelOrder] gives [NOT_FOUND] when the order is not in the
    store, [FORBIDDEN] when the caller is not the customer of the order, and
    [BAD_REQUEST] when the customer's order is neither [PENDING] nor
    [CONFIRMED]; otherwise it succeeds and the order is [CANCELLED].  Whenever
    it fails the store, hence the order and every stock, is left as it was.
    (The products of the order's items are rows of the store, as the foreign
    key of order items has it.) *)
Theorem cancelOrder_outcomes st caller orderId reason :
  (orders st !! orderId = None →
   cancelOrder caller orderId reason st = (Err NOT_FOUND, st))
  ∧ (∀ o, orders st !! orderId = Some o →
       (Order.userId o ≠ caller →
        cancelOrder caller orderId reason st = (Err FORBIDDEN, st))
       ∧ (Order.userId o = caller →
          Order.status o ≠ PENDING → Order.status o ≠ CONFIRMED →
          cancelOrder caller orderId reason st = (Err BAD_REQUEST, st))
       ∧ (Order.userId o = caller →
          Order.status o = PENDING ∨ Order.status o = CONFIRMED →
          products_exist st (Order.items o) →
          ∃ st', cancelOrder caller orderId reason st
                 = (Ok (Order.set_status CANCELLED o), st')
                 ∧ orders st' !! orderId = Some (Order.set_status CANCELLED o)))
  ∧ (∀ e st', cancelOrder caller orderId reason st = (Err e, st') → st' = st).
Proof.
  split_and!.
  - rewrite cancelOrder_cases. by intros ->.
  - intros o Ho. rewrite cancelOrder_cases, Ho. split_and!.
    + intros Hne. by rewrite decide_True.
    + intros Heq Hp Hc. rewrite decide_False by (intros ?; done).
      rewrite decide_False; [done |]. intros [? | ?]; done.
    + intros Heq Hs Hex. rewrite decide_False by (intros ?; done).
      rewrite !decide_True by done. eexists. split; [done |]. simpl.
      apply list_lookup_insert_eq. by eapply lookup_lt_Some.
  - intros e st'. apply cancelOrder_Err_unchanged.
Qed.

(** C9. [updateProduct] never writes the orders table, so a change of a
    product's price leaves every order item's price and every order's total as
    they were; and over any sequence of operations an order keeps the items
    (with their prices) and the total it was created with. *)
Theorem order_prices_are_snapshots st :
  (∀ caller input, orders (ProductRouter.updateProduct caller input st).2 = orders st)
  ∧ (∀ ops orderId o,
       orders st !! orderId = Some o →
       ∃ o', orders (run ops st) !! orderId = Some o'
             ∧ Order.items o' = Order.items o
             ∧ Order.total o' = Order.total o).
Proof.
  split.
  - intros. apply updateProduct_orders.
  - intros ops orderId o Ho. destruct (run_evolves ops st orderId o Ho) as (o' & Ho' & He).
    exists o'. destruct He as (_ & _ & _ & ? & ? & _). done.
Qed.

(** ** [PENDING] only at creation *)

Lemma insert_lookup_None (os : list Order.t) oid o i :
  os !! i = None → <[oid := o]> os !! i = None.
Proof. rewrite !lookup_ge_None, length_insert. done. Qed.

Lemma step_new_order_PENDING op st i o' :
  orders st !! i = None → orders (step op st) !! i = Some o' → Order.status o' = PENDING.
Proof.
  intros Hnone. destruct op; simpl.
  - destruct (createOrder_state userId shippingAddress st) as [-> | (items & _ & ->)];
      [congruence |]. simpl.
    rewrite lookup_app_r by by apply lookup_ge_None.
    intros ([v its] & -> & _)%list_lookup_fmap_Some. done.
  - rewrite updateOrderStatus_cases.
    destruct (vendor_by_userId _ _); [| simpl; congruence].
    destruct (orders st !! orderId) as [o |]; [| simpl; congruence].
    repeat case_decide; simpl; try congruence; by rewrite insert_lookup_None.
  - rewrite cancelOrder_cases.
    destruct (orders st !! orderId) as [o |]; [| simpl; congruence].
    repeat case_decide; simpl; try congruence; by rewrite insert_lookup_None.
  - rewrite createProduct_orders. congruence.
  - rewrite updateProduct_orders. congruence.
  - rewrite deleteProduct_orders. congruence.
  - congruence.
Qed.

(** C10. An order is [PENDING] only from its creation on: an order row
    that an operation adds is [PENDING]; no status that [updateOrderStatus]
    accepts is [PENDING] and [cancelOrder] writes [CANCELLED]; so an order
    whose status is not [PENDING] is never [PENDING] again, whatever
    operations follow. *)
Theorem pending_only_at_creation st :
  (∀ op i o', orders st !! i = None → orders (step op st) !! i = Some o' →
              Order.status o' = PENDING)
  ∧ (∀ status, status_of_input status ≠ PENDING)
  ∧ (∀ ops orderId o,
       orders st !! orderId = Some o → Order.status o ≠ PENDING →
       ∃ o', orders (run ops st) !! orderId = Some o' ∧ Order.status o' ≠ PENDING).
Proof.
  split_and!.
  - intros. by eapply step_new_order_PENDING.
  - apply status_of_input_not_PENDING.
  - intros ops orderId o Ho Hs. destruct (run_evolves ops st orderId o Ho) as (o' & Ho' & He).
    exists o'. split; [done |].
    destruct He as (_ & _ & _ & _ & _ & [Hs' | [_ Hs']]); congruence.
Qed.

(** ** The foreign key of order items is kept

    The hypothesis [products_exist] of the statements about cancellation is
    an invariant of the store: no operation removes a product row, and the
    items of a new order are lines of a cart that was joined with its
    products. *)

Lemma step_products_keys op st pid :
  is_Some (products st !! pid) → is_Some (products (step op st) !! pid).
Proof.
  intros Hpid. destruct op; simpl.
  - destruct (createOrder_state userId shippingAddress st) as [-> | (items & _ & ->)];
      [done |]. simpl. by apply update_all_is_Some.
  - rewrite updateOrderStatus_cases.
    destruct (vendor_by_userId _ _); [| done].
    destruct (orders st !! orderId) as [o |]; [| done].
    repeat case_decide; simpl; try done. by apply update_all_is_Some.
  - rewrite cancelOrder_cases.
    destruct (orders st !! orderId) as [o |]; [| done].
    repeat case_decide; simpl; try done. by apply update_all_is_Some.
  - by apply createProduct_write.
  - by apply updateProduct_write.
  - by apply deleteProduct_write.
  - done.
Qed.

Lemma products_exist_step op st items :
  products_exist st items → products_exist (step op st) items.
Proof.
  unfold products_exist. intros Hex. eapply Forall_impl; [exact Hex |].
  intros item. apply step_products_keys.
Qed.

Lemma step_new_order_items op st i o' :
  orders st !! i = None → orders (step op st) !! i = Some o' →
  products_exist st (Order.items o').
Proof.
  intros Hnone. destruct op; simpl.
  - destruct (createOrder_state userId shippingAddress st) as [-> | (items & Hl & ->)];
      [congruence |]. simpl.
    rewrite lookup_app_r by by apply lookup_ge_None.
    intros ([v its] & -> & Hin%list_elem_of_lookup_2)%list_lookup_fmap_Some.
    destruct (groupCartItemsByVendor_groups_of items) as (_ & _ & Hgroups).
    rewrite (Hgroups _ _ Hin). simpl. unfold products_exist.
    rewrite Forall_fmap. apply Forall_forall.
    intros line [_ Hline]%list_elem_of_filter. simpl.
    destruct (cart_lines_product _ _ _ _ Hl Hline) as [-> _]. by eexists.
  - rewrite updateOrderStatus_cases.
    destruct (vendor_by_userId _ _); [| simpl; congruence].
    destruct (orders st !! orderId) as [o |]; [| simpl; congruence].
    repeat case_decide; simpl; try congruence; by rewrite insert_lookup_None.
  - rewrite cancelOrder_cases.
    destruct (orders st !! orderId) as [o |]; [| simpl; congruence].
    repeat case_decide; simpl; try congruence; by rewrite insert_lookup_None.
  - rewrite createProduct_orders. congruence.
  - rewrite updateProduct_orders. congruence.
  - rewrite deleteProduct_orders. congruence.
  - congruence.
Qed.

Lemma step_order_items_fk op st : order_items_fk st → order_items_fk (step op st).
Proof.
  intros Hfk i o' Ho'. apply products_exist_step.
  destruct (orders st !! i) as [o |] eqn:Ho.
  - destruct (step_evolves op st i o Ho) as (o'' & Ho'' & He).
    assert (o'' = o') as -> by congruence.
    destruct He as (_ & _ & _ & _ & -> & _). by eapply Hfk.
  - by eapply step_new_order_items.
Qed.

Lemma run_order_items_fk ops st : order_items_fk st → order_items_fk (run ops st).
Proof.
  revert st. induction ops as [| op ops IH]; intros st Hfk; [done |].
  simpl. by apply IH, step_order_items_fk.
Qed.

(** ** The scenario, run *)

Example checkout_scenario :
  createOrder "alice" Scenario.address Scenario.store
  = (Ok [(0, Scenario.order1); (1, Scenario.order2)], Scenario.checked_out).
Proof. vm_compute. reflexivity. Qed.

Example sold_out_scenario :
  createOrder "alice" Scenario.address Scenario.sold_out = (Err BAD_REQUEST, Scenario.sold_out).
Proof. vm_compute. reflexivity. Qed.

Example ship_scenario :
  updateOrderStatus "seller1" 0 ToSHIPPED Scenario.checked_out
  = (Ok (Order.set_status SHIPPED Scenario.order1), Scenario.shipped).
Proof. vm_compute. reflexivity. Qed.

Example deliver_scenario :
  updateOrderStatus "seller1" 0 ToDELIVERED Scenario.checked_out
  = (Ok (Order.set_status DELIVERED Scenario.order1), Scenario.delivered).
Proof. vm_compute. reflexivity. Qed.

Example cancel_scenario :
  cancelOrder "alice" 0 None Scenario.checked_out
  = (Ok (Order.set_status CANCELLED Scenario.order1), Scenario.cancelled).
Proof. vm_compute. reflexivity. Qed.

Example cart_scenario : cart_lines Scenario.store "alice" = Some Scenario.lines.
Proof. vm_compute. reflexivity. Qed.

Example valid_scenario : Forall valid_line Scenario.lines.
Proof. repeat constructor; vm_compute; discriminate. Qed.

Example unique_scenario : cart_unique Scenario.store.
Proof. unfold cart_unique. apply (bool_decide_unpack _). vm_compute. exact I. Qed.

(** A change of price after the checkout reaches the product and not the
    order. *)
Example reprice_scenario :
  let st' := (ProductRouter.updateProduct "seller1" Scenario.reprice Scenario.checked_out).2 in
  Product.price <$> products st' !! "P1" = Some 99%float
  ∧ orders st' !! 0 = Some Scenario.order1.
Proof. vm_compute. split; reflexivity. Qed.

(** ** The statements at the scenario *)

Lemma createOrder_rejects_invalid_cart_witness :
  createOrder_body "alice" Scenario.address Scenario.sold_out
  = (Err BAD_REQUEST, Scenario.sold_out)
  ∧ createOrder "alice" Scenario.address Scenario.sold_out
    = (Err BAD_REQUEST, Scenario.sold_out).
Proof.
  apply (createOrder_rejects_invalid_cart
           Scenario.sold_out "alice" Scenario.address Scenario.sold_out_lines).
  - vm_compute. reflexivity.
  - right. apply Exists_cons_tl, Exists_cons_hd. right; right. vm_compute. reflexivity.
Defined.

Lemma createOrder_stock_conservation_witness :
  ∃ p p',
    products Scenario.store !! "P1" = Some p
    ∧ products Scenario.checked_out !! "P1" = Some p'
    ∧ Product.stock p' = (Product.stock p - purchased "P1" Scenario.lines)%Z
    ∧ (cart_unique Scenario.store →
       Product.stock p' = (Product.stock p - 2)%Z ∧ (0 ≤ Product.stock p')%Z).
Proof.
  destruct (createOrder_stock_conservation
              Scenario.store "alice" Scenario.address
              [(0, Scenario.order1); (1, Scenario.order2)]
              Scenario.checked_out Scenario.lines) as [Hlines _].
  - vm_compute. reflexivity.
  - vm_compute. reflexivity.
  - apply (Hlines (CartItemWithProduct.mk "P1" 2 Scenario.P1 Scenario.V1)). left.
Defined.

Lemma createOrder_one_order_per_vendor_witness :
  ∃ created st',
    createOrder "alice" Scenario.address Scenario.store = (Ok created, st')
    ∧ orders st' = orders Scenario.store ++ created.*2
    ∧ Order.vendorId <$> created.*2 ≡ₚ remove_dups (line_vendorId <$> Scenario.lines)
    ∧ ∀ i o, (i, o) ∈ created →
        orders Scenario.store !! i = None
        ∧ orders st' !! i = Some o
        ∧ Order.userId o = "alice"
        ∧ Order.status o = PENDING
        ∧ Forall2 (snapshot_of Scenario.store) (Order.items o)
                  (lines_of_vendor (Order.vendorId o) Scenario.lines)
        ∧ Order.total o = items_total (Order.items o).
Proof.
  apply (createOrder_one_order_per_vendor
           Scenario.store "alice" Scenario.address Scenario.lines).
  - vm_compute. reflexivity.
  - discriminate.
  - repeat constructor; vm_compute; discriminate.
Defined.

Lemma cancellation_restores_stock_witness :
  orders Scenario.cancelled
  = <[0 := Order.set_status CANCELLED Scenario.order1]> (orders Scenario.checked_out)
  ∧ (∀ caller status,
       ∃ e, updateOrderStatus caller 0 status Scenario.cancelled = (Err e, Scenario.cancelled))
  ∧ (∀ caller reason,
       ∃ e, cancelOrder caller 0 reason Scenario.cancelled = (Err e, Scenario.cancelled))
  ∧ products Scenario.cancelled !! "P1" = products Scenario.store !! "P1".
Proof.
  destruct (cancellation_restores_stock
              Scenario.checked_out "alice" 0 None Scenario.order1
              (Order.set_status CANCELLED Scenario.order1) Scenario.cancelled)
    as (_ & Horders & _ & Hupdate & Hcancel & Hback).
  - reflexivity.
  - right. vm_compute. reflexivity.
  - split_and!; [exact Horders | exact Hupdate | exact Hcancel |].
    apply (Hback Scenario.store "alice" Scenario.address
                 [(0, Scenario.order1); (1, Scenario.order2)]).
    + vm_compute. reflexivity.
    + left.
    + left.
Defined.

(** The failure of C5 as it is worded: on a [DELIVERED] order, a caller
    that is not a vendor is answered [FORBIDDEN], not [BAD_REQUEST]. *)
Lemma terminal_guard_counterexample :
  Order.status <$> orders Scenario.delivered !! 0 = Some DELIVERED
  ∧ updateOrderStatus "alice" 0 ToSHIPPED Scenario.delivered
    = (Err FORBIDDEN, Scenario.delivered)
  ∧ (updateOrderStatus "alice" 0 ToSHIPPED Scenario.delivered).1 ≠ Err BAD_REQUEST.
Proof. split_and!; [reflexivity | vm_compute; reflexivity | vm_compute; discriminate]. Qed.

Lemma terminal_orders_stay_terminal_witness :
  (∀ caller status,
     ∃ e, updateOrderStatus caller 0 status Scenario.delivered = (Err e, Scenario.delivered)
          ∧ (owning_vendor Scenario.delivered caller
               (Order.set_status DELIVERED Scenario.order1) → e = BAD_REQUEST)
          ∧ (¬ owning_vendor Scenario.delivered caller
                 (Order.set_status DELIVERED Scenario.order1) → e = FORBIDDEN))
  ∧ (∀ caller reason,
       ∃ e, cancelOrder caller 0 reason Scenario.delivered = (Err e, Scenario.delivered)
            ∧ (Order.userId (Order.set_status DELIVERED Scenario.order1) = caller
               → e = BAD_REQUEST)
            ∧ (Order.userId (Order.set_status DELIVERED Scenario.order1) ≠ caller
               → e = FORBIDDEN))
  ∧ (∀ ops, ∃ o', orders (run ops Scenario.delivered) !! 0 = Some o'
                  ∧ Order.status o' = Order.status (Order.set_status DELIVERED Scenario.order1)).
Proof.
  apply (terminal_orders_stay_terminal Scenario.delivered 0
           (Order.set_status DELIVERED Scenario.order1)).
  - reflexivity.
  - left. reflexivity.
Defined.

(** The failure of C6 as it is worded: the owning vendor moves a [SHIPPED]
    order back to [CONFIRMED]. *)
Lemma shipped_to_confirmed_counterexample :
  Order.status <$> orders Scenario.shipped !! 0 = Some SHIPPED
  ∧ updateOrderStatus "seller1" 0 ToCONFIRMED Scenario.shipped
    = (Ok (Order.set_status CONFIRMED Scenario.order1),
       with_orders [Order.set_status CONFIRMED Scenario.order1; Scenario.order2]
                   Scenario.checked_out).
Proof. split; [reflexivity | vm_compute; reflexivity]. Qed.

Lemma shipped_order_accepts_every_target_witness :
  ∃ st', updateOrderStatus "seller1" 0 ToCONFIRMED Scenario.shipped
         = (Ok (Order.set_status (status_of_input ToCONFIRMED)
                  (Order.set_status SHIPPED Scenario.order1)), st')
         ∧ orders st' !! 0
           = Some (Order.set_status (status_of_input ToCONFIRMED)
                     (Order.set_status SHIPPED Scenario.order1)).
Proof.
  apply (shipped_order_accepts_every_target Scenario.shipped "seller1" Scenario.V1).
  - vm_compute. reflexivity.
  - reflexivity.
  - reflexivity.
  - reflexivity.
  - apply (bool_decide_unpack _). vm_compute. exact I.
Defined.

Lemma updateOrderStatus_authorization_witness :
  updateOrderStatus "alice" 0 ToSHIPPED Scenario.checked_out
  = (Err FORBIDDEN, Scenario.checked_out)
  ∧ updateOrderStatus "seller1" 7 ToSHIPPED Scenario.checked_out
    = (Err NOT_FOUND, Scenario.checked_out)
  ∧ updateOrderStatus "seller2" 0 ToSHIPPED Scenario.checked_out
    = (Err FORBIDDEN, Scenario.checked_out).
Proof.
  split_and!.
  - apply (proj1 (updateOrderStatus_authorization Scenario.checked_out "alice" 0 ToSHIPPED)).
    vm_compute. reflexivity.
  - apply (proj1 (proj1 (proj2 (updateOrderStatus_authorization
                                  Scenario.checked_out "seller1" 7 ToSHIPPED))
                    Scenario.V1 ltac:(vm_compute; reflexivity))).
    reflexivity.
  - apply (proj2 (proj1 (proj2 (updateOrderStatus_authorization
                                  Scenario.checked_out "seller2" 0 ToSHIPPED))
                    Scenario.V2 ltac:(vm_compute; reflexivity))
             Scenario.order1).
    + reflexivity.
    + vm_compute. discriminate.
Defined.

Lemma cancelOrder_outcomes_witness :
  cancelOrder "alice" 7 None Scenario.checked_out = (Err NOT_FOUND, Scenario.checked_out)
  ∧ cancelOrder "bob" 0 None Scenario.checked_out = (Err FORBIDDEN, Scenario.checked_out)
  ∧ cancelOrder "alice" 0 None Scenario.shipped = (Err BAD_REQUEST, Scenario.shipped)
  ∧ ∃ st', cancelOrder "alice" 0 None Scenario.checked_out
           = (Ok (Order.set_status CANCELLED Scenario.order1), st')
           ∧ orders st' !! 0 = Some (Order.set_status CANCELLED Scenario.order1).
Proof.
  split_and!.
  - apply (proj1 (cancelOrder_outcomes Scenario.checked_out "alice" 7 None)). reflexivity.
  - apply (proj1 (proj1 (proj2 (cancelOrder_outcomes Scenario.checked_out "bob" 0 None))
                    Scenario.order1 eq_refl)).
    vm_compute. discriminate.
  - apply (proj1 (proj2 (proj1 (proj2 (cancelOrder_outcomes Scenario.shipped "alice" 0 None))
                           (Order.set_status SHIPPED Scenario.order1) eq_refl)));
      [reflexivity | discriminate | discriminate].
  - apply (proj2 (proj2 (proj1 (proj2 (cancelOrder_outcomes
                                         Scenario.checked_out "alice" 0 None))
                           Scenario.order1 eq_refl))).
    + reflexivity.
    + left. reflexivity.
    + apply (bool_decide_unpack _). vm_compute. exact I.
Defined.

Lemma order_prices_are_snapshots_witness :
  ∃ o', orders (run [UpdateProduct "seller1" Scenario.reprice] Scenario.checked_out) !! 0
        = Some o'
        ∧ Order.items o' = Order.items Scenario.order1
        ∧ Order.total o' = Order.total Scenario.order1.
Proof.
  apply (proj2 (order_prices_are_snapshots Scenario.checked_out)
           [UpdateProduct "seller1" Scenario.reprice] 0 Scenario.order1).
  reflexivity.
Defined.

Lemma pending_only_at_creation_witness :
  ∃ o', orders (run [UpdateOrderStatus "seller1" 0 ToCONFIRMED;
                     CancelOrder "alice" 0 None]
                    Scenario.shipped) !! 0 = Some o'
        ∧ Order.status o' ≠ PENDING.
Proof.
  apply (proj2 (proj2 (pending_only_at_creation Scenario.shipped))
           [UpdateOrderStatus "seller1" 0 ToCONFIRMED; CancelOrder "alice" 0 None]
           0 (Order.set_status SHIPPED Scenario.order1)).
  - reflexivity.
  - discriminate.
Defined.

(** * The cart router *)

(** ** [addToCart] *)

Lemma addToCart_cases userId productId quantity st :
  CartRouter.addToCart userId productId quantity st
  = match products st !! productId with
    | None => (Err NOT_FOUND, st)
    | Some p =>
        match vendor_by_id (vendors st) (Product.vendorId p) with
        | None => (Err INTERNAL_SERVER_ERROR, st)
        | Some v =>
            if negb (Product.isActive p) then (Err BAD_REQUEST, st)
            else if negb (Vendor.isApproved v) then (Err BAD_REQUEST, st)
            else if (requested_quantity (cartItems st) userId productId quantity
                     >? Product.stock p)%Z
            then (Err BAD_REQUEST, st)
            else cartItem_upsert userId productId
                   (requested_quantity (cartItems st) userId productId quantity) quantity st
        end
    end.
Proof.
  unfold CartRouter.addToCart, bind at 1, product_findUnique_vendor.
  destruct (products st !! productId) as [p |]; [| done].
  destruct (vendor_by_id _ _) as [v |]; [| done].
  destruct (Product.isActive p); [| done]. destruct (Vendor.isApproved v); [| done]. simpl.
  unfold bind, cartItem_findUnique, requested_quantity.
  destruct (cart_row (cartItems st) userId productId) as [[i e] |]; simpl;
    by case_match.
Qed.

(** Where the row of a key is, the table splits around it. *)
Lemma cart_row_Some cs uid pid i e row :
  cart_row cs uid pid = Some (i, e) →
  ∃ l1 l2, cs = l1 ++ e :: l2
           ∧ <[i := row]> cs = l1 ++ row :: l2
           ∧ is_line uid pid e
           ∧ Forall (λ ci, ¬ is_line uid pid ci) l1.
Proof.
  intros (Hi & He & Hleast)%list_find_Some.
  exists (take i cs), (drop (S i) cs). split_and!.
  - by rewrite take_drop_middle.
  - apply insert_take_drop. by eapply lookup_lt_Some.
  - done.
  - apply Forall_forall. intros ci [j Hj]%list_elem_of_lookup.
    apply lookup_take_Some in Hj as [Hj Hlt]. by eapply Hleast.
Qed.

Lemma cart_row_middle l1 l2 uid pid row :
  Forall (λ ci, ¬ is_line uid pid ci) l1 → is_line uid pid row →
  cart_row (l1 ++ row :: l2) uid pid = Some (length l1, row).
Proof.
  intros Hl1 Hrow. unfold cart_row.
  rewrite list_find_app_r by by apply (list_find_None (is_line uid pid)).
  simpl. by rewrite decide_True.
Qed.

(** The store after a successful upsert. *)
Lemma cartItem_upsert_state uid pid update create st :
  ∃ row st', cartItem_upsert uid pid update create st = (Ok row, st')
    ∧ row = CartItem.mk uid pid
              (if cart_row (cartItems st) uid pid is Some _ then update else create)
    ∧ products st' = products st ∧ vendors st' = vendors st
    ∧ categories st' = categories st ∧ orders st' = orders st
    ∧ ((∃ l1 e l2, cartItems st = l1 ++ e :: l2 ∧ cartItems st' = l1 ++ row :: l2
                   ∧ is_line uid pid e ∧ Forall (λ ci, ¬ is_line uid pid ci) l1)
       ∨ (cartItems st' = cartItems st ++ [row]
          ∧ Forall (λ ci, ¬ is_line uid pid ci) (cartItems st))).
Proof.
  unfold cartItem_upsert.
  destruct (cart_row (cartItems st) uid pid) as [[i e] |] eqn:Hrow.
  - eexists _, _. split; [done |]. split_and!; try done. left.
    destruct (cart_row_Some _ _ _ _ _ (CartItem.mk uid pid update) Hrow)
      as (l1 & l2 & Hcs & Hins & He & Hl1).
    exists l1, e, l2. simpl. by rewrite Hins.
  - eexists _, _. split; [done |]. split_and!; try done. right.
    split; [done |]. by apply (list_find_None (is_line uid pid)).
Qed.

Lemma addToCart_Ok_inv userId productId quantity st row st' :
  CartRouter.addToCart userId productId quantity st = (Ok row, st') →
  ∃ p v,
    products st !! productId = Some p
    ∧ vendor_by_id (vendors st) (Product.vendorId p) = Some v
    ∧ Product.isActive p = true ∧ Vendor.isApproved v = true
    ∧ (requested_quantity (cartItems st) userId productId quantity ≤ Product.stock p)%Z
    ∧ cartItem_upsert userId productId
        (requested_quantity (cartItems st) userId productId quantity) quantity st
      = (Ok row, st').
Proof.
  rewrite addToCart_cases.
  destruct (products st !! productId) as [p |]; [| done].
  destruct (vendor_by_id _ _) as [v |] eqn:Hv; [| done].
  destruct (Product.isActive p) eqn:Ha; [| done].
  destruct (Vendor.isApproved v) eqn:Hap; [| done]. simpl.
  destruct (Z.gtb_spec (requested_quantity (cartItems st) userId productId quantity)
              (Product.stock p)); [done |].
  intros Hup. exists p, v. split_and!; done.
Qed.

(** What a successful [addToCart] leaves in the cart table. *)
Lemma addToCart_Ok_cart userId productId quantity st row st' :
  CartRouter.addToCart userId productId quantity st = (Ok row, st') →
  row = CartItem.mk userId productId
          (requested_quantity (cartItems st) userId productId quantity)
  ∧ products st' = products st ∧ vendors st' = vendors st
  ∧ categories st' = categories st ∧ orders st' = orders st
  ∧ ((∃ l1 e l2, cartItems st = l1 ++ e :: l2 ∧ cartItems st' = l1 ++ row :: l2
                 ∧ is_line userId productId e
                 ∧ Forall (λ ci, ¬ is_line userId productId ci) l1)
     ∨ (cartItems st' = cartItems st ++ [row]
        ∧ Forall (λ ci, ¬ is_line userId productId ci) (cartItems st))).
Proof.
  intros (p & v & _ & _ & _ & _ & _ & Hup)%addToCart_Ok_inv.
  destruct (cartItem_upsert_state userId productId
              (requested_quantity (cartItems st) userId productId quantity) quantity st)
    as (row' & st'' & Hup' & Hrow & Hrest).
  rewrite Hup in Hup'. injection Hup' as <- <-. split; [| done].
  rewrite Hrow. unfold requested_quantity.
  by destruct (cart_row (cartItems st) userId productId) as [[i e] |].
Qed.

Lemma addToCart_Err_unchanged userId productId quantity st e st' :
  CartRouter.addToCart userId productId quantity st = (Err e, st') → st' = st.
Proof.
  rewrite addToCart_cases.
  destruct (products st !! productId) as [p |]; [| by intros [= _ <-]].
  destruct (vendor_by_id _ _) as [v |]; [| by intros [= _ <-]].
  repeat case_match; try by intros [= _ <-].
  destruct (cartItem_upsert_state userId productId
              (requested_quantity (cartItems st) userId productId quantity) quantity st)
    as (row' & st'' & -> & _). done.
Qed.

(** X1. [addToCart] answers [NOT_FOUND] for a product that is not in the
    store and [BAD_REQUEST] for an inactive product, for a product of an
    unapproved vendor, and when the quantity already in the caller's line plus
    the quantity requested exceeds the stock; whenever it fails the store is
    left as it was. *)
Theorem addToCart_rejections st userId productId quantity :
  (products st !! productId = None →
   CartRouter.addToCart userId productId quantity st = (Err NOT_FOUND, st))
  ∧ (∀ p v,
       products st !! productId = Some p →
       vendor_by_id (vendors st) (Product.vendorId p) = Some v →
       (Product.isActive p = false →
        CartRouter.addToCart userId productId quantity st = (Err BAD_REQUEST, st))
       ∧ (Vendor.isApproved v = false →
          CartRouter.addToCart userId productId quantity st = (Err BAD_REQUEST, st))
       ∧ ((requested_quantity (cartItems st) userId productId quantity > Product.stock p)%Z →
          CartRouter.addToCart userId productId quantity st = (Err BAD_REQUEST, st)))
  ∧ (∀ e st', CartRouter.addToCart userId productId quantity st = (Err e, st') → st' = st).
Proof.
  split_and!.
  - rewrite addToCart_cases. by intros ->.
  - intros p v Hp Hv. rewrite addToCart_cases, Hp, Hv. split_and!.
    + by intros ->.
    + intros ->. by destruct (Product.isActive p).
    + intros Hq. destruct (Product.isActive p), (Vendor.isApproved v); simpl; try done.
      by rewrite (proj2 (Z.gtb_gt _ _)) by lia.
  - intros e st'. apply addToCart_Err_unchanged.
Qed.


Lemma filter_none {A} (P : A → Prop) `{∀ x, Decision (P x)} (l : list A) :
  Forall (λ x, ¬ P x) l → filter P l = [].
Proof.
  induction 1 as [| x l Hx _ IH]; [done |]. by rewrite filter_cons_False.
Qed.

Lemma NoDup_key_replace {A K} (key : A → K) (l1 l2 : list A) e row :
  key row = key e → NoDup (key <$> (l1 ++ e :: l2)) →
  NoDup (key <$> (l1 ++ row :: l2)) ∧ Forall (λ x, key x ≠ key e) l2.
Proof.
  intros Hsame Hnd. split.
  - rewrite fmap_app, fmap_cons, Hsame. by rewrite fmap_app, fmap_cons in Hnd.
  - rewrite fmap_app, fmap_cons in Hnd.
    apply NoDup_app in Hnd as (_ & _ & [He _]%NoDup_cons).
    apply Forall_forall. intros x Hx Hk. apply He, list_elem_of_fmap. by exists x.
Qed.

Lemma NoDup_key_snoc {A K} (key : A → K) (l : list A) row :
  Forall (λ x, key x ≠ key row) l → NoDup (key <$> l) → NoDup (key <$> (l ++ [row])).
Proof.
  intros Hnone Hnd. rewrite fmap_app. apply NoDup_app.
  split_and!; [done | | apply NoDup_singleton].
  intros k (x & Hk & Hx)%list_elem_of_fmap Hrow%list_elem_of_singleton.
  rewrite Forall_forall in Hnone. apply (Hnone x Hx). congruence.
Qed.

Lemma is_line_key uid pid ci :
  is_line uid pid ci ↔ (CartItem.userId ci, CartItem.productId ci) = (uid, pid).
Proof. unfold is_line. split; [by intros [-> ->] | by intros [= -> ->]]. Qed.

(** X3. [addToCart] keeps the unique index of the cart table: when no two
    rows share a user and a product before a successful call, none do
    afterwards, and the row it returns is the only row of the caller for that
    product. *)
Theorem addToCart_keeps_cart_unique st userId productId quantity row st' :
  cart_unique st →
  CartRouter.addToCart userId productId quantity st = (Ok row, st') →
  cart_unique st'
  ∧ filter (is_line userId productId) (cartItems st') = [row].
Proof.
  unfold cart_unique. intros Huniq Hadd.
  destruct (addToCart_Ok_cart _ _ _ _ _ _ Hadd) as (Hrow & _ & _ & _ & _ & Hcart).
  assert (is_line userId productId row) as Hkey by by rewrite Hrow.
  destruct Hcart as [(l1 & e & l2 & Hcs & -> & He & Hl1) | [-> Hnone]].
  - rewrite Hcs in Huniq.
    apply (NoDup_key_replace _ l1 l2 e row) in Huniq as [Hnd Hl2];
      [| apply is_line_key in He; apply is_line_key in Hkey; congruence].
    split; [done |].
    rewrite filter_app, filter_cons_True by done.
    rewrite (filter_none _ l1) by done. rewrite (filter_none _ l2); [done |].
    eapply Forall_impl; [exact Hl2 |]. simpl. intros ci Hne Hl. apply Hne.
    apply is_line_key in Hl. apply is_line_key in He. congruence.
  - split.
    + apply NoDup_key_snoc; [| done].
      eapply Forall_impl; [exact Hnone |]. simpl. intros ci Hne Hk. apply Hne.
      apply is_line_key. apply is_line_key in Hkey. congruence.
    + rewrite filter_app, (filter_none _ (cartItems st)) by done.
      by rewrite filter_cons_True.
Qed.

(** ** [addToCart] and the checkout *)

(** X4. [addToCart] keeps a cart that can be checked out: if every line of
    the caller's cart passes the validation of [createOrder] before a
    successful [addToCart], then every line passes it afterwards, the cart is
    not empty, and [createOrder] succeeds on the store that [addToCart]
    left. *)
Theorem addToCart_keeps_cart_valid st userId productId quantity row st' items :
  cart_lines st userId = Some items → Forall valid_line items →
  CartRouter.addToCart userId productId quantity st = (Ok row, st') →
  ∃ items',
    cart_lines st' userId = Some items'
    ∧ items' ≠ []
    ∧ Forall valid_line items'
    ∧ ∀ shippingAddress, ∃ created st'',
        createOrder userId shippingAddress st' = (Ok created, st'').
Proof.
  intros Hlines Hvalid Hadd.
  destruct (addToCart_Ok_cart _ _ _ _ _ _ Hadd) as (Hrow & Hps & Hvs & _ & _ & Hcart).
  destruct (addToCart_Ok_inv _ _ _ _ _ _ Hadd) as (p & v & Hp & Hv & Ha & Hap & Hq & _).
  set (line := CartItemWithProduct.mk productId (CartItem.quantity row) p v).
  assert (include_product st' row = Some line) as Hjoin.
  { unfold include_product, line. rewrite Hps, Hvs, Hrow. simpl. by rewrite Hp, Hv. }
  assert (valid_line line) as Hline.
  { unfold valid_line, line; simpl. split_and!; [done | done |]. by rewrite Hrow. }
  assert (∀ ci, include_product st' ci = include_product st ci) as Hsame.
  { intros ci. unfold include_product. by rewrite Hps, Hvs. }
  assert (CartItem.userId row = userId) as Hu by by rewrite Hrow.
  clearbody line.
  assert (∃ items', cart_lines st' userId = Some items' ∧ items' ≠ []
                    ∧ Forall valid_line items') as (items' & Hl' & Hne & Hv').
  { unfold cart_lines, cart_of in *.
    destruct Hcart as [(l1 & e & l2 & Hcs & -> & [He _] & _) | [-> _]].
    - rewrite Hcs, filter_app, filter_cons_True in Hlines by done.
      apply mapM_Some_1, Forall2_app_inv_l in Hlines as (k1 & k2 & H1 & H2 & ->).
      apply Forall2_cons_inv_l in H2 as (ie & k2' & _ & H2 & ->).
      apply Forall_app in Hvalid as [Hv1 [_ Hv2]%Forall_cons].
      exists (k1 ++ line :: k2'). split_and!.
      + rewrite filter_app, filter_cons_True by done.
        apply mapM_Some_2, Forall2_app; [| constructor; [done |]];
          (eapply Forall2_impl; [eassumption |]); intros; by rewrite Hsame.
      + by destruct k1.
      + apply Forall_app. split; [done | by constructor].
    - exists (items ++ [line]). split_and!.
      + rewrite filter_app, filter_cons_True, filter_nil by done.
        apply mapM_Some_2, Forall2_app; [| constructor; [done | constructor]].
        apply mapM_Some_1 in Hlines. eapply Forall2_impl; [eassumption |].
        intros; by rewrite Hsame.
      + by destruct items.
      + apply Forall_app. split; [done | by apply Forall_singleton]. }
  exists items'. split_and!; try done.
  intros addr. eexists _, _. by apply createOrder_ok.
Qed.

(** ** [validateCart] *)

(** An empty cart or an invalid line: the checkout answers [BAD_REQUEST]
    and the store is as before. *)
Lemma createOrder_BAD_REQUEST st userId shippingAddress items :
  cart_lines st userId = Some items →
  items = [] ∨ Exists invalid_line items →
  createOrder userId shippingAddress st = (Err BAD_REQUEST, st).
Proof.
  intros Hlines Hbad. unfold createOrder, transaction, createOrder_body, bind.
  rewrite (cartItem_findMany_lines _ _ _ Hlines).
  destruct Hbad as [-> | Hbad]; [done |].
  destruct (length items =? 0)%nat; [done |].
  unfold lift. by rewrite (validateCartItems_invalid _ Hbad).
Qed.

Lemma valid_line_not_invalid item : valid_line item ↔ ¬ invalid_line item.
Proof.
  unfold valid_line, invalid_line. split.
  - intros (Ha & Hv & Hq) [H | [H | H]]; [congruence | congruence | lia].
  - intros Hn. split_and!.
    + destruct (Product.isActive _); [done |]. destruct Hn. by left.
    + destruct (Vendor.isApproved _); [done |]. destruct Hn. right. by left.
    + destruct (Z.le_gt_cases (CartItemWithProduct.quantity item)
                  (Product.stock (CartItemWithProduct.product item))); [done |].
      destruct Hn. right; right. lia.
Qed.

Lemma collect_issues_filter items :
  CartRouter.collect_issues items = issue_of <$> filter invalid_line items.
Proof.
  induction items as [| item rest IH]; [done |]. simpl.
  destruct (Product.isActive (CartItemWithProduct.product item)) eqn:Ha; simpl.
  - destruct (Vendor.isApproved (CartItemWithProduct.vendor item)) eqn:Hv; simpl.
    + destruct (Z.gtb_spec (CartItemWithProduct.quantity item)
                  (Product.stock (CartItemWithProduct.product item))) as [Hq | Hq].
      * rewrite filter_cons_True by (right; right; lia). csimpl. rewrite IH. f_equal.
        unfold issue_of. by rewrite Ha, Hv.
      * rewrite filter_cons_False; [done |].
        apply valid_line_not_invalid. by split_and!.
    + rewrite filter_cons_True by (right; by left). csimpl. rewrite IH. f_equal.
      unfold issue_of. by rewrite Ha, Hv.
  - rewrite filter_cons_True by by left. csimpl. rewrite IH. f_equal.
    unfold issue_of. by rewrite Ha.
Qed.

Lemma filter_invalid_nil items : filter invalid_line items = [] ↔ Forall valid_line items.
Proof.
  induction items as [| item rest IH]; [by split; [constructor |] |].
  destruct (decide (invalid_line item)) as [Hbad | Hok].
  - rewrite filter_cons_True by done. split; [done |].
    intros [Hv _]%Forall_cons. by apply valid_line_not_invalid in Hv.
  - rewrite filter_cons_False, IH, Forall_cons by done.
    split; [| by intros [_ ?]]. intros. split; [by apply valid_line_not_invalid | done].
Qed.

Lemma validateCart_lines st userId items :
  cart_lines st userId = Some items →
  CartRouter.validateCart userId st
  = (Ok ((length (CartRouter.collect_issues items) =? 0)%nat,
         CartRouter.collect_issues items), st).
Proof.
  intros Hl. unfold CartRouter.validateCart, bind.
  by rewrite (cartItem_findMany_lines _ _ _ Hl).
Qed.

Lemma collect_issues_none items :
  (length (CartRouter.collect_issues items) =? 0)%nat = true ↔ Forall valid_line items.
Proof.
  rewrite collect_issues_filter, Nat.eqb_eq, length_fmap, length_zero_iff_nil.
  apply filter_invalid_nil.
Qed.

(** X5. [validateCart] reports exactly one issue for each line of the cart
    that [createOrder]'s validation would reject, in cart order, naming the
    first of the three checks that the line fails, and none for the other
    lines; it says [isValid] exactly when no line is rejected, and it leaves
    the store as it was. *)
Theorem validateCart_issues st userId items :
  cart_lines st userId = Some items →
  ∃ isValid,
    CartRouter.validateCart userId st
    = (Ok (isValid, issue_of <$> filter invalid_line items), st)
    ∧ (isValid = true ↔ Forall valid_line items).
Proof.
  intros Hl. exists (length (CartRouter.collect_issues items) =? 0)%nat.
  rewrite (validateCart_lines _ _ _ Hl). split.
  - by rewrite collect_issues_filter.
  - apply collect_issues_none.
Qed.

(** X6. The verdict of [validateCart] and the outcome of [createOrder] on
    the same store: when [validateCart] reports issues, [createOrder] fails
    with [BAD_REQUEST]; when it reports none and the caller's cart has a line,
    [createOrder] succeeds.  They differ on the empty cart, which
    [validateCart] reports as valid and [createOrder] rejects. *)
Theorem validateCart_agrees_with_createOrder st userId isValid issues st' :
  CartRouter.validateCart userId st = (Ok (isValid, issues), st') →
  (isValid = false →
   ∀ shippingAddress, createOrder userId shippingAddress st = (Err BAD_REQUEST, st))
  ∧ (isValid = true → cart_of userId (cartItems st) ≠ [] →
     ∀ shippingAddress, ∃ created st'',
       createOrder userId shippingAddress st = (Ok created, st''))
  ∧ (cart_of userId (cartItems st) = [] →
     isValid = true
     ∧ ∀ shippingAddress, createOrder userId shippingAddress st = (Err BAD_REQUEST, st)).
Proof.
  intros Hval.
  assert (∃ items, cart_lines st userId = Some items) as [items Hl].
  { unfold CartRouter.validateCart, bind, cartItem_findMany in Hval.
    destruct (cart_lines st userId); [by eexists | done]. }
  rewrite (validateCart_lines _ _ _ Hl) in Hval. injection Hval as <- <- <-.
  pose proof (collect_issues_none items) as Hiff.
  split_and!.
  - intros Hno addr.
    apply (createOrder_BAD_REQUEST st userId addr items Hl). right.
    destruct (filter invalid_line items) as [| bad rest] eqn:Hf.
    { apply filter_invalid_nil, Hiff in Hf. congruence. }
    assert (bad ∈ filter invalid_line items) as [Hbad Hin]%list_elem_of_filter
      by (rewrite Hf; left).
    apply Exists_exists. by exists bad.
  - intros Hyes Hne addr. eexists _, _. apply (createOrder_ok _ _ _ items); [done | | by apply Hiff].
    intros ->. apply Hne. unfold cart_lines in Hl.
    by apply mapM_Some_1, Forall2_nil_inv_r in Hl.
  - intros Hempty.
    assert (items = []) as ->.
    { unfold cart_lines in Hl. rewrite Hempty in Hl. by injection Hl as <-. }
    split; [by apply Hiff |]. intros addr.
    apply (createOrder_BAD_REQUEST st userId addr [] Hl). by left.
Qed.

(** ** Emptying the cart: [clearCart] and the checkout *)

Lemma cart_of_deleted uid cs :
  cart_of uid (filter (λ ci, CartItem.userId ci ≠ uid) cs) = [].
Proof.
  unfold cart_of. apply filter_none, Forall_forall.
  by intros ci [Hne _]%list_elem_of_filter.
Qed.

Lemma cart_of_other uid other cs :
  other ≠ uid →
  cart_of other (filter (λ ci, CartItem.userId ci ≠ uid) cs) = cart_of other cs.
Proof.
  intros Hne. unfold cart_of. induction cs as [| c cs IH]; [done |].
  destruct (decide (CartItem.userId c = other)) as [Ho | Ho].
  - rewrite (filter_cons_True (λ ci, CartItem.userId ci ≠ uid)) by congruence.
    rewrite !(filter_cons_True (λ ci, CartItem.userId ci = other)) by done. by rewrite IH.
  - rewrite (filter_cons_False (λ ci, CartItem.userId ci = other) c cs) by done.
    destruct (decide (CartItem.userId c = uid)).
    + by rewrite filter_cons_False by (intros ?; done).
    + rewrite filter_cons_True by done. by rewrite filter_cons_False.
Qed.

Lemma filter_deleted_twice uid (cs : list CartItem.t) :
  filter (λ ci, CartItem.userId ci ≠ uid) (filter (λ ci, CartItem.userId ci ≠ uid) cs)
  = filter (λ ci, CartItem.userId ci ≠ uid) cs.
Proof.
  induction cs as [| c cs IH]; [done |].
  destruct (decide (CartItem.userId c = uid)).
  - by rewrite filter_cons_False by (intros ?; done).
  - rewrite !filter_cons_True by done. by rewrite IH.
Qed.

Lemma createOrder_empty_cart st userId shippingAddress :
  cart_of userId (cartItems st) = [] →
  createOrder userId shippingAddress st = (Err BAD_REQUEST, st).
Proof.
  intros Hempty. apply (createOrder_BAD_REQUEST _ _ _ []); [| by left].
  unfold cart_lines. by rewrite Hempty.
Qed.

(** X7. [clearCart] always succeeds: it deletes the caller's cart lines and
    only those, returns how many there were, and touches no other table.
    Cleared again it removes nothing, and a checkout right after it fails
    with [BAD_REQUEST]. *)
Theorem clearCart_empties_cart st userId :
  ∃ st',
    CartRouter.clearCart userId st = (Ok (length (cart_of userId (cartItems st))), st')
    ∧ cart_of userId (cartItems st') = []
    ∧ (∀ other, other ≠ userId →
                cart_of other (cartItems st') = cart_of other (cartItems st))
    ∧ products st' = products st ∧ vendors st' = vendors st
    ∧ categories st' = categories st ∧ orders st' = orders st
    ∧ CartRouter.clearCart userId st' = (Ok 0, st')
    ∧ ∀ shippingAddress,
        createOrder userId shippingAddress st' = (Err BAD_REQUEST, st').
Proof.
  eexists. split; [done |]. simpl. split_and!; try done.
  - apply cart_of_deleted.
  - intros. by apply cart_of_other.
  - unfold CartRouter.clearCart, cartItem_deleteMany_count, with_cartItems. simpl.
    by rewrite cart_of_deleted, filter_deleted_twice.
  - intros addr. apply createOrder_empty_cart. apply cart_of_deleted.
Qed.

Lemma groupCartItemsByVendor_nonempty items :
  items ≠ [] → groupCartItemsByVendor items ≠ [].
Proof.
  intros Hne Hnil. destruct items as [| item rest]; [done |].
  destruct (groupCartItemsByVendor_groups_of (item :: rest)) as (_ & Hkeys & _).
  rewrite Hnil in Hkeys.
  assert (line_vendorId item ∈ ([] : VendorGroups).*1) as Hin.
  { apply Hkeys. exists item. split; [left | done]. }
  by apply elem_of_nil in Hin.
Qed.

(** X8. A successful [createOrder] returns at least one order, deletes the
    caller's cart lines and only those, and leaves the vendors and categories
    as they were; a second [createOrder] by the same caller right after it
    fails with [BAD_REQUEST], so one cart is never ordered twice. *)
Theorem createOrder_clears_cart st userId shippingAddress created st' :
  createOrder userId shippingAddress st = (Ok created, st') →
  created ≠ []
  ∧ length (orders st') = length (orders st) + length created
  ∧ cart_of userId (cartItems st') = []
  ∧ (∀ other, other ≠ userId →
              cart_of other (cartItems st') = cart_of other (cartItems st))
  ∧ vendors st' = vendors st ∧ categories st' = categories st
  ∧ ∀ shippingAddress',
      createOrder userId shippingAddress' st' = (Err BAD_REQUEST, st').
Proof.
  intros Hco.
  destruct (createOrder_Ok_inv _ _ _ _ _ Hco) as (items & Hl & Hne & Hv).
  rewrite (createOrder_ok _ _ _ _ Hl Hne Hv) in Hco. injection Hco as <- <-.
  pose proof (groupCartItemsByVendor_nonempty items Hne) as Hgroups.
  split_and!; try done.
  - destruct (groupCartItemsByVendor items); done.
  - simpl. rewrite length_app. f_equal.
    rewrite <- (numbered_snd (length (orders st))) at 1. by rewrite length_fmap.
  - apply cart_of_deleted.
  - intros. by apply cart_of_other.
  - intros addr. apply createOrder_empty_cart. apply cart_of_deleted.
Qed.

Lemma created_order_lines uid addr items n i o :
  (i, o) ∈ numbered n (new_order uid addr <$> groupCartItemsByVendor items) →
  Order.items o = order_item_of <$> lines_of_vendor (Order.vendorId o) items
  ∧ lines_of_vendor (Order.vendorId o) items ≠ [].
Proof.
  intros (j & _ & Hj)%numbered_elem.
  apply list_lookup_fmap_Some in Hj as ([v its] & -> & Hj%list_elem_of_lookup_2).
  destruct (groupCartItemsByVendor_groups_of items) as (_ & Hkeys & Hgroups).
  simpl. rewrite <- (Hgroups _ _ Hj). split; [done |].
  rewrite (Hgroups _ _ Hj).
  destruct (proj1 (Hkeys v)) as (item & Hitem & Hvendor).
  { apply list_elem_of_fmap. by exists (v, its). }
  intros Hnil. assert (item ∈ lines_of_vendor v items) as Hin
    by by apply list_elem_of_filter.
  rewrite Hnil in Hin. by apply elem_of_nil in Hin.
Qed.

(** X9. Every order that [createOrder] creates has at least one item, and
    each of its items is a product of the order's own vendor, which is
    approved; the product was active and the quantity ordered was within its
    stock when the order was made. *)
Theorem createOrder_items_purchasable st userId shippingAddress created st' i o :
  createOrder userId shippingAddress st = (Ok created, st') →
  (i, o) ∈ created →
  Order.items o ≠ []
  ∧ ∀ item, item ∈ Order.items o →
      ∃ p v,
        products st !! OrderItem.productId item = Some p
        ∧ Product.vendorId p = Order.vendorId o
        ∧ vendor_by_id (vendors st) (Order.vendorId o) = Some v
        ∧ Vendor.isApproved v = true
        ∧ Product.isActive p = true
        ∧ (OrderItem.quantity item ≤ Product.stock p)%Z.
Proof.
  intros Hco Hin.
  destruct (createOrder_Ok_inv _ _ _ _ _ Hco) as (items & Hl & Hne & Hv).
  rewrite (createOrder_ok _ _ _ _ Hl Hne Hv) in Hco. injection Hco as <- <-.
  apply created_order_lines in Hin as [-> Hnil]. split.
  - by destruct (lines_of_vendor (Order.vendorId o) items).
  - intros item (line & -> & [Hvendor Hline]%list_elem_of_filter)%list_elem_of_fmap.
    destruct (cart_lines_product _ _ _ _ Hl Hline) as [Hp Hvd].
    rewrite Forall_forall in Hv. destruct (Hv line Hline) as (Ha & Hap & Hq).
    exists (CartItemWithProduct.product line), (CartItemWithProduct.vendor line).
    simpl. split_and!; try done. by rewrite <- Hvendor.
Qed.

(** ** [getCart] *)

Lemma total_quantity_app l1 l2 :
  total_quantity (l1 ++ l2) = (total_quantity l1 + total_quantity l2)%Z.
Proof. induction l1 as [| x l1 IH]; simpl; [done |]. rewrite IH. lia. Qed.

#[global] Instance total_quantity_Permutation : Proper ((≡ₚ) ==> (=)) total_quantity.
Proof.
  intros l1 l2 Hperm.
  induction Hperm as [| x l1 l2 _ IH | x y l | l1 l2 l3 _ IH1 _ IH2]; simpl;
    [done | by rewrite IH | lia | congruence].
Qed.

Lemma item_count_total items : CartRouter.item_count items = total_quantity items.
Proof.
  unfold CartRouter.item_count.
  assert (∀ acc, fold_left (λ sum item, (sum + CartItemWithProduct.quantity item)%Z) items acc
                 = (acc + total_quantity items)%Z) as ->; [| done].
  induction items as [| item items IH]; intros acc; simpl; [lia |]. rewrite IH. lia.
Qed.

Lemma cart_vendors_total (groups : VendorGroups) :
  fold_left (λ sum vendor, (sum + CartVendor.itemCount vendor)%Z)
            (CartRouter.cart_vendor <$> groups) 0%Z
  = total_quantity (mjoin (groups.*2)).
Proof.
  assert (∀ acc,
            fold_left (λ sum vendor, (sum + CartVendor.itemCount vendor)%Z)
                      (CartRouter.cart_vendor <$> groups) acc
            = (acc + total_quantity (mjoin (groups.*2)))%Z) as ->; [| done].
  induction groups as [| [v its] groups IH]; intros acc; csimpl; [lia |].
  rewrite IH, total_quantity_app, item_count_total. lia.
Qed.

Lemma getCart_lines st userId items :
  cart_lines st userId = Some items →
  CartRouter.getCart userId st
  = (Ok (CartRouter.cart_vendor <$> groupCartItemsByVendor (reverse items),
         CartSummary.mk
           (fold_left (λ sum vendor, (sum + CartVendor.subtotal vendor)%float)
              (CartRouter.cart_vendor <$> groupCartItemsByVendor (reverse items)) 0%float)
           (total_quantity items)
           (length (groupCartItemsByVendor (reverse items)))), st).
Proof.
  intros Hl. unfold CartRouter.getCart, bind. rewrite (cartItem_findMany_lines _ _ _ Hl).
  unfold ret. rewrite cart_vendors_total, length_fmap.
  assert (total_quantity (mjoin (groupCartItemsByVendor (reverse items)).*2)
          = total_quantity items) as ->; [| done].
  by rewrite groupCartItemsByVendor_lines, reverse_Permutation.
Qed.

Lemma group_keys_distinct items :
  (groupCartItemsByVendor items).*1 ≡ₚ remove_dups (line_vendorId <$> items).
Proof.
  destruct (groupCartItemsByVendor_groups_of items) as (Hnd & Hkeys & _).
  apply NoDup_Permutation; [done | apply NoDup_remove_dups |].
  intros v. rewrite elem_of_remove_dups, Hkeys, list_elem_of_fmap.
  split; intros (item & ? & ?); by exists item.
Qed.

Lemma remove_dups_Permutation `{EqDecision A} (l k : list A) :
  l ≡ₚ k → remove_dups l ≡ₚ remove_dups k.
Proof.
  intros Hperm. apply NoDup_Permutation; [apply NoDup_remove_dups .. |].
  intros x. by rewrite !elem_of_remove_dups, Hperm.
Qed.

Lemma group_keys_reverse items :
  (groupCartItemsByVendor (reverse items)).*1 ≡ₚ remove_dups (line_vendorId <$> items).
Proof.
  rewrite group_keys_distinct. apply remove_dups_Permutation.
  by rewrite reverse_Permutation.
Qed.

Lemma cart_vendor_ids (groups : VendorGroups) :
  CartVendor.vendorId <$> (CartRouter.cart_vendor <$> groups) = groups.*1.
Proof. rewrite <- list_fmap_compose. apply list_fmap_ext. by intros ? [v its] ?. Qed.

(** An entry of [getCart] holds the lines of its vendor, and at least one. *)
Lemma cart_vendor_lines items vendor :
  vendor ∈ CartRouter.cart_vendor <$> groupCartItemsByVendor items →
  CartVendor.items vendor = lines_of_vendor (CartVendor.vendorId vendor) items
  ∧ CartVendor.items vendor ≠ []
  ∧ CartVendor.itemCount vendor = total_quantity (CartVendor.items vendor).
Proof.
  intros ([v its] & -> & Hin)%list_elem_of_fmap. simpl.
  destruct (groupCartItemsByVendor_groups_of items) as (_ & Hk & Hgroups).
  rewrite <- (Hgroups _ _ Hin). split_and!; [done | | apply item_count_total].
  rewrite (Hgroups _ _ Hin).
  destruct (proj1 (Hk v)) as (item & Hitem & Hvendor).
  { apply list_elem_of_fmap. by exists (v, its). }
  intros Hnil. assert (item ∈ lines_of_vendor v items) as Hin'
    by by apply list_elem_of_filter.
  rewrite Hnil in Hin'. by apply elem_of_nil in Hin'.
Qed.

(** X10. [getCart] shows the caller's cart split by vendor: one entry per
    distinct vendor of the cart, each holding exactly that vendor's lines
    (newest first) and the sum of their quantities as its item count;
    [totalItems] is the sum of the quantities of all the lines and
    [vendorCount] the number of distinct vendors.  The store is left as it
    was. *)
Theorem getCart_summary st userId items :
  cart_lines st userId = Some items →
  ∃ vendors summary,
    CartRouter.getCart userId st = (Ok (vendors, summary), st)
    ∧ CartSummary.totalItems summary = total_quantity items
    ∧ CartSummary.vendorCount summary = length (remove_dups (line_vendorId <$> items))
    ∧ CartVendor.vendorId <$> vendors ≡ₚ remove_dups (line_vendorId <$> items)
    ∧ ∀ vendor, vendor ∈ vendors →
        CartVendor.items vendor
        = lines_of_vendor (CartVendor.vendorId vendor) (reverse items)
        ∧ CartVendor.items vendor ≠ []
        ∧ CartVendor.itemCount vendor = total_quantity (CartVendor.items vendor).
Proof.
  intros Hl. eexists _, _. split; [by apply getCart_lines |]. simpl.
  pose proof (group_keys_reverse items) as Hkeys.
  split_and!.
  - done.
  - by rewrite <- Hkeys, length_fmap.
  - by rewrite cart_vendor_ids.
  - intros vendor. apply cart_vendor_lines.
Qed.

Lemma numbered_length {A} n (rows : list A) : length (numbered n rows) = length rows.
Proof. rewrite <- (numbered_snd n rows) at 2. by rewrite length_fmap. Qed.

(** X11. What [getCart] shows is what [createOrder] makes of the same
    store: a successful checkout creates as many orders as [getCart] counts
    vendors, one for each vendor entry, and the items of that order are the
    lines of the entry (same products and quantities, at the products'
    prices). *)
Theorem getCart_matches_checkout st userId shippingAddress vendors summary st1 created st' :
  CartRouter.getCart userId st = (Ok (vendors, summary), st1) →
  createOrder userId shippingAddress st = (Ok created, st') →
  length created = CartSummary.vendorCount summary
  ∧ Order.vendorId <$> created.*2 ≡ₚ CartVendor.vendorId <$> vendors
  ∧ ∀ vendor i o,
      vendor ∈ vendors → (i, o) ∈ created →
      Order.vendorId o = CartVendor.vendorId vendor →
      Order.items o ≡ₚ order_item_of <$> CartVendor.items vendor.
Proof.
  intros Hcart Hco.
  destruct (createOrder_Ok_inv _ _ _ _ _ Hco) as (items & Hl & Hne & Hv).
  rewrite (getCart_lines _ _ _ Hl) in Hcart. injection Hcart as <- <- _.
  rewrite (createOrder_ok _ _ _ _ Hl Hne Hv) in Hco. injection Hco as <- <-.
  rewrite numbered_snd, new_order_vendorIds. simpl.
  pose proof (group_keys_reverse items) as Hkeys.
  split_and!.
  - rewrite numbered_length, length_fmap.
    rewrite <- (length_fmap fst (groupCartItemsByVendor items)).
    rewrite <- (length_fmap fst (groupCartItemsByVendor (reverse items))).
    by rewrite Hkeys, group_keys_distinct.
  - by rewrite cart_vendor_ids, Hkeys, group_keys_distinct.
  - intros vendor i o Hvendor [-> _]%created_order_lines Hsame.
    destruct (cart_vendor_lines _ _ Hvendor) as (-> & _ & _). rewrite Hsame.
    unfold lines_of_vendor. by rewrite filter_reverse, reverse_Permutation.
Qed.

(** * The reads of the order router *)

Lemma numbered_fst {A} n (rows : list A) : (numbered n rows).*1 = seq n (length rows).
Proof. revert n. induction rows as [| r rows IH]; intros n; csimpl; [done |]. by rewrite IH. Qed.

Lemma numbered_lookup {A} (rows : list A) i r :
  (i, r) ∈ numbered 0 rows ↔ rows !! i = Some r.
Proof.
  split.
  - intros (j & -> & Hj)%numbered_elem. done.
  - assert (∀ n j, rows !! j = Some r → (n + j, r) ∈ numbered n rows) as Hgen.
    { induction rows as [| r0 rows IH]; intros n j Hj; [done |].
      destruct j as [| j]; simpl in *.
      - injection Hj as ->. rewrite Nat.add_0_r. left.
      - right. replace (n + S j) with (S n + j) by lia. by apply IH. }
    apply (Hgen 0).
Qed.

Lemma numbered_filter_length {A} (P : A → Prop) `{!∀ x, Decision (P x)} n (rows : list A) :
  length (filter (λ r, P r.2) (numbered n rows)) = length (filter P rows).
Proof.
  revert n. induction rows as [| r rows IH]; intros n; [done |]. simpl.
  destruct (decide (P r)).
  - rewrite !filter_cons_True by done. simpl. by rewrite IH.
  - rewrite !filter_cons_False by done. apply IH.
Qed.

Lemma selected_orders_elem st owner id status i o :
  (i, o) ∈ selected_orders st owner id status
  ↔ orders st !! i = Some o ∧ order_where owner id status o.
Proof.
  unfold selected_orders.
  rewrite elem_of_reverse, list_elem_of_filter, numbered_lookup. simpl. tauto.
Qed.

Lemma selected_orders_NoDup st owner id status :
  NoDup (selected_orders st owner id status).*1.
Proof.
  unfold selected_orders. rewrite fmap_reverse, reverse_Permutation.
  apply (sublist_NoDup _ (numbered 0 (orders st)).*1).
  - rewrite numbered_fst. apply NoDup_seq.
  - apply fmap_sublist, sublist_filter.
Qed.

Lemma selected_orders_length st owner id status :
  length (selected_orders st owner id status)
  = length (filter (order_where owner id status) (orders st)).
Proof. unfold selected_orders. by rewrite length_reverse, numbered_filter_length. Qed.

Lemma list_orders_result owner id input st :
  let selected := selected_orders st owner id (ListOrdersInput.status input) in
  list_orders owner id input st
  = (Ok (take (Pos.to_nat (ListOrdersInput.limit input))
           (drop ((Pos.to_nat (ListOrdersInput.page input) - 1)
                  * Pos.to_nat (ListOrdersInput.limit input)) selected),
         Pagination.mk (ListOrdersInput.page input) (ListOrdersInput.limit input)
           (length selected) (ceil_div (length selected) (ListOrdersInput.limit input))),
     st).
Proof.
  simpl. unfold list_orders, bind, order_findMany, order_count, ret.
  by rewrite selected_orders_length.
Qed.

Lemma page_of_selected {A} (l : list A) skip count x :
  x ∈ take count (drop skip l) → x ∈ l.
Proof. intros Hx%subseteq_take. by eapply subseteq_drop. Qed.

(** A page of a listing: at most [limit] orders, each one a row of the
    store that the listing selects, no row twice. *)
Lemma list_orders_page owner id input st :
  ∃ page pagination,
    list_orders owner id input st = (Ok (page, pagination), st)
    ∧ length page ≤ Pos.to_nat (ListOrdersInput.limit input)
    ∧ NoDup page.*1
    ∧ (∀ i o, (i, o) ∈ page →
         orders st !! i = Some o
         ∧ order_where owner id (ListOrdersInput.status input) o)
    ∧ Pagination.totalCount pagination
      = length (filter (order_where owner id (ListOrdersInput.status input)) (orders st)).
Proof.
  eexists _, _. split; [apply list_orders_result |]. simpl. split_and!.
  - rewrite length_take. lia.
  - apply (sublist_NoDup _ (selected_orders st owner id (ListOrdersInput.status input)).*1);
      [apply selected_orders_NoDup |].
    apply fmap_sublist. etrans; [apply sublist_take | apply sublist_drop].
  - intros i o Hin%page_of_selected. by apply selected_orders_elem.
  - apply selected_orders_length.
Qed.

(** X12. [getMyOrders] returns a page of the caller's own orders: at most
    [limit] of them, each a row of the store that belongs to the caller and
    has the requested status when one is given, no order twice; and
    [totalCount] is the number of the caller's orders with that status.  The
    store is left as it was. *)
Theorem getMyOrders_page st userId input :
  ∃ page pagination,
    getMyOrders userId input st = (Ok (page, pagination), st)
    ∧ length page ≤ Pos.to_nat (ListOrdersInput.limit (list_orders_input input))
    ∧ NoDup page.*1
    ∧ (∀ i o, (i, o) ∈ page →
         orders st !! i = Some o
         ∧ Order.userId o = userId
         ∧ ∀ s, ListOrdersInput.status (list_orders_input input) = Some s →
                Order.status o = s)
    ∧ Pagination.totalCount pagination
      = length (filter (order_where Order.userId userId
                          (ListOrdersInput.status (list_orders_input input)))
                       (orders st)).
Proof.
  destruct (list_orders_page Order.userId userId (list_orders_input input) st)
    as (page & pagination & Hres & Hlen & Hnd & Hin & Hcount).
  exists page, pagination. split_and!; try done.
  intros i o Hio. destruct (Hin i o Hio) as (Ho & Hu & Hs). split_and!; [done | done |].
  intros s Heq. by rewrite Heq in Hs.
Qed.

(** ** All the pages of a listing *)

Lemma ceil_div_spec totalCount limit :
  totalCount ≤ ceil_div totalCount limit * Pos.to_nat limit
  ∧ ceil_div totalCount limit * Pos.to_nat limit < totalCount + Pos.to_nat limit.
Proof.
  unfold ceil_div. pose proof (Pos2Nat.is_pos limit) as Hpos.
  pose proof (Nat.div_mod_eq totalCount (Pos.to_nat limit)) as Hdiv.
  pose proof (Nat.mod_upper_bound totalCount (Pos.to_nat limit)) as Hmod.
  destruct (Nat.eqb_spec (totalCount mod Pos.to_nat limit) 0); nia.
Qed.

Lemma pages_take {A} (l : list A) n m :
  mjoin ((λ k, take n (drop ((k - 1) * n) l)) <$> seq 1 m) = take (m * n) l.
Proof.
  induction m as [| m IH]; [done |].
  rewrite seq_S, fmap_app, join_app, IH. csimpl. rewrite app_nil_r.
  replace (m - 0) with m by lia. rewrite take_take_drop. f_equal. lia.
Qed.

Lemma page_nonempty {A} (l : list A) limit k :
  1 ≤ k →
  take (Pos.to_nat limit) (drop ((k - 1) * Pos.to_nat limit) l) ≠ []
  ↔ k ≤ ceil_div (length l) limit.
Proof.
  intros Hk. pose proof (Pos2Nat.is_pos limit) as Hpos.
  pose proof (ceil_div_spec (length l) limit) as [Hle Hlt].
  rewrite <- length_zero_iff_nil, length_take, length_drop.
  destruct k as [| k]; [lia |]. replace (S k - 1) with k by lia.
  assert (k * Pos.to_nat limit < length l ↔ S k ≤ ceil_div (length l) limit) as <-
    by (split; nia).
  lia.
Qed.

Lemma listed_list_orders owner id status k limit st :
  listed (list_orders owner id (ListOrdersInput.mk status k limit) st)
  = take (Pos.to_nat limit)
      (drop ((Pos.to_nat k - 1) * Pos.to_nat limit) (selected_orders st owner id status)).
Proof. unfold listed. by rewrite list_orders_result. Qed.

Lemma list_orders_pages owner id status limit st :
  let selected := selected_orders st owner id status in
  let page k := listed (list_orders owner id (ListOrdersInput.mk status k limit) st) in
  pages_upto (ceil_div (length selected) limit) page = selected
  ∧ ∀ k, page k ≠ [] ↔ Pos.to_nat k ≤ ceil_div (length selected) limit.
Proof.
  intros selected page. split.
  - unfold pages_upto.
    rewrite (list_fmap_ext _ (λ k, take (Pos.to_nat limit)
                                     (drop ((k - 1) * Pos.to_nat limit) selected))).
    + rewrite pages_take. apply take_ge. apply ceil_div_spec.
    + intros i k [-> Hi]%lookup_seq. unfold page. rewrite listed_list_orders.
      by rewrite Nat2Pos.id.
  - intros k. unfold page. rewrite listed_list_orders. apply page_nonempty.
    pose proof (Pos2Nat.is_pos k). lia.
Qed.

(** X13. The pages of [getMyOrders] for a given status and limit split the
    caller's orders with that status: every page reports the same
    [totalPages], the pages [1 .. totalPages] one after the other are
    exactly those orders, newest first, and a page holds an order if and
    only if its number is at most [totalPages]. *)
Theorem getMyOrders_pages st userId status limit :
  let selected := selected_orders st Order.userId userId status in
  let response k := getMyOrders userId (Some (ListOrdersInput.mk status k limit)) st in
  let totalPages := ceil_div (length selected) limit in
  (∀ k, ∃ page pagination,
      response k = (Ok (page, pagination), st)
      ∧ Pagination.totalPages pagination = totalPages)
  ∧ pages_upto totalPages (λ k, listed (response k)) = selected
  ∧ (∀ k, listed (response k) ≠ [] ↔ Pos.to_nat k ≤ totalPages).
Proof.
  intros selected response totalPages. split_and!.
  - intros k. eexists _, _. split; [apply list_orders_result | done].
  - apply (list_orders_pages Order.userId userId status limit st).
  - apply (list_orders_pages Order.userId userId status limit st).
Qed.

(** ** [getVendorOrders] *)

Lemma getVendorOrders_cases userId input st :
  getVendorOrders userId input st
  = match vendor_by_userId (vendors st) userId with
    | None => (Err FORBIDDEN, st)
    | Some vendor => list_orders Order.vendorId (Vendor.id vendor) (list_orders_input input) st
    end.
Proof.
  unfold getVendorOrders, bind at 1, getVendorProfile, bind at 1, vendor_findUnique.
  by destruct (vendor_by_userId (vendors st) userId).
Qed.

(** X14. [getVendorOrders] is for vendors: a caller without a vendor
    profile gets [FORBIDDEN]; a vendor, approved or not, gets a page of at
    most [limit] orders, each a row of the store that was placed with this
    vendor and has the requested status when one is given, no order twice.
    The pages [1 .. totalPages] together are all the orders of the vendor
    with that status.  The store is left as it was. *)
Theorem getVendorOrders_page st userId input :
  match vendor_by_userId (vendors st) userId with
  | None => getVendorOrders userId input st = (Err FORBIDDEN, st)
  | Some vendor =>
      let status := ListOrdersInput.status (list_orders_input input) in
      let limit := ListOrdersInput.limit (list_orders_input input) in
      let selected := selected_orders st Order.vendorId (Vendor.id vendor) status in
      (∃ page pagination,
          getVendorOrders userId input st = (Ok (page, pagination), st)
          ∧ length page ≤ Pos.to_nat limit
          ∧ NoDup page.*1
          ∧ (∀ i o, (i, o) ∈ page →
               orders st !! i = Some o
               ∧ owning_vendor st userId o
               ∧ ∀ s, status = Some s → Order.status o = s)
          ∧ Pagination.totalCount pagination = length selected
          ∧ Pagination.totalPages pagination = ceil_div (length selected) limit)
      ∧ pages_upto (ceil_div (length selected) limit)
          (λ k, listed (getVendorOrders userId
                          (Some (ListOrdersInput.mk status k limit)) st))
        = selected
  end.
Proof.
  destruct (vendor_by_userId (vendors st) userId) as [vendor |] eqn:Hv;
    [| by rewrite getVendorOrders_cases, Hv].
  intros status limit selected. split.
  - rewrite getVendorOrders_cases, Hv.
    destruct (list_orders_page Order.vendorId (Vendor.id vendor) (list_orders_input input) st)
      as (page & pagination & Hres & Hlen & Hnd & Hin & Hcount).
    exists page, pagination. split_and!; try done.
    + intros i o Hio. destruct (Hin i o Hio) as (Ho & Hu & Hs). split_and!; [done | |].
      * by exists vendor.
      * intros s Heq. fold status in Hs. by rewrite Heq in Hs.
    + rewrite Hcount. symmetry. apply selected_orders_length.
    + rewrite list_orders_result in Hres. by injection Hres as <- <-.
  - etrans; [| apply (list_orders_pages Order.vendorId (Vendor.id vendor) status limit st)].
    unfold pages_upto. f_equal. apply list_fmap_ext. intros _ k _.
    by rewrite getVendorOrders_cases, Hv.
Qed.

(** ** [getOrderById] *)

Lemma getOrderById_cases userId orderId st :
  getOrderById userId orderId st
  = match orders st !! orderId with
    | None => (Err NOT_FOUND, st)
    | Some o =>
        if decide (Order.userId o = userId) then (Ok o, st)
        else match vendor_by_userId (vendors st) userId with
             | Some vendor =>
                 if decide (Order.vendorId o = Vendor.id vendor) then (Ok o, st)
                 else (Err FORBIDDEN, st)
             | None => (Err FORBIDDEN, st)
             end
    end.
Proof.
  unfold getOrderById, bind at 1, order_findUnique.
  destruct (orders st !! orderId) as [o |]; [| done].
  unfold bind, vendor_findUnique.
  destruct (decide (Order.userId o = userId)).
  - by rewrite bool_decide_eq_true_2.
  - rewrite bool_decide_eq_false_2 by done.
    destruct (vendor_by_userId (vendors st) userId) as [vendor |]; [| done].
    destruct (decide (Order.vendorId o = Vendor.id vendor)).
    + by rewrite bool_decide_eq_true_2.
    + by rewrite bool_decide_eq_false_2.
Qed.

Lemma getOrderById_Ok userId orderId st o :
  (getOrderById userId orderId st).1 = Ok o
  ↔ orders st !! orderId = Some o ∧ (Order.userId o = userId ∨ owning_vendor st userId o).
Proof.
  rewrite getOrderById_cases. unfold owning_vendor. split.
  - intros Hres. destruct (orders st !! orderId) as [o' |]; [| done].
    destruct (decide (Order.userId o' = userId)).
    { injection Hres as ->. by split; [| left]. }
    destruct (vendor_by_userId (vendors st) userId) as [vendor |]; [| done].
    destruct (decide (Order.vendorId o' = Vendor.id vendor)); [| done].
    injection Hres as ->. split; [done |]. right. by exists vendor.
  - intros [Ho [Hu | (vendor & Hv & Hvid)]]; rewrite Ho.
    + by rewrite decide_True.
    + destruct (decide (Order.userId o = userId)); [done |].
      by rewrite Hv, decide_True.
Qed.

(** X15. [getOrderById] shows an order to its customer and to the vendor it
    was placed with, and to nobody else: the answer is [NOT_FOUND] when the
    store has no such order, the order itself when the caller is one of the
    two, and [FORBIDDEN] otherwise.  The store is left as it was. *)
Theorem getOrderById_access st userId orderId :
  (getOrderById userId orderId st).2 = st
  ∧ match orders st !! orderId with
    | None => (getOrderById userId orderId st).1 = Err NOT_FOUND
    | Some o =>
        (Order.userId o = userId ∨ owning_vendor st userId o →
         (getOrderById userId orderId st).1 = Ok o)
        ∧ (¬ (Order.userId o = userId ∨ owning_vendor st userId o) →
           (getOrderById userId orderId st).1 = Err FORBIDDEN)
    end.
Proof.
  split.
  - rewrite getOrderById_cases. destruct (orders st !! orderId) as [o |]; [| done].
    destruct (decide _); [done |]. destruct (vendor_by_userId _ _); [| done].
    by destruct (decide _).
  - destruct (orders st !! orderId) as [o |] eqn:Ho.
    + split.
      * intros Hacc. by apply getOrderById_Ok.
      * intros Hno. rewrite getOrderById_cases, Ho. unfold owning_vendor in Hno.
        destruct (decide (Order.userId o = userId)); [exfalso; apply Hno; by left |].
        destruct (vendor_by_userId (vendors st) userId) as [vendor |]; [| done].
        destruct (decide (Order.vendorId o = Vendor.id vendor)); [| done].
        exfalso. apply Hno. right. by exists vendor.
    + by rewrite getOrderById_cases, Ho.
Qed.

(** ** One order and the listings *)

Lemma list_orders_some_page owner id status limit st x :
  x ∈ selected_orders st owner id status
  ↔ ∃ k, x ∈ listed (list_orders owner id (ListOrdersInput.mk status k limit) st).
Proof.
  split.
  - intros Hx.
    rewrite <- (proj1 (list_orders_pages owner id status limit st)) in Hx.
    unfold pages_upto in Hx.
    apply list_elem_of_join in Hx as (page & Hx & Hpage).
    apply list_elem_of_fmap in Hpage as (k & -> & _). by exists (Pos.of_nat k).
  - intros [k Hx]. rewrite listed_list_orders in Hx. by eapply page_of_selected.
Qed.

(** X16. [getOrderById] and the listings show the same orders: a caller is
    shown an order by [getOrderById] if and only if the order is on one of
    the pages of the caller's [getMyOrders] or [getVendorOrders], whatever
    the page size. *)
Theorem getOrderById_agrees_with_listings st userId orderId o limit :
  (getOrderById userId orderId st).1 = Ok o
  ↔ ∃ k, (orderId, o)
           ∈ listed (getMyOrders userId (Some (ListOrdersInput.mk None k limit)) st)
         ∨ (orderId, o)
           ∈ listed (getVendorOrders userId (Some (ListOrdersInput.mk None k limit)) st).
Proof.
  rewrite getOrderById_Ok. split.
  - intros [Ho [Hu | (vendor & Hv & Hvid)]].
    + assert ((orderId, o) ∈ selected_orders st Order.userId userId None) as Hsel
        by by apply selected_orders_elem.
      apply (list_orders_some_page _ _ _ limit) in Hsel as [k Hk]. exists k. by left.
    + assert ((orderId, o) ∈ selected_orders st Order.vendorId (Vendor.id vendor) None)
        as Hsel by by apply selected_orders_elem.
      apply (list_orders_some_page _ _ _ limit) in Hsel as [k Hk]. exists k. right.
      by rewrite getVendorOrders_cases, Hv.
  - intros [k [Hk | Hk]].
    + assert ((orderId, o) ∈ selected_orders st Order.userId userId None) as Hsel
        by (apply (list_orders_some_page _ _ _ limit); by exists k).
      apply selected_orders_elem in Hsel as [Ho [Hu _]]. auto.
    + rewrite getVendorOrders_cases in Hk.
      destruct (vendor_by_userId (vendors st) userId) as [vendor |] eqn:Hv;
        [| by apply elem_of_nil in Hk].
      assert ((orderId, o) ∈ selected_orders st Order.vendorId (Vendor.id vendor) None)
        as Hsel by (apply (list_orders_some_page _ _ _ limit); by exists k).
      apply selected_orders_elem in Hsel as [Ho [Hu _]].
      split; [done |]. right. by exists vendor.
Qed.

(** ** What the order pages offer *)




(** * The product router *)

Lemma product_getVendorProfile_cases userId st :
  ProductRouter.getVendorProfile userId st
  = match approved_vendor st userId with
    | Some vendor => (Ok vendor, st)
    | None => (Err FORBIDDEN, st)
    end.
Proof.
  unfold ProductRouter.getVendorProfile, bind, vendor_findUnique, approved_vendor.
  destruct (vendor_by_userId (vendors st) userId) as [v |]; [| done].
  by destruct (Vendor.isApproved v).
Qed.

Lemma createProduct_cases userId input id st :
  ProductRouter.createProduct userId input id st
  = match approved_vendor st userId with
    | None => (Err FORBIDDEN, st)
    | Some vendor =>
        if decide (CreateProductInput.categoryId input ∈ categories st) then
          product_create id
            (Product.mk (Vendor.id vendor) (CreateProductInput.categoryId input)
                        (CreateProductInput.name input) (CreateProductInput.description input)
                        (CreateProductInput.price input) (CreateProductInput.stock input) true)
            st
        else (Err NOT_FOUND, st)
    end.
Proof.
  unfold ProductRouter.createProduct, bind at 1. rewrite product_getVendorProfile_cases.
  destruct (approved_vendor st userId) as [vendor |]; [| done].
  unfold bind, category_findUnique.
  destruct (decide (CreateProductInput.categoryId input ∈ categories st)).
  - by rewrite bool_decide_eq_true_2.
  - by rewrite bool_decide_eq_false_2.
Qed.

Lemma check_category_cases categoryId st :
  ProductRouter.check_category categoryId st
  = if decide (category_missing st categoryId) then (Err NOT_FOUND, st) else (Ok (), st).
Proof.
  unfold ProductRouter.check_category, category_missing.
  destruct categoryId as [c |]; [| done].
  unfold bind, category_findUnique.
  destruct (decide (c ∈ categories st)).
  - rewrite bool_decide_eq_true_2 by done. by rewrite decide_False by (intros ?; done).
  - rewrite bool_decide_eq_false_2 by done. by rewrite decide_True.
Qed.

Lemma updateProduct_cases userId input st :
  ProductRouter.updateProduct userId input st
  = match approved_vendor st userId with
    | None => (Err FORBIDDEN, st)
    | Some vendor =>
        match products st !! UpdateProductInput.productId input with
        | None => (Err NOT_FOUND, st)
        | Some p =>
            if decide (Product.vendorId p ≠ Vendor.id vendor) then (Err FORBIDDEN, st)
            else if decide (category_missing st (UpdateProductInput.categoryId input))
            then (Err NOT_FOUND, st)
            else (Ok (),
                  with_products (<[UpdateProductInput.productId input
                                   := ProductRouter.apply_update input p]> (products st)) st)
        end
    end.
Proof.
  unfold ProductRouter.updateProduct, bind at 1. rewrite product_getVendorProfile_cases.
  destruct (approved_vendor st userId) as [vendor |]; [| done].
  unfold bind at 1, product_findUnique.
  destruct (products st !! UpdateProductInput.productId input) as [p |] eqn:Hp; [| done].
  destruct (decide (Product.vendorId p ≠ Vendor.id vendor));
    [by rewrite bool_decide_eq_true_2 | rewrite bool_decide_eq_false_2 by done].
  unfold bind. rewrite check_category_cases.
  destruct (decide (category_missing st (UpdateProductInput.categoryId input))); [done |].
  unfold product_update. by rewrite Hp.
Qed.

Lemma deleteProduct_cases userId productId st :
  ProductRouter.deleteProduct userId productId st
  = match approved_vendor st userId with
    | None => (Err FORBIDDEN, st)
    | Some vendor =>
        match products st !! productId with
        | None => (Err NOT_FOUND, st)
        | Some p =>
            if decide (Product.vendorId p ≠ Vendor.id vendor) then (Err FORBIDDEN, st)
            else (Ok (),
                  with_products (<[productId := ProductRouter.soft_delete p]> (products st)) st)
        end
    end.
Proof.
  unfold ProductRouter.deleteProduct, bind at 1. rewrite product_getVendorProfile_cases.
  destruct (approved_vendor st userId) as [vendor |]; [| done].
  unfold bind at 1, product_findUnique.
  destruct (products st !! productId) as [p |] eqn:Hp; [| done].
  destruct (decide (Product.vendorId p ≠ Vendor.id vendor));
    [by rewrite bool_decide_eq_true_2 | rewrite bool_decide_eq_false_2 by done].
  unfold product_update. by rewrite Hp.
Qed.

Lemma getMyProducts_cases userId st :
  getMyProducts userId st
  = match approved_vendor st userId with
    | None => (Err FORBIDDEN, st)
    | Some vendor =>
        (Ok (map_to_list (filter (λ row, Product.vendorId row.2 = Vendor.id vendor)
                            (products st))), st)
    end.
Proof.
  unfold getMyProducts, bind. rewrite product_getVendorProfile_cases.
  by destruct (approved_vendor st userId).
Qed.

Lemma getProduct_cases productId st :
  getProduct productId st
  = match products st !! productId with
    | None => (Err NOT_FOUND, st)
    | Some p => if Product.isActive p then (Ok p, st) else (Err NOT_FOUND, st)
    end.
Proof.
  unfold getProduct, bind, product_findUnique.
  destruct (products st !! productId) as [p |]; [| done]. by destruct (Product.isActive p).
Qed.

(** X18. The product router is for approved vendors: for a caller with no
    vendor profile, or with one that is not approved, [createProduct],
    [updateProduct], [deleteProduct] and [getMyProducts] all answer
    [FORBIDDEN], whatever their input, and leave the store as it was. *)
Theorem product_router_needs_approved_vendor st userId :
  approved_vendor st userId = None →
  (∀ input id, ProductRouter.createProduct userId input id st = (Err FORBIDDEN, st))
  ∧ (∀ input, ProductRouter.updateProduct userId input st = (Err FORBIDDEN, st))
  ∧ (∀ productId, ProductRouter.deleteProduct userId productId st = (Err FORBIDDEN, st))
  ∧ getMyProducts userId st = (Err FORBIDDEN, st).
Proof.
  intros Hv. split_and!; intros.
  - by rewrite createProduct_cases, Hv.
  - by rewrite updateProduct_cases, Hv.
  - by rewrite deleteProduct_cases, Hv.
  - by rewrite getMyProducts_cases, Hv.
Qed.

Lemma product_create_rows id p st pid q :
  products st !! pid = Some q → products (product_create id p st).2 !! pid = Some q.
Proof.
  intros Hq. unfold product_create. destruct (products st !! id) eqn:Hid; [done |].
  simpl. rewrite lookup_insert_ne; [done |]. congruence.
Qed.

Lemma product_create_rest id p st : same_but_products st (product_create id p st).2.
Proof. unfold product_create. by destruct (products st !! id). Qed.

(** X19. A vendor changes only its own products.  A write of the product
    router by some caller leaves every product row that the caller does not
    own exactly as it was, and [createProduct] leaves every existing row as
    it was; none of the three writes a vendor, a category, a cart line or an
    order. *)
Theorem product_writes_touch_own_products st userId pid p :
  products st !! pid = Some p →
  (∀ input id,
     let st' := (ProductRouter.createProduct userId input id st).2 in
     products st' !! pid = Some p ∧ same_but_products st st')
  ∧ (∀ input,
       let st' := (ProductRouter.updateProduct userId input st).2 in
       (¬ owns_product st userId p → products st' !! pid = Some p)
       ∧ (UpdateProductInput.productId input ≠ pid → products st' !! pid = Some p)
       ∧ same_but_products st st')
  ∧ (∀ productId,
       let st' := (ProductRouter.deleteProduct userId productId st).2 in
       (¬ owns_product st userId p → products st' !! pid = Some p)
       ∧ (productId ≠ pid → products st' !! pid = Some p)
       ∧ same_but_products st st').
Proof.
  intros Hp. unfold owns_product. split_and!.
  - intros input id. simpl. rewrite createProduct_cases.
    destruct (approved_vendor st userId) as [vendor |]; [| done].
    destruct (decide _); [| done].
    split; [by apply product_create_rows | apply product_create_rest].
  - intros input. simpl. rewrite updateProduct_cases.
    destruct (approved_vendor st userId) as [vendor |]; [| done].
    destruct (products st !! UpdateProductInput.productId input) as [q |] eqn:Hq; [| done].
    destruct (decide (Product.vendorId q ≠ Vendor.id vendor)) as [| Hown]; [done |].
    destruct (decide (category_missing _ _)); [done |]. simpl.
    split_and!; [| | done].
    + intros Hno. rewrite lookup_insert_ne; [done |]. intros <-.
      apply Hno. exists vendor. split; [done |].
      assert (q = p) as -> by congruence. by destruct (decide (Product.vendorId p = Vendor.id vendor)).
    + intros Hne. by rewrite lookup_insert_ne.
  - intros productId. simpl. rewrite deleteProduct_cases.
    destruct (approved_vendor st userId) as [vendor |]; [| done].
    destruct (products st !! productId) as [q |] eqn:Hq; [| done].
    destruct (decide (Product.vendorId q ≠ Vendor.id vendor)) as [| Hown]; [done |]. simpl.
    split_and!; [| | done].
    + intros Hno. rewrite lookup_insert_ne; [done |]. intros <-.
      apply Hno. exists vendor. split; [done |].
      assert (q = p) as -> by congruence. by destruct (decide (Product.vendorId p = Vendor.id vendor)).
    + intros Hne. by rewrite lookup_insert_ne.
Qed.

(** ** What the public sees of a product *)

Lemma getProduct_Ok productId st p :
  (getProduct productId st).1 = Ok p
  ↔ products st !! productId = Some p ∧ Product.isActive p = true.
Proof.
  rewrite getProduct_cases. destruct (products st !! productId) as [q |].
  - destruct (Product.isActive q) eqn:Ha; simpl.
    + split; [by intros [= ->] | by intros [[= ->] _]].
    + split; [done | intros [[= ->] ?]; congruence].
  - simpl. split; [done | by intros [? _]].
Qed.

Lemma getMyProducts_rows userId vendor st :
  approved_vendor st userId = Some vendor →
  ∃ rows, getMyProducts userId st = (Ok rows, st)
          ∧ NoDup rows.*1
          ∧ ∀ id p, (id, p) ∈ rows
                    ↔ products st !! id = Some p ∧ Product.vendorId p = Vendor.id vendor.
Proof.
  intros Hv. rewrite getMyProducts_cases, Hv. eexists. split; [done |]. split.
  - apply NoDup_fst_map_to_list.
  - intros id p. by rewrite elem_of_map_to_list, map_lookup_filter_Some.
Qed.

(** X20. What the reads of the product router show.  [getProduct] shows a
    product to anybody if and only if the product is in the store and
    active, and answers [NOT_FOUND] otherwise; [getMyProducts] lists to an
    approved vendor exactly the products of that vendor, each once, active
    or not.  Every product that [addToCart] accepts is one that
    [getProduct] shows. *)
Theorem product_visibility st :
  (∀ productId p,
     (getProduct productId st).1 = Ok p
     ↔ products st !! productId = Some p ∧ Product.isActive p = true)
  ∧ (∀ productId,
       (∀ p, (getProduct productId st).1 ≠ Ok p) →
       getProduct productId st = (Err NOT_FOUND, st))
  ∧ (∀ userId vendor,
       approved_vendor st userId = Some vendor →
       ∃ rows, getMyProducts userId st = (Ok rows, st)
               ∧ NoDup rows.*1
               ∧ ∀ id p, (id, p) ∈ rows
                         ↔ products st !! id = Some p
                           ∧ Product.vendorId p = Vendor.id vendor)
  ∧ (∀ userId productId quantity row st',
       CartRouter.addToCart userId productId quantity st = (Ok row, st') →
       ∃ p, getProduct productId st = (Ok p, st)).
Proof.
  split_and!.
  - intros. apply getProduct_Ok.
  - intros productId Hno. rewrite getProduct_cases in *.
    destruct (products st !! productId) as [q |]; [| done].
    destruct (Product.isActive q); [| done]. by destruct (Hno q).
  - intros. by apply getMyProducts_rows.
  - intros userId productId quantity row st'
      (p & v & Hp & _ & Ha & _)%addToCart_Ok_inv.
    exists p. by rewrite getProduct_cases, Hp, Ha.
Qed.

(** ** [deleteProduct] *)

Lemma deleteProduct_Ok_inv userId productId st st' :
  ProductRouter.deleteProduct userId productId st = (Ok (), st') →
  ∃ vendor p,
    approved_vendor st userId = Some vendor
    ∧ products st !! productId = Some p
    ∧ Product.vendorId p = Vendor.id vendor
    ∧ st' = with_products (<[productId := ProductRouter.soft_delete p]> (products st)) st.
Proof.
  rewrite deleteProduct_cases.
  destruct (approved_vendor st userId) as [vendor |]; [| done].
  destruct (products st !! productId) as [p |]; [| done].
  destruct (decide (Product.vendorId p ≠ Vendor.id vendor)) as [| Hown]; [done |].
  intros [= <-]. exists vendor, p. split_and!; try done.
  by destruct (decide (Product.vendorId p = Vendor.id vendor)).
Qed.

Lemma cart_lines_elem st uid items ci :
  cart_lines st uid = Some items → ci ∈ cartItems st → CartItem.userId ci = uid →
  ∃ item, item ∈ items ∧ CartItemWithProduct.productId item = CartItem.productId ci.
Proof.
  intros Hlines Hci Hu.
  assert (ci ∈ cart_of uid (cartItems st)) as [i Hi]%list_elem_of_lookup
    by by apply list_elem_of_filter.
  apply mapM_Some_1 in Hlines.
  destruct (Forall2_lookup_l _ _ _ _ _ Hlines Hi) as (item & Hitem & Hjoin).
  exists item. split; [by eapply list_elem_of_lookup_2 |].
  unfold include_product in Hjoin. repeat case_match; try done. by injection Hjoin as <-.
Qed.

(** X21. [deleteProduct] is a soft delete.  When it succeeds the product
    was the caller's; its row stays in the store with [isActive] off and
    every other field as before, and no other product and no order is
    touched.  From then on [getProduct] answers [NOT_FOUND] for it, while
    [getMyProducts] still lists it to its vendor; [addToCart] refuses it
    for every user and quantity; a cart that holds it cannot be checked
    out; and deleting it again succeeds and changes nothing. *)
Theorem deleteProduct_soft_delete st userId productId st' :
  ProductRouter.deleteProduct userId productId st = (Ok (), st') →
  ∃ p,
    products st !! productId = Some p
    ∧ owns_product st userId p
    ∧ products st' = <[productId := ProductRouter.soft_delete p]> (products st)
    ∧ same_but_products st st'
    ∧ getProduct productId st' = (Err NOT_FOUND, st')
    ∧ (∃ rows, getMyProducts userId st' = (Ok rows, st')
               ∧ (productId, ProductRouter.soft_delete p) ∈ rows)
    ∧ (∀ user quantity row st'',
         CartRouter.addToCart user productId quantity st' ≠ (Ok row, st''))
    ∧ (∀ user shippingAddress created st'' ci,
         ci ∈ cartItems st' → CartItem.userId ci = user →
         CartItem.productId ci = productId →
         createOrder user shippingAddress st' ≠ (Ok created, st''))
    ∧ ProductRouter.deleteProduct userId productId st' = (Ok (), st').
Proof.
  intros (vendor & p & Hv & Hp & Hown & ->)%deleteProduct_Ok_inv.
  set (st' := with_products _ st).
  assert (products st' !! productId = Some (ProductRouter.soft_delete p)) as Hp'
    by apply lookup_insert_eq.
  assert (approved_vendor st' userId = Some vendor) as Hv' by done.
  exists p. split_and!; try done.
  - by exists vendor.
  - by rewrite getProduct_cases, Hp'.
  - destruct (getMyProducts_rows userId vendor st' Hv') as (rows & Hrows & _ & Hin).
    exists rows. split; [done |]. by apply Hin.
  - intros user quantity row st'' (q & v & Hq & _ & Ha & _)%addToCart_Ok_inv.
    rewrite Hp' in Hq. injection Hq as <-. done.
  - intros user shippingAddress created st'' ci Hci Hu Hpid
      (items & Hl & _ & Hvalid)%createOrder_Ok_inv.
    destruct (cart_lines_elem _ _ _ _ Hl Hci Hu) as (item & Hitem & Hkey).
    destruct (cart_lines_product _ _ _ _ Hl Hitem) as [Hprod _].
    rewrite Hkey, Hpid, Hp' in Hprod. injection Hprod as Hprod.
    rewrite Forall_forall in Hvalid. destruct (Hvalid item Hitem) as [Ha _].
    by rewrite <- Hprod in Ha.
  - rewrite deleteProduct_cases, Hv', Hp'.
    rewrite decide_False by (intros ?; done).
    unfold st', with_products. simpl. by rewrite insert_insert_eq.
Qed.

(** ** [createProduct] *)

(** X22. A successful [createProduct] was called by an approved vendor with
    a category of the store; it adds one row under a fresh id, active, owned
    by the caller's vendor and holding the fields of the input, and touches
    nothing else.  The new product is at once shown by [getProduct], listed
    by the vendor's [getMyProducts], and the vendor can delete it. *)
Theorem createProduct_adds_active_product st userId input id p st' :
  ProductRouter.createProduct userId input id st = (Ok p, st') →
  ∃ vendor,
    approved_vendor st userId = Some vendor
    ∧ CreateProductInput.categoryId input ∈ categories st
    ∧ products st !! id = None
    ∧ p = Product.mk (Vendor.id vendor) (CreateProductInput.categoryId input)
                     (CreateProductInput.name input) (CreateProductInput.description input)
                     (CreateProductInput.price input) (CreateProductInput.stock input) true
    ∧ products st' = <[id := p]> (products st)
    ∧ same_but_products st st'
    ∧ getProduct id st' = (Ok p, st')
    ∧ (∃ rows, getMyProducts userId st' = (Ok rows, st') ∧ (id, p) ∈ rows)
    ∧ (ProductRouter.deleteProduct userId id st').1 = Ok ().
Proof.
  rewrite createProduct_cases.
  destruct (approved_vendor st userId) as [vendor |] eqn:Hv; [| done].
  destruct (decide (CreateProductInput.categoryId input ∈ categories st)); [| done].
  unfold product_create. destruct (products st !! id) eqn:Hid; [done |].
  intros [= <- <-]. set (p := Product.mk _ _ _ _ _ _ _). set (st' := with_products _ st).
  assert (products st' !! id = Some p) as Hp' by apply lookup_insert_eq.
  assert (approved_vendor st' userId = Some vendor) as Hv' by done.
  exists vendor. split_and!; try done.
  - by rewrite getProduct_cases, Hp'.
  - destruct (getMyProducts_rows userId vendor st' Hv') as (rows & Hrows & _ & Hin).
    exists rows. split; [done |]. by apply Hin.
  - rewrite deleteProduct_cases, Hv', Hp'. by rewrite decide_False by (intros ?; done).
Qed.

(** ** A product row over the operations *)

Lemma only_stock_refl p : only_stock p p.
Proof. unfold only_stock. by destruct p. Qed.

Lemma only_stock_set_stock s p : only_stock p (Product.set_stock s p).
Proof. unfold only_stock. by destruct p. Qed.

Lemma step_product_row op st pid p :
  products st !! pid = Some p →
  ∃ p', products (step op st) !! pid = Some p'
        ∧ Product.vendorId p' = Product.vendorId p
        ∧ (¬ product_router_op op → only_stock p p').
Proof.
  intros Hp.
  assert (∀ s, ∃ p', Some (Product.set_stock s p) = Some p'
                     ∧ Product.vendorId p' = Product.vendorId p
                     ∧ (¬ False → only_stock p p')) as Hstock.
  { intros s. eexists. split; [done |]. split; [by destruct p |].
    intros _. apply only_stock_set_stock. }
  assert (∃ p', Some p = Some p'
                ∧ Product.vendorId p' = Product.vendorId p
                ∧ (¬ False → only_stock p p')) as Hsame.
  { exists p. split; [done |]. split; [done |]. intros _. apply only_stock_refl. }
  assert (∃ p', Some p = Some p'
                ∧ Product.vendorId p' = Product.vendorId p
                ∧ (¬ True → only_stock p p')) as Hwrite.
  { exists p. split; [done |]. split; [done |]. by intros []. }
  destruct op; simpl.
  - destruct (createOrder_state userId shippingAddress st) as [-> | (items & _ & ->)].
    + by rewrite Hp.
    + rewrite checkout_state_products, Hp. apply Hstock.
  - rewrite updateOrderStatus_cases.
    destruct (vendor_by_userId _ _); [| simpl; by rewrite Hp].
    destruct (orders st !! orderId) as [o |]; [| simpl; by rewrite Hp].
    repeat case_decide; simpl; try (by rewrite Hp).
    rewrite update_all_increment, Hp. apply Hstock.
  - rewrite cancelOrder_cases.
    destruct (orders st !! orderId) as [o |]; [| simpl; by rewrite Hp].
    repeat case_decide; simpl; try (by rewrite Hp).
    rewrite update_all_increment, Hp. apply Hstock.
  - rewrite createProduct_cases.
    destruct (approved_vendor st userId); [| simpl; by rewrite Hp].
    destruct (decide _); [| simpl; by rewrite Hp].
    by rewrite (product_create_rows _ _ _ _ _ Hp).
  - rewrite updateProduct_cases.
    destruct (approved_vendor st userId) as [vendor |]; [| simpl; by rewrite Hp].
    destruct (products st !! UpdateProductInput.productId input) as [q |] eqn:Hq;
      [| simpl; by rewrite Hp].
    repeat case_decide; simpl; try (by rewrite Hp).
    destruct (decide (UpdateProductInput.productId input = pid)) as [Heq | Hne].
    + rewrite Heq, lookup_insert_eq. eexists. split; [done |]. split; [| by intros []].
      simpl. congruence.
    + rewrite lookup_insert_ne by done. by rewrite Hp.
  - rewrite deleteProduct_cases.
    destruct (approved_vendor st userId) as [vendor |]; [| simpl; by rewrite Hp].
    destruct (products st !! productId) as [q |] eqn:Hq; [| simpl; by rewrite Hp].
    repeat case_decide; simpl; try (by rewrite Hp).
    destruct (decide (productId = pid)) as [Heq | Hne].
    + rewrite Heq, lookup_insert_eq. eexists. split; [done |]. split; [| by intros []].
      simpl. congruence.
    + rewrite lookup_insert_ne by done. by rewrite Hp.
  - by rewrite Hp.
Qed.

Lemma run_product_row ops st pid p :
  products st !! pid = Some p →
  ∃ p', products (run ops st) !! pid = Some p' ∧ Product.vendorId p' = Product.vendorId p.
Proof.
  revert st p. induction ops as [| op ops IH]; intros st p Hp; simpl.
  - by exists p.
  - destruct (step_product_row op st pid p Hp) as (p1 & Hp1 & Hv1 & _).
    destruct (IH _ _ Hp1) as (p2 & Hp2 & Hv2). exists p2. split; [done | congruence].
Qed.

(** X23. A product row is never removed and never changes hands: after any
    operation the row is still in the store under the same id and with the
    same vendor; an operation that is not a write of the product router
    changes at most its [stock]; and so after any sequence of operations the
    product is still there and still belongs to the vendor that created it. *)
Theorem product_rows_are_permanent st pid p :
  products st !! pid = Some p →
  (∀ op, ∃ p', products (step op st) !! pid = Some p'
               ∧ Product.vendorId p' = Product.vendorId p
               ∧ (¬ product_router_op op → only_stock p p'))
  ∧ (∀ ops, ∃ p', products (run ops st) !! pid = Some p'
                  ∧ Product.vendorId p' = Product.vendorId p).
Proof.
  intros Hp. split.
  - intros op. by apply step_product_row.
  - intros ops. by apply run_product_row.
Qed.

(** ** Orders of one vendor *)

Lemma step_new_order_vendor op st i o' :
  orders st !! i = None → orders (step op st) !! i = Some o' →
  Forall (λ item, ∃ p, products st !! OrderItem.productId item = Some p
                       ∧ Product.vendorId p = Order.vendorId o')
         (Order.items o').
Proof.
  intros Hnone. destruct op; simpl.
  - destruct (createOrder_state userId shippingAddress st) as [-> | (items & Hl & ->)];
      [congruence |]. simpl.
    rewrite lookup_app_r by by apply lookup_ge_None.
    intros ([v its] & -> & Hin%list_elem_of_lookup_2)%list_lookup_fmap_Some.
    destruct (groupCartItemsByVendor_groups_of items) as (_ & _ & Hgroups).
    rewrite (Hgroups _ _ Hin). simpl.
    rewrite Forall_fmap. apply Forall_forall.
    intros line [Hvendor Hline]%list_elem_of_filter. simpl.
    destruct (cart_lines_product _ _ _ _ Hl Hline) as [-> _]. by eexists.
  - rewrite updateOrderStatus_cases.
    destruct (vendor_by_userId _ _); [| simpl; congruence].
    destruct (orders st !! orderId) as [o |]; [| simpl; congruence].
    repeat case_decide; simpl; try congruence; by rewrite insert_lookup_None.
  - rewrite cancelOrder_cases.
    destruct (orders st !! orderId) as [o |]; [| simpl; congruence].
    repeat case_decide; simpl; try congruence; by rewrite insert_lookup_None.
  - rewrite createProduct_orders. congruence.
  - rewrite updateProduct_orders. congruence.
  - rewrite deleteProduct_orders. congruence.
  - congruence.
Qed.

Lemma step_orders_single_vendor op st :
  orders_single_vendor st → orders_single_vendor (step op st).
Proof.
  intros Hinv i o' Ho'.
  assert (Forall (λ item, ∃ p, products st !! OrderItem.productId item = Some p
                               ∧ Product.vendorId p = Order.vendorId o')
                 (Order.items o')) as Hbefore.
  { destruct (orders st !! i) as [o |] eqn:Ho.
    - destruct (step_evolves op st i o Ho) as (o'' & Ho'' & He).
      assert (o'' = o') as -> by congruence.
      destruct He as (_ & -> & _ & _ & -> & _). by eapply Hinv.
    - by eapply step_new_order_vendor. }
  eapply Forall_impl; [exact Hbefore |]. simpl.
  intros item (p & Hp & Hv).
  destruct (step_product_row op st _ p Hp) as (p' & Hp' & Hv' & _).
  exists p'. split; [done | congruence].
Qed.

(** X24. Every order stays an order of one vendor.  If each item of each
    order is a product of the vendor the order was placed with, the same
    holds after any sequence of operations: for the orders that were there,
    whose items and vendor never change, and for every order that a
    checkout adds in between. *)
Theorem orders_stay_single_vendor ops st :
  orders_single_vendor st → orders_single_vendor (run ops st).
Proof.
  revert st. induction ops as [| op ops IH]; intros st Hinv; [done |].
  simpl. by apply IH, step_orders_single_vendor.
Qed.

(** * The cart router, continued *)

(** ** [updateCartItemQuantity] and [removeFromCart] *)

Lemma updateCartItemQuantity_cases userId cartItemId quantity st :
  CartRouter.updateCartItemQuantity userId cartItemId quantity st
  = match cartItems st !! cartItemId with
    | None => (Err NOT_FOUND, st)
    | Some ci =>
        match products st !! CartItem.productId ci with
        | None => (Err INTERNAL_SERVER_ERROR, st)
        | Some p =>
            if decide (CartItem.userId ci ≠ userId) then (Err FORBIDDEN, st)
            else if (quantity >? Product.stock p)%Z then (Err BAD_REQUEST, st)
            else (Ok (CartItem.mk (CartItem.userId ci) (CartItem.productId ci) quantity),
                  with_cartItems
                    (<[cartItemId := CartItem.mk (CartItem.userId ci) (CartItem.productId ci)
                                       quantity]> (cartItems st)) st)
        end
    end.
Proof.
  unfold CartRouter.updateCartItemQuantity, bind, cartItem_findUnique_product.
  destruct (cartItems st !! cartItemId) as [ci |] eqn:Hci; [| done].
  destruct (products st !! CartItem.productId ci) as [p |]; [| done].
  destruct (decide (CartItem.userId ci ≠ userId));
    [by rewrite bool_decide_eq_true_2 | rewrite bool_decide_eq_false_2 by done].
  destruct (quantity >? Product.stock p)%Z; [done |].
  unfold cartItem_update. by rewrite Hci.
Qed.

Lemma removeFromCart_cases userId cartItemId st :
  CartRouter.removeFromCart userId cartItemId st
  = match cartItems st !! cartItemId with
    | None => (Err NOT_FOUND, st)
    | Some ci =>
        if decide (CartItem.userId ci ≠ userId) then (Err FORBIDDEN, st)
        else (Ok (), with_cartItems (delete cartItemId (cartItems st)) st)
    end.
Proof.
  unfold CartRouter.removeFromCart, bind, cartItem_findUnique_id.
  destruct (cartItems st !! cartItemId) as [ci |] eqn:Hci; [| done].
  destruct (decide (CartItem.userId ci ≠ userId));
    [by rewrite bool_decide_eq_true_2 | rewrite bool_decide_eq_false_2 by done].
  unfold cartItem_delete. by rewrite Hci.
Qed.

Lemma updateCartItemQuantity_Ok_inv userId cartItemId quantity st row st' :
  CartRouter.updateCartItemQuantity userId cartItemId quantity st = (Ok row, st') →
  ∃ ci p,
    cartItems st !! cartItemId = Some ci
    ∧ CartItem.userId ci = userId
    ∧ products st !! CartItem.productId ci = Some p
    ∧ (quantity ≤ Product.stock p)%Z
    ∧ row = CartItem.mk userId (CartItem.productId ci) quantity
    ∧ st' = with_cartItems (<[cartItemId := row]> (cartItems st)) st.
Proof.
  rewrite updateCartItemQuantity_cases.
  destruct (cartItems st !! cartItemId) as [ci |]; [| done].
  destruct (products st !! CartItem.productId ci) as [p |] eqn:Hp; [| done].
  destruct (decide (CartItem.userId ci ≠ userId)) as [| Hu]; [done |].
  destruct (Z.gtb_spec quantity (Product.stock p)); [done |].
  intros [= <- <-]. exists ci, p.
  assert (CartItem.userId ci = userId) as Heq
    by by destruct (decide (CartItem.userId ci = userId)).
  rewrite Heq. split_and!; done.
Qed.

Lemma removeFromCart_Ok_inv userId cartItemId st st' :
  CartRouter.removeFromCart userId cartItemId st = (Ok (), st') →
  ∃ ci, cartItems st !! cartItemId = Some ci
        ∧ CartItem.userId ci = userId
        ∧ st' = with_cartItems (delete cartItemId (cartItems st)) st.
Proof.
  rewrite removeFromCart_cases.
  destruct (cartItems st !! cartItemId) as [ci |]; [| done].
  destruct (decide (CartItem.userId ci ≠ userId)) as [| Hu]; [done |].
  intros [= <-]. exists ci. split_and!; try done.
  by destruct (decide (CartItem.userId ci = userId)).
Qed.

(** A table around one of its rows. *)
Lemma lookup_middle {A} (l : list A) i x y :
  l !! i = Some x →
  l = take i l ++ x :: drop (S i) l
  ∧ <[i := y]> l = take i l ++ y :: drop (S i) l
  ∧ delete i l = take i l ++ drop (S i) l.
Proof.
  intros Hi. split_and!.
  - by rewrite take_drop_middle.
  - apply insert_take_drop. by eapply lookup_lt_Some.
  - apply delete_take_drop.
Qed.

Lemma cart_key_unique (cs : list CartItem.t) :
  NoDup (cart_key <$> cs)
  ↔ NoDup ((λ ci, (CartItem.userId ci, CartItem.productId ci)) <$> cs).
Proof. done. Qed.

Lemma cart_unique_insert (cs : list CartItem.t) i ci row :
  cs !! i = Some ci → cart_key row = cart_key ci →
  NoDup (cart_key <$> cs) → NoDup (cart_key <$> <[i := row]> cs).
Proof.
  intros Hi Hkey Hnd. rewrite list_fmap_insert, Hkey, list_insert_id; [done |].
  by rewrite list_lookup_fmap, Hi.
Qed.

Lemma cart_unique_delete (cs : list CartItem.t) i :
  NoDup (cart_key <$> cs) → NoDup (cart_key <$> delete i cs).
Proof.
  intros Hnd. apply (sublist_NoDup _ (cart_key <$> cs)); [done |].
  apply fmap_sublist, sublist_delete.
Qed.

(** The joined cart of a user around one of its lines: the line at
    [cartItemId] is one line of the joined cart, and replacing or deleting
    the row replaces or deletes that line. *)
Lemma cart_lines_middle st uid items cartItemId ci :
  cart_lines st uid = Some items →
  cartItems st !! cartItemId = Some ci → CartItem.userId ci = uid →
  ∃ k1 line k2,
    items = k1 ++ line :: k2
    ∧ include_product st ci = Some line
    ∧ (∀ row line',
         CartItem.userId row = uid → include_product st row = Some line' →
         cart_lines (with_cartItems (<[cartItemId := row]> (cartItems st)) st) uid
         = Some (k1 ++ line' :: k2))
    ∧ cart_lines (with_cartItems (delete cartItemId (cartItems st)) st) uid
      = Some (k1 ++ k2).
Proof.
  intros Hlines Hci Hu.
  destruct (lookup_middle (cartItems st) cartItemId ci ci Hci) as (Hcs & _ & Hdel).
  unfold cart_lines, cart_of in *.
  rewrite Hcs, filter_app, filter_cons_True in Hlines by done.
  apply mapM_Some_1, Forall2_app_inv_l in Hlines as (k1 & k2' & H1 & H2 & ->).
  apply Forall2_cons_inv_l in H2 as (line & k2 & Hline & H2 & ->).
  exists k1, line, k2. split_and!; [done | done | |].
  - intros row line' Hrow Hjoin. simpl.
    rewrite (proj1 (proj2 (lookup_middle (cartItems st) cartItemId ci row Hci))).
    rewrite filter_app, filter_cons_True by done.
    apply mapM_Some_2, Forall2_app; [done |]. by constructor.
  - simpl. rewrite Hdel, filter_app. by apply mapM_Some_2, Forall2_app.
Qed.

(** X25. A successful [updateCartItemQuantity] changed a row of the caller:
    the row keeps its place, its user and its product and holds the
    quantity asked for, which is within the stock of the product; no other
    row changes and the unique index of the cart table is kept.  If the
    caller's cart passed the validation of the checkout before, it passes
    it afterwards and [createOrder] succeeds on it. *)
Theorem updateCartItemQuantity_sets_quantity st userId cartItemId quantity row st' :
  CartRouter.updateCartItemQuantity userId cartItemId quantity st = (Ok row, st') →
  ∃ ci p,
    cartItems st !! cartItemId = Some ci
    ∧ CartItem.userId ci = userId
    ∧ products st !! CartItem.productId ci = Some p
    ∧ (quantity ≤ Product.stock p)%Z
    ∧ row = CartItem.mk userId (CartItem.productId ci) quantity
    ∧ cartItems st' = <[cartItemId := row]> (cartItems st)
    ∧ (cart_unique st → cart_unique st')
    ∧ ∀ items,
        cart_lines st userId = Some items → Forall valid_line items →
        ∃ items',
          cart_lines st' userId = Some items'
          ∧ length items' = length items
          ∧ Forall valid_line items'
          ∧ ∀ shippingAddress, ∃ created st'',
              createOrder userId shippingAddress st' = (Ok created, st'').
Proof.
  intros (ci & p & Hci & Hu & Hp & Hq & -> & ->)%updateCartItemQuantity_Ok_inv.
  exists ci, p. split_and!; try done.
  - unfold cart_unique. simpl. rewrite <- !cart_key_unique.
    apply (cart_unique_insert _ _ ci); [done |]. unfold cart_key. simpl. by rewrite Hu.
  - intros items Hlines Hvalid.
    destruct (cart_lines_middle _ _ _ _ _ Hlines Hci Hu)
      as (k1 & line & k2 & -> & Hjoin & Hins & _).
    unfold include_product in Hjoin. rewrite Hp in Hjoin.
    destruct (vendor_by_id (vendors st) (Product.vendorId p)) as [v |] eqn:Hv; [| done].
    injection Hjoin as <-.
    set (line' := CartItemWithProduct.mk (CartItem.productId ci) quantity p v).
    assert (Forall valid_line (k1 ++ line' :: k2)) as Hvalid'.
    { apply Forall_app in Hvalid as [Hv1 [(Ha & Hap & _) Hv2]%Forall_cons].
      apply Forall_app. split; [done |]. constructor; [| done]. by split_and!. }
    exists (k1 ++ line' :: k2). split_and!.
    + apply Hins; [done |]. unfold include_product. simpl. by rewrite Hp, Hv.
    + by rewrite !length_app.
    + done.
    + intros addr. eexists _, _. apply (createOrder_ok _ _ _ (k1 ++ line' :: k2)).
      * apply Hins; [done |]. unfold include_product. simpl. by rewrite Hp, Hv.
      * by destruct k1.
      * done.
Qed.

(** X26. A successful [removeFromCart] deleted a row of the caller and
    nothing else: the table is the old one without that row, the unique
    index is kept, and the caller has no line for that product any more.
    If the caller's cart passed the validation of the checkout before, the
    lines that are left still pass it. *)
Theorem removeFromCart_removes_line st userId cartItemId st' :
  CartRouter.removeFromCart userId cartItemId st = (Ok (), st') →
  ∃ ci,
    cartItems st !! cartItemId = Some ci
    ∧ CartItem.userId ci = userId
    ∧ cartItems st' = delete cartItemId (cartItems st)
    ∧ S (length (cartItems st')) = length (cartItems st)
    ∧ (cart_unique st →
       cart_unique st' ∧ cart_row (cartItems st') userId (CartItem.productId ci) = None)
    ∧ ∀ items,
        cart_lines st userId = Some items → Forall valid_line items →
        ∃ items',
          cart_lines st' userId = Some items'
          ∧ S (length items') = length items
          ∧ Forall valid_line items'.
Proof.
  intros (ci & Hci & Hu & ->)%removeFromCart_Ok_inv.
  exists ci. split_and!; try done.
  - simpl. rewrite length_delete by done.
    apply lookup_lt_Some in Hci. lia.
  - unfold cart_unique. simpl. rewrite <- !cart_key_unique. intros Hnd.
    split; [by apply cart_unique_delete |].
    apply (list_find_None (is_line userId (CartItem.productId ci))).
    destruct (lookup_middle (cartItems st) cartItemId ci ci Hci) as (Hcs & _ & ->).
    rewrite Hcs, fmap_app, fmap_cons in Hnd.
    apply NoDup_app in Hnd as (_ & Hl1 & [Hl2 _]%NoDup_cons).
    apply Forall_app. split; apply Forall_forall; intros x Hx [Hxu Hxp].
    + apply (Hl1 (cart_key x)).
      * apply list_elem_of_fmap. by exists x.
      * assert (cart_key x = cart_key ci) as -> by (unfold cart_key; congruence). left.
    + apply Hl2, list_elem_of_fmap. exists x. split; [| done]. unfold cart_key. congruence.
  - intros items Hlines Hvalid.
    destruct (cart_lines_middle _ _ _ _ _ Hlines Hci Hu)
      as (k1 & line & k2 & -> & _ & _ & Hdel).
    exists (k1 ++ k2). split_and!; [done | |].
    + rewrite !length_app. simpl. lia.
    + apply Forall_app in Hvalid as [Hv1 [_ Hv2]%Forall_cons]. by apply Forall_app.
Qed.

(** ** The cart writes and the rest of the store *)

Lemma cart_write_refl userId st : cart_write userId st st.
Proof. by split_and!. Qed.

Lemma cart_of_skip other (l1 l2 : list CartItem.t) x :
  CartItem.userId x ≠ other → cart_of other (l1 ++ x :: l2) = cart_of other (l1 ++ l2).
Proof. intros Hx. unfold cart_of. by rewrite !filter_app, filter_cons_False. Qed.

Lemma cart_ok_sublist (l1 l2 : list CartItem.t) :
  l1 `sublist_of` l2 → cart_ok l2 → cart_ok l1.
Proof.
  intros Hsub [Hnd Hpos]. split.
  - apply (sublist_NoDup _ (cart_key <$> l2)); [done |]. by apply fmap_sublist.
  - apply Forall_forall. intros x Hx. rewrite Forall_forall in Hpos.
    apply Hpos. by eapply elem_of_sublist.
Qed.

Lemma addToCart_cart_write st userId productId quantity :
  cart_write userId st (CartRouter.addToCart userId productId quantity st).2.
Proof.
  destruct (CartRouter.addToCart userId productId quantity st) as [[row | e] st'] eqn:Hadd;
    simpl.
  - destruct (addToCart_Ok_cart _ _ _ _ _ _ Hadd) as (Hrow & Hp & Hv & Hc & Ho & Hcart).
    split_and!; try done. intros other Hne.
    assert (CartItem.userId row ≠ other) as Hru by (rewrite Hrow; simpl; congruence).
    destruct Hcart as [(l1 & e & l2 & -> & -> & [He _] & _) | [-> _]].
    + rewrite !cart_of_skip; [done | congruence | done].
    + rewrite cart_of_skip by done. by rewrite app_nil_r.
  - apply addToCart_Err_unchanged in Hadd as ->. apply cart_write_refl.
Qed.

Lemma addToCart_cart_ok st userId productId quantity :
  cart_ok (cartItems st) → (0 < quantity)%Z →
  cart_ok (cartItems (CartRouter.addToCart userId productId quantity st).2).
Proof.
  intros [Hnd Hpos] Hq.
  destruct (CartRouter.addToCart userId productId quantity st) as [[row | e] st'] eqn:Hadd;
    simpl; [| by apply addToCart_Err_unchanged in Hadd as ->].
  destruct (addToCart_Ok_cart _ _ _ _ _ _ Hadd) as (Hrow & _ & _ & _ & _ & Hcart).
  assert (is_line userId productId row) as Hkey by by rewrite Hrow.
  destruct Hcart as [(l1 & e & l2 & Hcs & -> & He & Hl1) | [-> Hnone]].
  - rewrite Hcs in Hnd, Hpos. split.
    + apply (NoDup_key_replace cart_key l1 l2 e row); [| done].
      destruct He, Hkey. unfold cart_key. congruence.
    + apply Forall_app in Hpos as [Hp1 [Hpe Hp2]%Forall_cons].
      apply Forall_app. split; [done |]. constructor; [| done].
      rewrite Hrow. simpl. unfold requested_quantity.
      rewrite Hcs, (cart_row_middle l1 l2 userId productId e) by done. lia.
  - split.
    + apply NoDup_key_snoc; [| done].
      eapply Forall_impl; [exact Hnone |]. simpl. intros ci Hne Hk. apply Hne.
      destruct Hkey. unfold cart_key in Hk. injection Hk as Hk1 Hk2. split; congruence.
    + apply Forall_app. split; [done |]. apply Forall_singleton.
      rewrite Hrow. simpl. unfold requested_quantity, cart_row.
      by rewrite (proj2 (list_find_None (is_line userId productId) (cartItems st))).
Qed.

Lemma updateCartItemQuantity_cart_write st userId cartItemId quantity :
  cart_write userId st (CartRouter.updateCartItemQuantity userId cartItemId quantity st).2.
Proof.
  rewrite updateCartItemQuantity_cases.
  destruct (cartItems st !! cartItemId) as [ci |] eqn:Hci; [| apply cart_write_refl].
  destruct (products st !! CartItem.productId ci); [| apply cart_write_refl].
  destruct (decide (CartItem.userId ci ≠ userId)) as [| Hu]; [apply cart_write_refl |].
  destruct (quantity >? Product.stock _)%Z; [apply cart_write_refl |].
  split_and!; try done. intros other Hne. simpl.
  assert (CartItem.userId ci = userId) as Hu'
    by by destruct (decide (CartItem.userId ci = userId)).
  destruct (lookup_middle (cartItems st) cartItemId ci
              (CartItem.mk (CartItem.userId ci) (CartItem.productId ci) quantity) Hci)
    as (Hcs & -> & _).
  rewrite Hcs at 3. rewrite !cart_of_skip; [done | congruence | simpl; congruence].
Qed.

Lemma updateCartItemQuantity_cart_ok st userId cartItemId quantity :
  cart_ok (cartItems st) → (0 < quantity)%Z →
  cart_ok (cartItems (CartRouter.updateCartItemQuantity userId cartItemId quantity st).2).
Proof.
  intros [Hnd Hpos] Hq. rewrite updateCartItemQuantity_cases.
  destruct (cartItems st !! cartItemId) as [ci |] eqn:Hci; [| done].
  destruct (products st !! CartItem.productId ci); [| done].
  destruct (decide (CartItem.userId ci ≠ userId)); [done |].
  destruct (quantity >? Product.stock _)%Z; [done |]. simpl. split.
  - by apply (cart_unique_insert _ _ ci).
  - by apply Forall_insert.
Qed.

Lemma removeFromCart_cart_write st userId cartItemId :
  cart_write userId st (CartRouter.removeFromCart userId cartItemId st).2.
Proof.
  rewrite removeFromCart_cases.
  destruct (cartItems st !! cartItemId) as [ci |] eqn:Hci; [| apply cart_write_refl].
  destruct (decide (CartItem.userId ci ≠ userId)) as [| Hu]; [apply cart_write_refl |].
  split_and!; try done. intros other Hne. simpl.
  assert (CartItem.userId ci = userId) as Hu'
    by by destruct (decide (CartItem.userId ci = userId)).
  destruct (lookup_middle (cartItems st) cartItemId ci ci Hci) as (Hcs & _ & ->).
  rewrite Hcs at 3. rewrite cart_of_skip; [done | congruence].
Qed.

Lemma removeFromCart_cart_ok st userId cartItemId :
  cart_ok (cartItems st) → cart_ok (cartItems (CartRouter.removeFromCart userId cartItemId st).2).
Proof.
  intros Hok. rewrite removeFromCart_cases.
  destruct (cartItems st !! cartItemId) as [ci |]; [| done].
  destruct (decide (CartItem.userId ci ≠ userId)); [done |]. simpl.
  eapply cart_ok_sublist; [apply sublist_delete | done].
Qed.

Lemma deleteMany_cart_ok userId (cs : list CartItem.t) :
  cart_ok cs → cart_ok (filter (λ ci, CartItem.userId ci ≠ userId) cs).
Proof. apply cart_ok_sublist, sublist_filter. Qed.

(** X27. The writes of the cart router stay in the caller's cart.
    Whatever their input and whether they succeed or fail, [addToCart],
    [updateCartItemQuantity], [removeFromCart] and [clearCart] change no
    product, vendor, category or order and no cart line of another user.
    Called with a quantity of at least one, as their schemas demand, they
    keep the cart table well formed: one line per user and product, every
    quantity at least one. *)
Theorem cart_writes_stay_in_the_cart st userId :
  (∀ productId quantity,
     let st' := (CartRouter.addToCart userId productId quantity st).2 in
     cart_write userId st st'
     ∧ (cart_ok (cartItems st) → (0 < quantity)%Z → cart_ok (cartItems st')))
  ∧ (∀ cartItemId quantity,
       let st' := (CartRouter.updateCartItemQuantity userId cartItemId quantity st).2 in
       cart_write userId st st'
       ∧ (cart_ok (cartItems st) → (0 < quantity)%Z → cart_ok (cartItems st')))
  ∧ (∀ cartItemId,
       let st' := (CartRouter.removeFromCart userId cartItemId st).2 in
       cart_write userId st st' ∧ (cart_ok (cartItems st) → cart_ok (cartItems st')))
  ∧ (let st' := (CartRouter.clearCart userId st).2 in
     cart_write userId st st' ∧ (cart_ok (cartItems st) → cart_ok (cartItems st'))).
Proof.
  split_and!.
  - intros productId quantity. split;
      [apply addToCart_cart_write | apply addToCart_cart_ok].
  - intros cartItemId quantity. split;
      [apply updateCartItemQuantity_cart_write | apply updateCartItemQuantity_cart_ok].
  - intros cartItemId. split; [apply removeFromCart_cart_write | apply removeFromCart_cart_ok].
  - simpl. split; [| apply deleteMany_cart_ok].
    split_and!; try done. intros other Hne. by apply cart_of_other.
Qed.

(** * Stock is never negative *)

Lemma quantity_of_nonneg pid ds :
  Forall (λ d, (0 < d.2)%Z) ds → (0 ≤ quantity_of pid ds)%Z.
Proof.
  induction 1 as [| d ds Hd _ IH]; simpl; [done |]. case_bool_decide; lia.
Qed.

Lemma cart_lines_positive st uid items :
  cart_lines st uid = Some items →
  Forall (λ ci, (0 < CartItem.quantity ci)%Z) (cartItems st) →
  Forall (λ d, (0 < d.2)%Z) (line_quantity <$> items).
Proof.
  intros Hlines Hpos. rewrite (cart_lines_quantities _ _ _ Hlines).
  rewrite Forall_fmap. apply Forall_forall. intros ci [_ Hci]%list_elem_of_filter.
  rewrite Forall_forall in Hpos. by apply Hpos.
Qed.

Lemma createOrder_Err_unchanged userId shippingAddress st e st' :
  createOrder userId shippingAddress st = (Err e, st') → st' = st.
Proof.
  unfold createOrder, transaction.
  destruct (createOrder_body userId shippingAddress st) as [[? | ?] ?]; [done |].
  by intros [= _ <-].
Qed.

(** What a checkout leaves of the stock of a product: never less than
    zero when the cart table has its unique index. *)
Lemma checkout_stock st uid addr items pid p :
  cart_lines st uid = Some items → Forall valid_line items → cart_unique st →
  products st !! pid = Some p → (0 ≤ Product.stock p)%Z →
  ∃ p', products (checkout_state uid addr items st) !! pid = Some p'
        ∧ (0 ≤ Product.stock p')%Z.
Proof.
  intros Hlines Hvalid Huniq Hp Hstock. rewrite checkout_state_products, Hp. simpl.
  eexists. split; [done |]. rewrite set_stock_stock.
  destruct (decide (pid ∈ CartItemWithProduct.productId <$> items)) as [Hin | Hout].
  - apply list_elem_of_fmap in Hin as (item & -> & Hitem).
    assert (purchased (CartItemWithProduct.productId item) items
            = CartItemWithProduct.quantity item) as ->.
    { apply quantity_of_NoDup.
      - rewrite <- list_fmap_compose. by apply (cart_unique_lines st uid).
      - apply list_elem_of_fmap. by exists item. }
    destruct (cart_lines_product _ _ _ _ Hlines Hitem) as [Hp' _].
    rewrite Forall_forall in Hvalid. destruct (Hvalid item Hitem) as (_ & _ & Hq).
    assert (CartItemWithProduct.product item = p) as Heq by congruence.
    rewrite Heq in Hq. lia.
  - unfold purchased. rewrite quantity_of_absent by by rewrite <- list_fmap_compose. lia.
Qed.

Lemma restocked_stock oid s o st pid p :
  Forall (λ item, (0 < OrderItem.quantity item)%Z) (Order.items o) →
  products st !! pid = Some p → (0 ≤ Product.stock p)%Z →
  ∃ p', products (restocked_state oid s o st) !! pid = Some p' ∧ (0 ≤ Product.stock p')%Z.
Proof.
  intros Hpos Hp Hstock. rewrite restocked_state_products, Hp. simpl.
  eexists. split; [done |]. rewrite set_stock_stock.
  assert (0 ≤ ordered pid (Order.items o))%Z; [| lia].
  apply quantity_of_nonneg. by rewrite Forall_fmap.
Qed.

(** An order row that an operation adds was made by a checkout, from the
    lines of one vendor in the cart of the caller. *)
Lemma step_new_order op st i o' :
  orders st !! i = None → orders (step op st) !! i = Some o' →
  ∃ userId shippingAddress items v,
    op = CreateOrder userId shippingAddress
    ∧ cart_lines st userId = Some items
    ∧ o' = new_order userId shippingAddress (v, lines_of_vendor v items).
Proof.
  intros Hnone. destruct op; simpl.
  - destruct (createOrder_state userId shippingAddress st) as [-> | (items & Hl & ->)];
      [congruence |]. simpl.
    rewrite lookup_app_r by by apply lookup_ge_None.
    intros ([v its] & -> & Hin%list_elem_of_lookup_2)%list_lookup_fmap_Some.
    destruct (groupCartItemsByVendor_groups_of items) as (_ & _ & Hgroups).
    rewrite (Hgroups _ _ Hin). by exists userId, shippingAddress, items, v.
  - rewrite updateOrderStatus_cases.
    destruct (vendor_by_userId _ _); [| simpl; congruence].
    destruct (orders st !! orderId) as [o |]; [| simpl; congruence].
    repeat case_decide; simpl; try congruence; by rewrite insert_lookup_None.
  - rewrite cancelOrder_cases.
    destruct (orders st !! orderId) as [o |]; [| simpl; congruence].
    repeat case_decide; simpl; try congruence; by rewrite insert_lookup_None.
  - rewrite createProduct_orders. congruence.
  - rewrite updateProduct_orders. congruence.
  - rewrite deleteProduct_orders. congruence.
  - congruence.
Qed.

Lemma step_order_quantities op st :
  store_ok st →
  ∀ i o, orders (step op st) !! i = Some o →
    Forall (λ item, (0 < OrderItem.quantity item)%Z) (Order.items o).
Proof.
  intros (_ & [_ Hcart] & Horders) i o' Ho'.
  destruct (orders st !! i) as [o |] eqn:Ho.
  - destruct (step_evolves op st i o Ho) as (o'' & Ho'' & He).
    assert (o'' = o') as -> by congruence.
    destruct He as (_ & _ & _ & _ & -> & _). by eapply Horders.
  - destruct (step_new_order op st i o' Ho Ho') as (u & addr & items & v & _ & Hl & ->).
    simpl. rewrite Forall_fmap.
    pose proof (cart_lines_positive _ _ _ Hl Hcart) as Hpos.
    rewrite Forall_fmap in Hpos. apply Forall_forall.
    intros line [_ Hline]%list_elem_of_filter.
    rewrite Forall_forall in Hpos. by apply (Hpos line).
Qed.

Lemma step_stock op st pid p' :
  store_ok st → valid_op op →
  products (step op st) !! pid = Some p' → (0 ≤ Product.stock p')%Z.
Proof.
  intros (Hstock & [Hnd Hcart] & Horders) Hop.
  assert (∀ q, products st !! pid = Some q → (0 ≤ Product.stock q)%Z) as Hold
    by (intros q; apply Hstock).
  destruct op; simpl.
  - destruct (createOrder userId shippingAddress st) as [[created | e] st'] eqn:Hco; simpl.
    + destruct (createOrder_Ok_inv _ _ _ _ _ Hco) as (items & Hl & Hne & Hv).
      rewrite (createOrder_ok _ _ _ _ Hl Hne Hv) in Hco. injection Hco as _ <-.
      intros Hp'. destruct (products st !! pid) as [p |] eqn:Hp.
      * destruct (checkout_stock st userId shippingAddress items pid p Hl Hv Hnd Hp
                    (Hold p eq_refl)) as (p'' & Hp'' & Hs).
        congruence.
      * rewrite checkout_state_products, Hp in Hp'. done.
    + apply createOrder_Err_unchanged in Hco as ->. apply Hold.
  - rewrite updateOrderStatus_cases.
    destruct (vendor_by_userId _ _); [| apply Hold].
    destruct (orders st !! orderId) as [o |] eqn:Ho; [| apply Hold].
    repeat case_decide; simpl; try apply Hold.
    intros Hp'. destruct (products st !! pid) as [p |] eqn:Hp.
    + destruct (restocked_stock orderId CANCELLED o st pid p (Horders _ _ Ho) Hp
                  (Hold p eq_refl)) as (p'' & Hp'' & Hs).
      simpl in Hp''. congruence.
    + rewrite update_all_increment, Hp in Hp'. done.
  - rewrite cancelOrder_cases.
    destruct (orders st !! orderId) as [o |] eqn:Ho; [| apply Hold].
    repeat case_decide; simpl; try apply Hold.
    intros Hp'. destruct (products st !! pid) as [p |] eqn:Hp.
    + destruct (restocked_stock orderId CANCELLED o st pid p (Horders _ _ Ho) Hp
                  (Hold p eq_refl)) as (p'' & Hp'' & Hs).
      simpl in Hp''. congruence.
    + rewrite update_all_increment, Hp in Hp'. done.
  - rewrite createProduct_cases.
    destruct (approved_vendor st userId); [| apply Hold].
    destruct (decide _); [| apply Hold].
    unfold product_create. destruct (products st !! id) eqn:Hid; [apply Hold |]. simpl.
    rewrite lookup_insert. case_decide; [| apply Hold]. by intros [= <-].
  - rewrite updateProduct_cases.
    destruct (approved_vendor st userId) as [vendor |]; [| apply Hold].
    destruct (products st !! UpdateProductInput.productId input) as [q |] eqn:Hq;
      [| apply Hold].
    repeat case_decide; simpl; try apply Hold.
    rewrite lookup_insert. case_decide; [| apply Hold]. intros [= <-]. simpl.
    simpl in Hop. destruct (UpdateProductInput.stock input); simpl; [done |].
    by eapply Hstock.
  - rewrite deleteProduct_cases.
    destruct (approved_vendor st userId) as [vendor |]; [| apply Hold].
    destruct (products st !! productId) as [q |] eqn:Hq; [| apply Hold].
    repeat case_decide; simpl; try apply Hold.
    rewrite lookup_insert. case_decide; [| apply Hold]. intros [= <-]. simpl.
    by eapply Hstock.
  - apply Hold.
Qed.

Lemma same_but_products_refl st : same_but_products st st.
Proof. by split_and!. Qed.

Lemma createProduct_rest userId input id st :
  same_but_products st (ProductRouter.createProduct userId input id st).2.
Proof.
  rewrite createProduct_cases.
  destruct (approved_vendor st userId); [| apply same_but_products_refl].
  destruct (decide _); [apply product_create_rest | apply same_but_products_refl].
Qed.

Lemma updateProduct_rest userId input st :
  same_but_products st (ProductRouter.updateProduct userId input st).2.
Proof.
  rewrite updateProduct_cases.
  destruct (approved_vendor st userId); [| apply same_but_products_refl].
  destruct (products st !! _); [| apply same_but_products_refl].
  repeat case_decide; apply same_but_products_refl || by split_and!.
Qed.

Lemma deleteProduct_rest userId productId st :
  same_but_products st (ProductRouter.deleteProduct userId productId st).2.
Proof.
  rewrite deleteProduct_cases.
  destruct (approved_vendor st userId); [| apply same_but_products_refl].
  destruct (products st !! _); [| apply same_but_products_refl].
  repeat case_decide; apply same_but_products_refl || by split_and!.
Qed.

Lemma step_cart_ok op st :
  store_ok st → valid_op op → cart_ok (cartItems (step op st)).
Proof.
  intros (_ & Hcart & _) Hop. destruct op; simpl; try done.
  - destruct (createOrder_state userId shippingAddress st) as [-> | (items & _ & ->)];
      [done |]. simpl. by apply deleteMany_cart_ok.
  - rewrite updateOrderStatus_cases.
    destruct (vendor_by_userId _ _); [| done].
    destruct (orders st !! orderId) as [o |]; [| done].
    by repeat case_decide.
  - rewrite cancelOrder_cases.
    destruct (orders st !! orderId) as [o |]; [| done].
    by repeat case_decide.
  - by rewrite (proj1 (proj2 (proj2 (createProduct_rest _ _ _ _)))).
  - by rewrite (proj1 (proj2 (proj2 (updateProduct_rest _ _ _)))).
  - by rewrite (proj1 (proj2 (proj2 (deleteProduct_rest _ _ _)))).
Qed.

Lemma step_store_ok op st : store_ok st → valid_op op → store_ok (step op st).
Proof.
  intros Hok Hop. split_and!.
  - intros pid p'. by apply step_stock.
  - by apply step_cart_ok.
  - by apply step_order_quantities.
Qed.

(** X28. Stock is never negative.  Start from a store where no product has
    a negative stock, the cart table has one line per user and product with
    quantities of at least one, and order items have quantities of at least
    one.  Then after any sequence of operations whose inputs pass their
    schemas the same holds: a checkout takes from a product at most what its
    one cart line asked for, which the validation bounded by the stock; a
    cancellation only gives stock back; and a vendor can only set a stock
    that is not negative. *)
Theorem stock_never_negative ops st :
  store_ok st → Forall valid_op ops →
  store_ok (run ops st)
  ∧ ∀ pid p, products (run ops st) !! pid = Some p → (0 ≤ Product.stock p)%Z.
Proof.
  intros Hok Hops.
  assert (store_ok (run ops st)) as Hrun; [| split; [done | apply Hrun]].
  revert st Hok. induction Hops as [| op ops Hop _ IH]; intros st Hok; [done |].
  simpl. by apply IH, step_store_ok.
Qed.

(** * The review router *)

Lemma orderItem_findFirst_Some userId productId st :
  is_Some (orderItem_findFirst userId productId st) ↔ has_purchased st userId productId.
Proof.
  unfold orderItem_findFirst, has_purchased. split.
  - intros [[i o] (Hi & Ho & _)%list_find_Some]. by exists i, o.
  - intros (i & o & Hi & Ho).
    destruct (list_find (delivered_purchase userId productId) (orders st)) as [r |] eqn:Hf;
      [done |].
    apply (list_find_None (delivered_purchase userId productId)) in Hf.
    rewrite Forall_forall in Hf. destruct (Hf o); [by eapply list_elem_of_lookup_2 | done].
Qed.

Lemma review_findUnique_None userId productId reviews :
  review_findUnique userId productId reviews = None
  ↔ Forall (λ r, ¬ is_review userId productId r) reviews.
Proof.
  unfold review_findUnique. rewrite fmap_None.
  apply (list_find_None (is_review userId productId)).
Qed.

Lemma createReview_Ok userId productId rating comment st reviews review reviews' :
  ReviewRouter.createReview userId productId rating comment st reviews = (inr review, reviews')
  ↔ is_Some (products st !! productId)
    ∧ review_findUnique userId productId reviews = None
    ∧ has_purchased st userId productId
    ∧ review = Review.mk userId productId rating comment
    ∧ reviews' = reviews ++ [review].
Proof.
  unfold ReviewRouter.createReview. rewrite <- orderItem_findFirst_Some.
  destruct (products st !! productId) as [p |].
  - destruct (review_findUnique userId productId reviews) as [r |].
    + split; [done | by intros (_ & ? & _)].
    + destruct (orderItem_findFirst userId productId st) as [r |].
      * split; [intros [= <- <-]; by split_and! | by intros (_ & _ & _ & -> & ->)].
      * split; [done | intros (_ & _ & [? ?] & _); done].
  - split; [done | intros ([? ?] & _); done].
Qed.

(** X29. [createReview] is for customers who have received the product.
    It succeeds exactly when the product is in the store, the caller has no
    review of it yet, and an order of the caller that holds the product is
    [DELIVERED]; it then adds one review, keeps the reviews table at one
    review per user and product, and a second review of the same product
    by the same caller is answered with [CONFLICT].  When every order item
    refers to a product of the store, [canReviewProduct] tells the caller
    exactly whether [createReview] will succeed. *)
Theorem createReview_requires_delivery st reviews userId productId rating comment :
  (∀ review reviews',
     ReviewRouter.createReview userId productId rating comment st reviews
     = (inr review, reviews')
     ↔ is_Some (products st !! productId)
       ∧ review_findUnique userId productId reviews = None
       ∧ has_purchased st userId productId
       ∧ review = Review.mk userId productId rating comment
       ∧ reviews' = reviews ++ [review])
  ∧ (∀ review reviews',
       ReviewRouter.createReview userId productId rating comment st reviews
       = (inr review, reviews') →
       (reviews_unique reviews → reviews_unique reviews')
       ∧ ∀ rating' comment',
           ReviewRouter.createReview userId productId rating' comment' st reviews'
           = (inl ReviewRouter.CONFLICT, reviews'))
  ∧ (order_items_fk st →
     ReviewRouter.canReviewProduct userId productId st reviews = true
     ↔ ∃ review reviews',
         ReviewRouter.createReview userId productId rating comment st reviews
         = (inr review, reviews')).
Proof.
  split_and!.
  - intros. apply createReview_Ok.
  - intros review reviews' (Hp & Hnone & Hbought & -> & ->)%createReview_Ok. split.
    + unfold reviews_unique. intros Hnd. apply NoDup_key_snoc; [| done].
      apply review_findUnique_None in Hnone.
      eapply Forall_impl; [exact Hnone |]. simpl. intros r Hr [= Hu Hpid]. by apply Hr.
    + intros rating' comment'. unfold ReviewRouter.createReview.
      destruct Hp as [p ->].
      destruct (review_findUnique userId productId (reviews ++ _)) as [r |] eqn:Hr; [done |].
      apply review_findUnique_None, Forall_app in Hr as [_ Hr].
      rewrite Forall_singleton in Hr. by destruct Hr.
  - intros Hfk. unfold ReviewRouter.canReviewProduct. split.
    + intros Hcan. eexists _, _. apply createReview_Ok.
      destruct (review_findUnique userId productId reviews) as [r |]; [done |].
      destruct (orderItem_findFirst userId productId st) as [r |] eqn:Hf; [| done].
      assert (has_purchased st userId productId) as Hbought
        by (apply orderItem_findFirst_Some; by rewrite Hf).
      split_and!; try done.
      destruct Hbought as (i & o & Ho & _ & _ & (item & -> & Hitem)%list_elem_of_fmap).
      pose proof (Hfk i o Ho) as Hex. unfold products_exist in Hex.
      rewrite Forall_forall in Hex. by apply Hex.
    + intros (review & reviews' & (_ & -> & Hbought%orderItem_findFirst_Some & _)%createReview_Ok).
      by destruct Hbought as [r ->].
Qed.

(** ** Who can review, over the operations *)

Lemma delivered_purchase_evolves userId productId o o' :
  order_evolves o o' → delivered_purchase userId productId o →
  delivered_purchase userId productId o'.
Proof.
  intros (Hu & _ & _ & _ & Hitems & Hs) (Hou & Hos & Hin).
  split_and!; [congruence | | by rewrite Hitems].
  destruct Hs as [-> | [Ht _]]; [done |]. destruct Ht. left. done.
Qed.

Lemma has_purchased_run ops st userId productId :
  has_purchased st userId productId → has_purchased (run ops st) userId productId.
Proof.
  intros (i & o & Ho & Hd). destruct (run_evolves ops st i o Ho) as (o' & Ho' & He).
  exists i, o'. split; [done |]. by eapply delivered_purchase_evolves.
Qed.

Lemma step_delivers op st i o o' :
  orders st !! i = Some o → orders (step op st) !! i = Some o' →
  Order.status o ≠ DELIVERED → Order.status o' = DELIVERED →
  ∃ caller, op = UpdateOrderStatus caller i ToDELIVERED ∧ owning_vendor st caller o.
Proof.
  intros Ho Ho' Hs Hs'. destruct op; simpl in Ho'.
  - rewrite (createOrder_evolves _ _ _ _ _ Ho) in Ho'. congruence.
  - rewrite updateOrderStatus_cases in Ho'.
    destruct (vendor_by_userId (vendors st) userId) as [vendor |] eqn:Hv;
      [| simpl in Ho'; congruence].
    destruct (orders st !! orderId) as [o0 |] eqn:Ho0; [| simpl in Ho'; congruence].
    destruct (decide (Order.vendorId o0 ≠ Vendor.id vendor)) as [| Hown];
      [simpl in Ho'; congruence |].
    destruct (decide (terminal (Order.status o0))); [simpl in Ho'; congruence |].
    assert (Order.vendorId o0 = Vendor.id vendor) as Hown'
      by by destruct (decide (Order.vendorId o0 = Vendor.id vendor)).
    destruct (decide (status = ToCANCELLED)) as [-> | Hnc].
    + destruct (decide (products_exist st (Order.items o0))); [| simpl in Ho'; congruence].
      simpl in Ho'. destruct (decide (orderId = i)) as [-> | Hne].
      * rewrite list_lookup_insert_eq in Ho' by by eapply lookup_lt_Some.
        injection Ho' as <-. done.
      * rewrite list_lookup_insert_ne in Ho' by done. congruence.
    + simpl in Ho'. destruct (decide (orderId = i)) as [-> | Hne].
      * rewrite list_lookup_insert_eq in Ho' by by eapply lookup_lt_Some.
        injection Ho' as <-. simpl in Hs'.
        assert (o0 = o) as -> by congruence.
        exists userId. split; [| by exists vendor].
        by destruct status.
      * rewrite list_lookup_insert_ne in Ho' by done. congruence.
  - rewrite cancelOrder_cases in Ho'.
    destruct (orders st !! orderId) as [o0 |] eqn:Ho0; [| simpl in Ho'; congruence].
    repeat case_decide; simpl in Ho'; try congruence.
    destruct (decide (orderId = i)) as [-> | Hne].
    + rewrite list_lookup_insert_eq in Ho' by by eapply lookup_lt_Some.
      injection Ho' as <-. done.
    + rewrite list_lookup_insert_ne in Ho' by done. congruence.
  - rewrite createProduct_orders in Ho'. congruence.
  - rewrite updateProduct_orders in Ho'. congruence.
  - rewrite deleteProduct_orders in Ho'. congruence.
  - congruence.
Qed.

(** X30. Who may review a product is decided by deliveries alone.  A user
    who has received a product keeps that standing, whatever operations
    follow; and a user who has not received it gets it by one operation
    only: the [updateOrderStatus] to [DELIVERED] by the vendor that owns an
    order of that user holding the product.  No call of the customer's own
    opens [createReview] to them. *)
Theorem review_eligibility st userId productId :
  (∀ ops, has_purchased st userId productId →
          has_purchased (run ops st) userId productId)
  ∧ (∀ op, ¬ has_purchased st userId productId →
           has_purchased (step op st) userId productId →
           ∃ caller orderId o,
             op = UpdateOrderStatus caller orderId ToDELIVERED
             ∧ orders st !! orderId = Some o
             ∧ owning_vendor st caller o
             ∧ Order.userId o = userId
             ∧ productId ∈ OrderItem.productId <$> Order.items o).
Proof.
  split.
  - intros ops. apply has_purchased_run.
  - intros op Hnot (i & o' & Ho' & Hu' & Hs' & Hin').
    destruct (orders st !! i) as [o |] eqn:Ho.
    + destruct (step_evolves op st i o Ho) as (o'' & Ho'' & He).
      assert (o'' = o') as -> by congruence.
      destruct He as (Hu & _ & _ & _ & Hitems & _).
      assert (Order.status o ≠ DELIVERED) as Hs.
      { intros Hs. apply Hnot. exists i, o. split; [done |].
        split_and!; [congruence | done | by rewrite <- Hitems]. }
      destruct (step_delivers op st i o o' Ho Ho' Hs Hs') as (caller & -> & Hown).
      exists caller, i, o. split_and!; try done; [congruence | by rewrite <- Hitems].
    + pose proof (step_new_order_PENDING op st i o' Ho Ho') as Hp. congruence.
Qed.

(** * The other routers at the scenario *)


Example cart_ok_scenario : cart_ok (cartItems Scenario.store).
Proof. unfold cart_ok. apply (bool_decide_unpack _). vm_compute. exact I. Qed.

Example store_ok_scenario : store_ok Scenario.store.
Proof.
  split_and!.
  - change (map_Forall (λ _ p, (0 ≤ Product.stock p)%Z) (products Scenario.store)).
    apply (bool_decide_unpack _). vm_compute. exact I.
  - apply cart_ok_scenario.
  - intros i o Ho. vm_compute in Ho. destruct i; discriminate.
Qed.

Example single_vendor_scenario : orders_single_vendor Scenario.checked_out.
Proof.
  intros [| [| i]] o Ho; vm_compute in Ho; [| | discriminate];
    injection Ho as <-; repeat constructor; eexists; split; reflexivity.
Qed.

Example delivered_scenario : has_purchased Scenario.delivered "alice" "P1".
Proof.
  exists 0, (Order.set_status DELIVERED Scenario.order1).
  split; [reflexivity |]. split_and!; [reflexivity | reflexivity | vm_compute; left].
Qed.

Lemma addToCart_rejections_witness :
  CartRouter.addToCart "alice" "P9" 1 Scenario.store = (Err NOT_FOUND, Scenario.store)
  ∧ CartRouter.addToCart "alice" "P2" 1 Scenario.store = (Err BAD_REQUEST, Scenario.store).
Proof.
  split.
  - apply (addToCart_rejections Scenario.store "alice" "P9" 1). reflexivity.
  - apply (addToCart_rejections Scenario.store "alice" "P2" 1 : _ ∧ _ ∧ _)
      with (p := Scenario.P2) (v := Scenario.V2); vm_compute; reflexivity.
Defined.


Lemma addToCart_keeps_cart_unique_witness :
  let st' := (CartRouter.addToCart "alice" "P1" 1 Scenario.store).2 in
  cart_unique st'
  ∧ filter (is_line "alice" "P1") (cartItems st') = [CartItem.mk "alice" "P1" 3].
Proof.
  intros st'. apply (addToCart_keeps_cart_unique Scenario.store "alice" "P1" 1).
  - unfold cart_unique. apply (bool_decide_unpack _). vm_compute. exact I.
  - vm_compute. reflexivity.
Defined.

Lemma addToCart_keeps_cart_valid_witness :
  let st' := (CartRouter.addToCart "alice" "P1" 1 Scenario.store).2 in
  ∃ items',
    cart_lines st' "alice" = Some items'
    ∧ items' ≠ []
    ∧ Forall valid_line items'
    ∧ ∀ shippingAddress, ∃ created st'',
        createOrder "alice" shippingAddress st' = (Ok created, st'').
Proof.
  intros st'.
  apply (addToCart_keeps_cart_valid Scenario.store "alice" "P1" 1
           (CartItem.mk "alice" "P1" 3) st' Scenario.lines).
  - vm_compute. reflexivity.
  - repeat constructor; vm_compute; discriminate.
  - vm_compute. reflexivity.
Defined.

Lemma validateCart_issues_witness :
  ∃ isValid,
    CartRouter.validateCart "alice" Scenario.sold_out
    = (Ok (isValid, issue_of <$> filter invalid_line Scenario.sold_out_lines),
       Scenario.sold_out)
    ∧ (isValid = true ↔ Forall valid_line Scenario.sold_out_lines).
Proof.
  apply (validateCart_issues Scenario.sold_out "alice" Scenario.sold_out_lines).
  vm_compute. reflexivity.
Defined.

Lemma validateCart_agrees_with_createOrder_witness :
  createOrder "alice" Scenario.address Scenario.sold_out
  = (Err BAD_REQUEST, Scenario.sold_out).
Proof.
  destruct (validateCart_agrees_with_createOrder Scenario.sold_out "alice" false
              [CartIssue.mk "P2" (OnlyAvailable 0 1)] Scenario.sold_out)
    as (Hinvalid & _ & _).
  - vm_compute. reflexivity.
  - apply Hinvalid. reflexivity.
Defined.

Lemma clearCart_empties_cart_witness :
  ∃ st', CartRouter.clearCart "alice" Scenario.store = (Ok 2, st')
         ∧ cart_of "alice" (cartItems st') = [].
Proof.
  destruct (clearCart_empties_cart Scenario.store "alice") as (st' & Hclear & Hempty & _).
  exists st'. split; [exact Hclear | exact Hempty].
Defined.

Lemma createOrder_clears_cart_witness :
  cart_of "alice" (cartItems Scenario.checked_out) = []
  ∧ ∀ shippingAddress,
      createOrder "alice" shippingAddress Scenario.checked_out
      = (Err BAD_REQUEST, Scenario.checked_out).
Proof.
  destruct (createOrder_clears_cart Scenario.store "alice" Scenario.address
              [(0, Scenario.order1); (1, Scenario.order2)] Scenario.checked_out)
    as (_ & _ & Hempty & _ & _ & _ & Hagain).
  - vm_compute. reflexivity.
  - split; [exact Hempty | exact Hagain].
Defined.

Lemma createOrder_items_purchasable_witness :
  Order.items Scenario.order1 ≠ []
  ∧ ∀ item, item ∈ Order.items Scenario.order1 →
      ∃ p v,
        products Scenario.store !! OrderItem.productId item = Some p
        ∧ Product.vendorId p = "V1"
        ∧ vendor_by_id (vendors Scenario.store) "V1" = Some v
        ∧ Vendor.isApproved v = true
        ∧ Product.isActive p = true
        ∧ (OrderItem.quantity item ≤ Product.stock p)%Z.
Proof.
  apply (createOrder_items_purchasable Scenario.store "alice" Scenario.address
           [(0, Scenario.order1); (1, Scenario.order2)] Scenario.checked_out 0).
  - vm_compute. reflexivity.
  - left.
Defined.

Lemma getCart_summary_witness :
  ∃ vendors summary,
    CartRouter.getCart "alice" Scenario.store = (Ok (vendors, summary), Scenario.store)
    ∧ CartSummary.totalItems summary = 3%Z
    ∧ CartSummary.vendorCount summary = 2.
Proof.
  destruct (getCart_summary Scenario.store "alice" Scenario.lines)
    as (vendors & summary & Hcart & Hitems & Hcount & _).
  - vm_compute. reflexivity.
  - exists vendors, summary. split_and!; [exact Hcart | exact Hitems | exact Hcount].
Defined.

Lemma getCart_matches_checkout_witness :
  length [(0, Scenario.order1); (1, Scenario.order2)]
  = CartSummary.vendorCount Tour.cart_view.2
  ∧ Order.vendorId <$> [Scenario.order1; Scenario.order2]
    ≡ₚ CartVendor.vendorId <$> Tour.cart_view.1.
Proof.
  destruct (getCart_matches_checkout Scenario.store "alice" Scenario.address
              Tour.cart_view.1 Tour.cart_view.2 Scenario.store
              [(0, Scenario.order1); (1, Scenario.order2)] Scenario.checked_out)
    as (Hlen & Hperm & _).
  - vm_compute. reflexivity.
  - vm_compute. reflexivity.
  - split; [exact Hlen | exact Hperm].
Defined.

Lemma getMyOrders_page_witness :
  ∃ page pagination,
    getMyOrders "alice" None Scenario.checked_out
    = (Ok (page, pagination), Scenario.checked_out)
    ∧ Pagination.totalCount pagination = 2.
Proof.
  destruct (getMyOrders_page Scenario.checked_out "alice" None)
    as (page & pagination & Hpage & _ & _ & _ & Hcount).
  exists page, pagination. split; [exact Hpage | exact Hcount].
Defined.

Lemma getMyOrders_pages_witness :
  pages_upto 2
    (λ k, listed (getMyOrders "alice" (Some (ListOrdersInput.mk None k 1))
                    Scenario.checked_out))
  = [(1, Scenario.order2); (0, Scenario.order1)].
Proof.
  exact (proj1 (proj2 (getMyOrders_pages Scenario.checked_out "alice" None 1))).
Defined.

Lemma getVendorOrders_page_witness :
  getVendorOrders "alice" None Scenario.checked_out = (Err FORBIDDEN, Scenario.checked_out)
  ∧ ∃ page pagination,
      getVendorOrders "seller1" None Scenario.checked_out
      = (Ok (page, pagination), Scenario.checked_out)
      ∧ Pagination.totalCount pagination = 1.
Proof.
  split.
  - exact (getVendorOrders_page Scenario.checked_out "alice" None).
  - pose proof (getVendorOrders_page Scenario.checked_out "seller1" None) as Hseller.
    hnf in Hseller.
    destruct Hseller as [(page & pagination & Hpage & _ & _ & _ & Hcount & _) _].
    exists page, pagination. split; [exact Hpage | exact Hcount].
Defined.

Lemma getOrderById_access_witness :
  (getOrderById "alice" 0 Scenario.checked_out).1 = Ok Scenario.order1
  ∧ (getOrderById "seller1" 0 Scenario.checked_out).1 = Ok Scenario.order1
  ∧ (getOrderById "seller2" 0 Scenario.checked_out).1 = Err FORBIDDEN
  ∧ (getOrderById "alice" 7 Scenario.checked_out).1 = Err NOT_FOUND.
Proof.
  split_and!.
  - apply (getOrderById_access Scenario.checked_out "alice" 0). by left.
  - apply (getOrderById_access Scenario.checked_out "seller1" 0). right.
    by exists Scenario.V1.
  - apply (getOrderById_access Scenario.checked_out "seller2" 0).
    intros [Hu | (vendor & Hv & Hid)]; [discriminate Hu |].
    vm_compute in Hv. injection Hv as <-. discriminate Hid.
  - exact (proj2 (getOrderById_access Scenario.checked_out "alice" 7)).
Defined.

Lemma getOrderById_agrees_with_listings_witness :
  ∃ k, (0, Scenario.order1)
         ∈ listed (getMyOrders "alice" (Some (ListOrdersInput.mk None k 20))
                     Scenario.checked_out)
       ∨ (0, Scenario.order1)
         ∈ listed (getVendorOrders "alice" (Some (ListOrdersInput.mk None k 20))
                     Scenario.checked_out).
Proof.
  apply (getOrderById_agrees_with_listings Scenario.checked_out "alice" 0 Scenario.order1 20).
  reflexivity.
Defined.


Lemma product_router_needs_approved_vendor_witness :
  (∀ input id,
     ProductRouter.createProduct "alice" input id Scenario.store
     = (Err FORBIDDEN, Scenario.store))
  ∧ (∀ input,
       ProductRouter.updateProduct "alice" input Scenario.store
       = (Err FORBIDDEN, Scenario.store))
  ∧ (∀ productId,
       ProductRouter.deleteProduct "alice" productId Scenario.store
       = (Err FORBIDDEN, Scenario.store))
  ∧ getMyProducts "alice" Scenario.store = (Err FORBIDDEN, Scenario.store).
Proof. apply (product_router_needs_approved_vendor Scenario.store "alice"). reflexivity. Defined.

Lemma product_writes_touch_own_products_witness :
  products (ProductRouter.deleteProduct "seller1" "P2" Scenario.store).2 !! "P2"
  = Some Scenario.P2.
Proof.
  destruct (product_writes_touch_own_products Scenario.store "seller1" "P2" Scenario.P2)
    as (_ & _ & Hdelete).
  - reflexivity.
  - apply (proj1 (Hdelete "P2")).
    intros (vendor & Hv & Hid). vm_compute in Hv. injection Hv as <-. discriminate Hid.
Defined.

Lemma product_visibility_witness :
  (getProduct "P1" Scenario.store).1 = Ok Scenario.P1
  ∧ getProduct "P9" Scenario.store = (Err NOT_FOUND, Scenario.store).
Proof.
  destruct (product_visibility Scenario.store) as (Hshown & Hhidden & _). split.
  - apply Hshown. by split.
  - apply Hhidden. intros p Hp. discriminate Hp.
Defined.

Lemma deleteProduct_soft_delete_witness :
  let st' := (ProductRouter.deleteProduct "seller1" "P1" Scenario.store).2 in
  getProduct "P1" st' = (Err NOT_FOUND, st')
  ∧ (∀ shippingAddress created st'',
       createOrder "alice" shippingAddress st' ≠ (Ok created, st''))
  ∧ ProductRouter.deleteProduct "seller1" "P1" st' = (Ok (), st').
Proof.
  intros st'.
  destruct (deleteProduct_soft_delete Scenario.store "seller1" "P1" st')
    as (p & _ & _ & _ & _ & Hhidden & _ & _ & Hcheckout & Hagain).
  - vm_compute. reflexivity.
  - split_and!; [exact Hhidden | | exact Hagain].
    intros shippingAddress created st''.
    apply (Hcheckout "alice" shippingAddress created st'' (CartItem.mk "alice" "P1" 2));
      [left | reflexivity | reflexivity].
Defined.

Lemma createProduct_adds_active_product_witness :
  let st' := (ProductRouter.createProduct "seller1" Tour.new_product "P3" Scenario.store).2 in
  getProduct "P3" st' = (Ok Tour.P3, st')
  ∧ (ProductRouter.deleteProduct "seller1" "P3" st').1 = Ok ().
Proof.
  intros st'.
  destruct (createProduct_adds_active_product Scenario.store "seller1" Tour.new_product "P3"
              Tour.P3 st') as (vendor & _ & _ & _ & _ & _ & _ & Hshown & _ & Hdelete).
  - vm_compute. reflexivity.
  - split; [exact Hshown | exact Hdelete].
Defined.

Lemma product_rows_are_permanent_witness :
  ∃ p', products (run Tour.day Scenario.store) !! "P1" = Some p'
        ∧ Product.vendorId p' = "V1".
Proof.
  exact (proj2 (product_rows_are_permanent Scenario.store "P1" Scenario.P1 eq_refl) Tour.day).
Defined.

Lemma orders_stay_single_vendor_witness :
  orders_single_vendor
    (run [CancelOrder "alice" 0 None; UpdateProduct "seller1" Scenario.reprice]
       Scenario.checked_out).
Proof. apply orders_stay_single_vendor, single_vendor_scenario. Defined.

Lemma updateCartItemQuantity_sets_quantity_witness :
  let st' := (CartRouter.updateCartItemQuantity "alice" 0 4 Scenario.store).2 in
  cartItems st' = [CartItem.mk "alice" "P1" 4; CartItem.mk "alice" "P2" 1]
  ∧ ∀ shippingAddress, ∃ created st'',
      createOrder "alice" shippingAddress st' = (Ok created, st'').
Proof.
  intros st'.
  destruct (updateCartItemQuantity_sets_quantity Scenario.store "alice" 0 4
              (CartItem.mk "alice" "P1" 4) st')
    as (ci & p & _ & _ & _ & _ & _ & Hcart & _ & Hvalid).
  - vm_compute. reflexivity.
  - split; [exact Hcart |].
    destruct (Hvalid Scenario.lines) as (items' & _ & _ & _ & Hcheckout).
    + vm_compute. reflexivity.
    + repeat constructor; vm_compute; discriminate.
    + exact Hcheckout.
Defined.

Lemma removeFromCart_removes_line_witness :
  let st' := (CartRouter.removeFromCart "alice" 1 Scenario.store).2 in
  cartItems st' = [CartItem.mk "alice" "P1" 2]
  ∧ S (length (cartItems st')) = length (cartItems Scenario.store).
Proof.
  intros st'.
  destruct (removeFromCart_removes_line Scenario.store "alice" 1 st')
    as (ci & _ & _ & Hcart & Hlen & _).
  - vm_compute. reflexivity.
  - split; [exact Hcart | exact Hlen].
Defined.

Lemma cart_writes_stay_in_the_cart_witness :
  let st' := (CartRouter.addToCart "alice" "P1" 1 Scenario.store).2 in
  cart_write "alice" Scenario.store st' ∧ cart_ok (cartItems st').
Proof.
  intros st'.
  destruct (cart_writes_stay_in_the_cart Scenario.store "alice") as (Hadd & _).
  destruct (Hadd "P1" 1%Z) as [Hwrite Hok].
  split; [exact Hwrite |]. apply Hok; [apply cart_ok_scenario | reflexivity].
Defined.

Lemma stock_never_negative_witness :
  store_ok (run Tour.day Scenario.store)
  ∧ ∀ pid p, products (run Tour.day Scenario.store) !! pid = Some p →
             (0 ≤ Product.stock p)%Z.
Proof.
  apply (stock_never_negative Tour.day Scenario.store).
  - apply store_ok_scenario.
  - repeat constructor.
Defined.

Lemma createReview_requires_delivery_witness :
  ReviewRouter.createReview "alice" "P1" 5 None Scenario.delivered []
  = (inr (Review.mk "alice" "P1" 5 None), [Review.mk "alice" "P1" 5 None])
  ∧ ReviewRouter.createReview "alice" "P1" 4 None Scenario.delivered
      [Review.mk "alice" "P1" 5 None]
    = (inl ReviewRouter.CONFLICT, [Review.mk "alice" "P1" 5 None]).
Proof.
  destruct (createReview_requires_delivery Scenario.delivered [] "alice" "P1" 5 None)
    as (Hok & Hagain & _).
  assert (ReviewRouter.createReview "alice" "P1" 5 None Scenario.delivered []
          = (inr (Review.mk "alice" "P1" 5 None), [Review.mk "alice" "P1" 5 None]))
    as Hcreated.
  { apply Hok. split_and!; try reflexivity; [by eexists | apply delivered_scenario]. }
  split; [exact Hcreated |]. by apply (Hagain _ _ Hcreated).
Defined.

Lemma review_eligibility_witness :
  has_purchased (run Tour.day Scenario.delivered) "alice" "P1".
Proof.
  apply (review_eligibility Scenario.delivered "alice" "P1"). apply delivered_scenario.
Defined.
